(** * miapy.data.creation.callback: a shallow embedding and its properties

    The module [src/miapy/data/creation/callback.py] defines the observer
    layer used while a dataset archive is built: a base class [Callback]
    with six hooks, [ComposeCallback] which fans a hook out to a list of
    children, and five callbacks which talk to an injected [Writer].

    Python values are embedded as follows.
    - [str] is [string]; the order on [str] is the order on code points,
      which for UTF-8 encoded text is the byte-wise order of
      [String.compare].
    - [int] is [Z]; [len] yields a [nat].
    - A statement that may raise returns an [outcome]; a method which also
      mutates [self] or the writer is a function [S -> outcome A * S]: the
      state at the moment an exception is raised is kept, since Python does
      not roll anything back.
    - The event parameter bundle [params: dict] is a record with one
      optional field per recognised key; [None] is an absent key and
      subscripting it raises [KeyError]. *)

From Stdlib Require Import ZArith String Ascii Lia Sorted.
From stdpp Require Import base list.

Local Open Scope Z_scope.

(** ** Exceptions and the two monads *)

Inductive exn : Type :=
  | KeyError (key : string)
  | ValueError (msg : string)
  | IndexError.

Inductive outcome (A : Type) : Type :=
  | Return (a : A)
  | Raise (e : exn).
Arguments Return {A} a.
Arguments Raise {A} e.

Definition obind {A B} (m : outcome A) (k : A -> outcome B) : outcome B :=
  match m with
  | Return a => k a
  | Raise e => Raise e
  end.

Fixpoint omapM {A B} (f : A -> outcome B) (l : list A) : outcome (list B) :=
  match l with
  | [] => Return []
  | x :: l' => obind (f x) (fun y => obind (omapM f l') (fun ys => Return (y :: ys)))
  end.

(** Stateful statements over a state [S]. *)
Definition M (S A : Type) : Type := S -> outcome A * S.

Definition ret {S A} (a : A) : M S A := fun s => (Return a, s).
Definition raise {S A} (e : exn) : M S A := fun s => (Raise e, s).
Definition bind {S A B} (m : M S A) (k : A -> M S B) : M S B :=
  fun s => match m s with
           | (Return a, s') => k a s'
           | (Raise e, s') => (Raise e, s')
           end.
Definition lift {S A} (o : outcome A) : M S A := fun s => (o, s).
Definition gets {S A} (f : S -> A) : M S A := fun s => (Return (f s), s).
Definition modify {S} (f : S -> S) : M S unit := fun s => (Return tt, f s).

Declare Scope py_scope.
Delimit Scope py_scope with py.
Notation "'let*' x ':=' m 'in' k" := (bind m (fun x => k))
  (at level 10, x name, m at level 100, k at level 200) : py_scope.
Notation "m ';;' k" := (bind m (fun _ => k))
  (at level 100, k at level 200, right associativity) : py_scope.

(** [d[key]] on a dict whose entry for [key] is [field]. *)
Definition getitem {S A} (key : string) (field : option A) : M S A :=
  match field with
  | Some v => ret v
  | None => raise (KeyError key)
  end.

(** [for x in l: body x] *)
Fixpoint for_ {S A} (l : list A) (body : A -> M S unit) : M S unit :=
  match l with
  | [] => ret tt
  | x :: l' => bind (body x) (fun _ => for_ l' body)
  end.

(** ** Builtins: [str(int)] and zero-padded formatting *)

Module Py.

Definition digit_char (d : nat) : ascii := ascii_of_nat (48 + d).

(** Decimal digits of a natural number, most significant first. The fuel
    is only a termination measure: [digits] below always supplies enough
    of it. *)
Fixpoint digits_fuel (fuel n : nat) : list ascii :=
  match fuel with
  | O => []
  | S fuel' =>
      if (n <? 10)%nat then [digit_char n]
      else digits_fuel fuel' (n / 10)%nat ++ [digit_char (n mod 10)%nat]
  end.

Definition digits (n : nat) : list ascii := digits_fuel (S n) n.

(** [str(z)] for an [int]. *)
Definition str (z : Z) : string :=
  string_of_list_ascii
    ((if z <? 0 then ["-"%char] else []) ++ digits (Z.abs_nat z)).

(** ['{:0W}'.format(z)]: the [0] flag pads with zeros after the sign up to
    the minimum width [W]; a longer number is not truncated. *)
Definition format_zero_padded (width : nat) (z : Z) : string :=
  let sign := if z <? 0 then ["-"%char] else [] in
  let ds := digits (Z.abs_nat z) in
  string_of_list_ascii
    (sign ++ replicate (width - length sign - length ds)%nat "0"%char ++ ds).

(** [int(s)] restricted to what is needed to read a digit string back. *)
Definition digit_value (c : ascii) : nat := (nat_of_ascii c - 48)%nat.
Definition value_of_digits (l : list ascii) : nat :=
  fold_left (fun acc c => (10 * acc + digit_value c)%nat) l O.

Definition is_digit (c : ascii) : bool :=
  ((48 <=? nat_of_ascii c) && (nat_of_ascii c <=? 57))%nat.

End Py.

(** ** [os.path] on POSIX ([posixpath])

    [os.path] belongs to the Python standard library. The functions the
    callbacks call, and the ones those call in turn, are embedded after
    [Lib/posixpath.py] and [Lib/genericpath.py] of Python 3.5 to 3.12.
    [os.getcwd()] is the argument [cwd]. *)

Module posixpath.

Local Open Scope string_scope.

(** [s.split('/')] *)
Fixpoint split (s : string) : list string :=
  match s with
  | EmptyString => [EmptyString]
  | String c s' =>
      if Ascii.eqb c "/" then EmptyString :: split s'
      else match split s' with
           | x :: xs => String c x :: xs
           | [] => [String c EmptyString]
           end
  end.

(** ['/'.join(l)] *)
Definition join_sep (l : list string) : string := String.concat "/" l.

(** [p.startswith('/')], also written [p[:1] == sep]. *)
Definition isabs (p : string) : bool :=
  match p with
  | String c _ => Ascii.eqb c "/"
  | EmptyString => false
  end.

(** [p.endswith('/')] *)
Fixpoint endswith_sep (p : string) : bool :=
  match p with
  | EmptyString => false
  | String c EmptyString => Ascii.eqb c "/"
  | String _ p' => endswith_sep p'
  end.

(** The order of Python on lists of [str]: lexicographic. *)
Fixpoint list_compare (a b : list string) : comparison :=
  match a, b with
  | [], [] => Eq
  | [], _ :: _ => Lt
  | _ :: _, [] => Gt
  | x :: a', y :: b' =>
      match String.compare x y with
      | Eq => list_compare a' b'
      | c => c
      end
  end.

Definition list_ltb (a b : list string) : bool :=
  match list_compare a b with Lt => true | _ => false end.

(** [min(x :: l)] and [max(x :: l)]: the first extremal item is kept. *)
Definition py_min (x : list string) (l : list (list string)) : list string :=
  fold_left (fun m y => if list_ltb y m then y else m) l x.
Definition py_max (x : list string) (l : list (list string)) : list string :=
  fold_left (fun m y => if list_ltb m y then y else m) l x.

(** The loop shared by [commonpath] and [commonprefix]:
<<
    for i, c in enumerate(s1):
        if c != s2[i]:
            return s1[:i]
    return s1
>>
    [rest] is what [enumerate] still has to yield; [s2[i]] raises
    [IndexError] when [s2] is too short. *)
Fixpoint common_loop (s1 s2 : list string) (i : nat) (rest : list string)
  : outcome (list string) :=
  match rest with
  | [] => Return s1
  | c :: rest' =>
      match s2 !! i with
      | None => Raise IndexError
      | Some d =>
          if String.eqb c d then common_loop s1 s2 (S i) rest'
          else Return (take i s1)
      end
  end.

(** [c and c != curdir] *)
Definition proper_component (c : string) : bool :=
  negb (String.eqb c "") && negb (String.eqb c ".").

Definition components (p : string) : list string :=
  List.filter proper_component (split p).

(** [commonpath] once its argument has been turned into a tuple, from
    [isinstance(paths[0], bytes)] on: [paths[0]] raises [IndexError] on the
    empty tuple. *)
Definition commonpath_tuple (paths : list string) : outcome string :=
  match paths with
  | [] => Raise IndexError
  | p :: ps =>
      (* [isabs, = set(p[:1] == sep for p in paths)] *)
      if forallb (fun q => Bool.eqb (isabs q) (isabs p)) ps then
        let s1 := py_min (components p) (map components ps) in
        let s2 := py_max (components p) (map components ps) in
        obind (common_loop s1 s2 0 s1) (fun common =>
        let prefix := if isabs p then "/" else "" in
        Return (prefix ++ join_sep common))
      else Raise (ValueError "Can't mix absolute and relative paths")
  end.

(** [commonpath(paths)] for a list: [if not paths: raise ValueError(...)]
    comes first. *)
Definition commonpath (paths : list string) : outcome string :=
  match paths with
  | [] => Raise (ValueError "commonpath() arg is an empty sequence")
  | _ => commonpath_tuple paths
  end.

(** [commonpath(g)] for a generator [g] which yields [paths]: a generator
    is never false, so the test for emptiness lets it through. *)
Definition commonpath_of_generator (paths : list string) : outcome string :=
  commonpath_tuple paths.

(** [genericpath.commonprefix] on a list of lists. *)
Definition commonprefix (m : list (list string)) : outcome (list string) :=
  match m with
  | [] => Return []
  | x :: xs =>
      let s1 := py_min x xs in
      let s2 := py_max x xs in
      common_loop s1 s2 0 s1
  end.

(** [join(a, *p)] *)
Definition join_step (path b : string) : string :=
  if isabs b then b
  else if String.eqb path "" || endswith_sep path then path ++ b
  else path ++ "/" ++ b.
Definition join (a : string) (p : list string) : string :=
  fold_left join_step p a.

(** [path.startswith(sep * n)] *)
Fixpoint startswith_seps (n : nat) (path : string) : bool :=
  match n with
  | O => true
  | S n' =>
      match path with
      | String c path' => Ascii.eqb c "/" && startswith_seps n' path'
      | EmptyString => false
      end
  end.

(** POSIX allows one or two initial slashes and treats three or more as
    one. *)
Definition initial_slashes (path : string) : nat :=
  if isabs path then
    if startswith_seps 2 path && negb (startswith_seps 3 path) then 2 else 1
  else 0.

(** One turn of the loop of [normpath] over the components. *)
Definition norm_step (initial : nat) (new_comps : list string) (comp : string)
  : list string :=
  if String.eqb comp "" || String.eqb comp "." then new_comps
  else if negb (String.eqb comp "..")
          || (Nat.eqb initial 0 && match new_comps with [] => true | _ => false end)
          || match last new_comps with Some c => String.eqb c ".." | None => false end
       then new_comps ++ [comp]
       else removelast new_comps.

Definition normpath (path : string) : string :=
  if String.eqb path "" then "."
  else
    let initial := initial_slashes path in
    let comps := fold_left (norm_step initial) (split path) [] in
    let path := join_sep comps in
    let path := string_of_list_ascii (replicate initial "/"%char) ++ path in
    if String.eqb path "" then "." else path.

Definition abspath (cwd path : string) : string :=
  normpath (if isabs path then path else join cwd [path]).

(** [relpath(path, start)]; [start = None] stands for the default. *)
Definition relpath (cwd path : string) (start : option string)
  : outcome string :=
  if String.eqb path "" then Raise (ValueError "no path specified")
  else
    let start := match start with None => "." | Some s => s end in
    let nonempty := fun x => negb (String.eqb x "") in
    let start_list := List.filter nonempty (split (abspath cwd start)) in
    let path_list := List.filter nonempty (split (abspath cwd path)) in
    obind (commonprefix [start_list; path_list]) (fun cp =>
    let i := length cp in
    let rel_list :=
      (replicate (length start_list - i)%nat ".." ++ drop i path_list)%list in
    match rel_list with
    | [] => Return "."
    | a :: p => Return (join a p)
    end).

End posixpath.

(** ** The collaborators of the callbacks *)

(** A Python [float] is an IEEE 754 binary64 number, kept as its 64 bits;
    the callbacks only pass floats on. *)
Record float : Type := { float_bits : Z }.

(** A [numpy] array is opaque to this module: it is only handed on to the
    writer. *)
Record ndarray : Type := { nd_shape : list nat; nd_items : list float }.

(** [SimpleITK.Image], as far as the callbacks look at it. *)
Record Image : Type := {
  GetSize : list Z;
  GetDirection : list float;
  GetSpacing : list float
}.

(** What [params['raw_image']] may hold: an image, or something for which
    [isinstance(raw_image, sitk.Image)] is false. *)
Inductive pyobject : Type :=
  | ObjImage (img : Image)
  | ObjNone
  | ObjStr (s : string)
  | ObjArray (a : ndarray).

(** Modelled from the spec: the class [SubjectFile] lives in another module
    of the package. It is a subject descriptor owning named sequence files
    and optionally named ground-truth files; [get_sequences()] and
    [get_gts()] return dicts from names to paths, kept here in insertion
    order, and [get_gts()] may be [None]. *)
Record SubjectFile : Type := {
  subject_name : string;
  get_sequences : list (string * string);
  get_gts : option (list (string * string))
}.

(** [list(d.values())] *)
Definition values (d : list (string * string)) : list string := map snd d.

(** Modelled from the spec: [miapy.data.indexexpression.IndexExpression] is
    an address made of positions on one or several axes.
    [IndexExpression(i)] addresses position [i] on axis 0 and
    [IndexExpression(indexing=[i, j], axis=(0, 1))] the cell [(i, j)]. *)
Record IndexExpression : Type := { indexing : list Z; axis : list nat }.

Definition IndexExpression1 (i : Z) : IndexExpression :=
  {| indexing := [i]; axis := [0%nat] |}.

(** Element types handed to the writer: the builtin [str], [np.uint8],
    [np.float] (the alias of the builtin [float] which NumPy offered up to
    version 1.23) and the literal ['str']. *)
Inductive dtype : Type :=
  | builtin_str
  | np_uint8
  | np_float
  | dtype_named (name : string).

Inductive value : Type :=
  | VArray (a : ndarray)
  | VStr (s : string)
  | VStrList (l : list string)
  | VInts (t : list Z)
  | VFloats (t : list float).

(** Modelled from the spec: [Writer] is the abstract key-addressed store of
    the sibling module [writer]; it offers [reserve(key, shape, dtype)],
    [fill(key, value, index_expression)] and [write(key, value, dtype)].
    The callbacks never read it back, so a writer is the sequence of calls
    it has received, oldest first. *)
Inductive call : Type :=
  | Reserve (key : string) (shape : list nat) (dt : dtype)
  | Fill (key : string) (v : value) (ie : IndexExpression)
  | Write (key : string) (v : value) (dt : option dtype).

Definition Writer : Type := list call.

(** The event parameter bundle. *)
Record params : Type := {
  p_subject_files : option (list SubjectFile);
  p_subject_index : option Z;
  p_subject : option string;
  p_images : option ndarray;
  p_labels : option ndarray;
  p_has_gt : option bool;
  p_raw_image : option pyobject;
  p_file : option string;
  p_sequence_index : option Z;
  p_gt_index : option Z;
  p_sequence_names : option (list string);
  p_gt_names : option (list string)
}.

Definition empty_params : params :=
  {| p_subject_files := None; p_subject_index := None; p_subject := None;
     p_images := None; p_labels := None; p_has_gt := None;
     p_raw_image := None; p_file := None; p_sequence_index := None;
     p_gt_index := None; p_sequence_names := None; p_gt_names := None |}.

(** ** The callback interface *)

Inductive hook : Type :=
  | OnStart | OnEnd | OnSubjectStart | OnSubjectEnd | OnGtFile | OnImageFile.

(** An object with the six hooks. [P] is whatever the driver passes as
    [params] and [S] the part of the heap the object can reach; as [S] is
    arbitrary, [P] may as well be a reference into it. *)
Record callback (P S : Type) : Type := {
  cb_on_start : P -> M S unit;
  cb_on_end : P -> M S unit;
  cb_on_subject_start : P -> M S unit;
  cb_on_subject_end : P -> M S unit;
  cb_on_gt_file : P -> M S unit;
  cb_on_image_file : P -> M S unit
}.
Arguments cb_on_start {P S} _ _ _.
Arguments cb_on_end {P S} _ _ _.
Arguments cb_on_subject_start {P S} _ _ _.
Arguments cb_on_subject_end {P S} _ _ _.
Arguments cb_on_gt_file {P S} _ _ _.
Arguments cb_on_image_file {P S} _ _ _.

(** [getattr(c, h)(params)] *)
Definition invoke {P S} (h : hook) (c : callback P S) : P -> M S unit :=
  match h with
  | OnStart => cb_on_start c
  | OnEnd => cb_on_end c
  | OnSubjectStart => cb_on_subject_start c
  | OnSubjectEnd => cb_on_subject_end c
  | OnGtFile => cb_on_gt_file c
  | OnImageFile => cb_on_image_file c
  end.

(** *** class Callback *)
Module Callback.
Section Hooks.
Context {P S : Type}.

Definition on_start (params : P) : M S unit := ret tt.
Definition on_end (params : P) : M S unit := ret tt.
Definition on_subject_start (params : P) : M S unit := ret tt.
Definition on_subject_end (params : P) : M S unit := ret tt.
Definition on_gt_file (params : P) : M S unit := ret tt.
Definition on_image_file (params : P) : M S unit := ret tt.

Definition object : callback P S :=
  {| cb_on_start := on_start;
     cb_on_end := on_end;
     cb_on_subject_start := on_subject_start;
     cb_on_subject_end := on_subject_end;
     cb_on_gt_file := on_gt_file;
     cb_on_image_file := on_image_file |}.
End Hooks.
End Callback.

(** *** class ComposeCallback(Callback) *)
Module ComposeCallback.
Section Hooks.
Context {P S : Type}.
Variable callbacks : list (callback P S).

Definition on_start (params : P) : M S unit :=
  for_ callbacks (fun c => cb_on_start c params).
Definition on_end (params : P) : M S unit :=
  for_ callbacks (fun c => cb_on_end c params).
Definition on_subject_start (params : P) : M S unit :=
  for_ callbacks (fun c => cb_on_subject_start c params).
Definition on_subject_end (params : P) : M S unit :=
  for_ callbacks (fun c => cb_on_subject_end c params).
Definition on_gt_file (params : P) : M S unit :=
  for_ callbacks (fun c => cb_on_gt_file c params).
Definition on_image_file (params : P) : M S unit :=
  for_ callbacks (fun c => cb_on_image_file c params).

Definition object : callback P S :=
  {| cb_on_start := on_start;
     cb_on_end := on_end;
     cb_on_subject_start := on_subject_start;
     cb_on_subject_end := on_subject_end;
     cb_on_gt_file := on_gt_file;
     cb_on_image_file := on_image_file |}.
End Hooks.
End ComposeCallback.

(** *** class WriteDataCallback(Callback) *)
Module WriteDataCallback.
Local Open Scope string_scope.
Local Open Scope py_scope.

Definition SEQ_PATH : string := "data/sequences".
Definition GT_PATH : string := "data/gts".

Record self : Type := { writer : Writer }.

Definition __init__ (writer : Writer) : self := {| writer := writer |}.

Definition writer_write (key : string) (v : value) : M self unit :=
  modify (fun s => {| writer := (writer s ++ [Write key v None])%list |}).

(** Lines 73 and 74: ['{{:0{}}}'.format(max_digits)] is the template
    ['{:0W}'] with [W] the decimal numeral of [max_digits]. *)
Definition index_str (subject_files : list SubjectFile) (subject_index : Z)
  : string :=
  let max_digits := String.length (Py.str (Z.of_nat (length subject_files))) in
  Py.format_zero_padded max_digits subject_index.

Definition on_subject_end (params : params) : M self unit :=
  let* subject_files := getitem "subject_files" (p_subject_files params) in
  let* subject_index := getitem "subject_index" (p_subject_index params) in
  let index_str := index_str subject_files subject_index in
  let* np_images := getitem "images" (p_images params) in
  writer_write (SEQ_PATH ++ "/" ++ index_str) (VArray np_images) ;;
  let* has_gt := getitem "has_gt" (p_has_gt params) in
  if has_gt : bool then
    let* np_gts := getitem "labels" (p_labels params) in
    writer_write (GT_PATH ++ "/" ++ index_str) (VArray np_gts)
  else ret tt.

Definition object : callback params self :=
  {| cb_on_start := Callback.on_start;
     cb_on_end := Callback.on_end;
     cb_on_subject_start := Callback.on_subject_start;
     cb_on_subject_end := on_subject_end;
     cb_on_gt_file := Callback.on_gt_file;
     cb_on_image_file := Callback.on_image_file |}.
End WriteDataCallback.

(** *** class WriteSubjectCallback(Callback) *)
Module WriteSubjectCallback.
Local Open Scope string_scope.
Local Open Scope py_scope.

Definition SUBJECT : string := "meta/subjects".

Record self : Type := { writer : Writer }.

Definition __init__ (writer : Writer) : self := {| writer := writer |}.

Definition emit (c : call) : M self unit :=
  modify (fun s => {| writer := (writer s ++ [c])%list |}).

Definition on_start (params : params) : M self unit :=
  let* subject_files := getitem "subject_files" (p_subject_files params) in
  let subject_count := length subject_files in
  emit (Reserve SUBJECT [subject_count] builtin_str).

Definition on_subject_start (params : params) : M self unit :=
  let* subject := getitem "subject" (p_subject params) in
  let* subject_index := getitem "subject_index" (p_subject_index params) in
  emit (Fill SUBJECT (VStr subject) (IndexExpression1 subject_index)).

Definition object : callback params self :=
  {| cb_on_start := on_start;
     cb_on_end := Callback.on_end;
     cb_on_subject_start := on_subject_start;
     cb_on_subject_end := Callback.on_subject_end;
     cb_on_gt_file := Callback.on_gt_file;
     cb_on_image_file := Callback.on_image_file |}.
End WriteSubjectCallback.

(** *** class WriteImageInformationCallback(Callback) *)
Module WriteImageInformationCallback.
Local Open Scope string_scope.
Local Open Scope py_scope.

Definition SHAPE : string := "meta/shapes".
Definition DIRECTION : string := "meta/directions".
Definition SPACING : string := "meta/spacing".

Record self : Type := { writer : Writer; prev_subject_index : option Z }.

Definition __init__ (writer : Writer) : self :=
  {| writer := writer; prev_subject_index := None |}.

Definition emit (c : call) : M self unit :=
  modify (fun s => {| writer := (writer s ++ [c])%list;
                      prev_subject_index := prev_subject_index s |}).

Definition set_prev_subject_index (i : Z) : M self unit :=
  modify (fun s => {| writer := writer s; prev_subject_index := Some i |}).

(** [self.prev_subject_index == subject_index], the left side being
    [None] or an [int]. *)
Definition prev_eq (prev : option Z) (subject_index : Z) : bool :=
  match prev with
  | Some j => (j =? subject_index)%Z
  | None => false
  end.

Definition type_error_message : string :=
  "'raw_image' must be of type 'Image'".

Definition on_start (params : params) : M self unit :=
  let* subject_files := getitem "subject_files" (p_subject_files params) in
  let subject_count := length subject_files in
  emit (Reserve SHAPE [subject_count; 3%nat] np_uint8) ;;
  emit (Reserve DIRECTION [subject_count; 9%nat] np_float) ;;
  emit (Reserve SPACING [subject_count; 3%nat] np_float).

Definition on_image_file (params : params) : M self unit :=
  let* subject_index := getitem "subject_index" (p_subject_index params) in
  let* prev := gets prev_subject_index in
  if prev_eq prev subject_index then ret tt
  else
    let* raw_image := getitem "raw_image" (p_raw_image params) in
    match raw_image with
    | ObjImage raw_image =>
        emit (Fill SHAPE (VInts (GetSize raw_image))
                (IndexExpression1 subject_index)) ;;
        emit (Fill DIRECTION (VFloats (GetDirection raw_image))
                (IndexExpression1 subject_index)) ;;
        emit (Fill SPACING (VFloats (GetSpacing raw_image))
                (IndexExpression1 subject_index)) ;;
        set_prev_subject_index subject_index
    | _ => raise (ValueError type_error_message)
    end.

Definition object : callback params self :=
  {| cb_on_start := on_start;
     cb_on_end := Callback.on_end;
     cb_on_subject_start := Callback.on_subject_start;
     cb_on_subject_end := Callback.on_subject_end;
     cb_on_gt_file := Callback.on_gt_file;
     cb_on_image_file := on_image_file |}.
End WriteImageInformationCallback.

(** *** class WriteNamesCallback(Callback) *)
Module WriteNamesCallback.
Local Open Scope string_scope.
Local Open Scope py_scope.

Definition SEQ_NAMES : string := "meta/sequence_names".
Definition GT_NAMES : string := "meta/gt_names".

Record self : Type := { writer : Writer }.

Definition __init__ (writer : Writer) : self := {| writer := writer |}.

Definition emit (c : call) : M self unit :=
  modify (fun s => {| writer := (writer s ++ [c])%list |}).

Definition on_start (params : params) : M self unit :=
  let* sequence_names := getitem "sequence_names" (p_sequence_names params) in
  emit (Write SEQ_NAMES (VStrList sequence_names) (Some (dtype_named "str"))) ;;
  let* has_gt := getitem "has_gt" (p_has_gt params) in
  if has_gt : bool then
    let* gt_names := getitem "gt_names" (p_gt_names params) in
    emit (Write GT_NAMES (VStrList gt_names) (Some (dtype_named "str")))
  else ret tt.

Definition object : callback params self :=
  {| cb_on_start := on_start;
     cb_on_end := Callback.on_end;
     cb_on_subject_start := Callback.on_subject_start;
     cb_on_subject_end := Callback.on_subject_end;
     cb_on_gt_file := Callback.on_gt_file;
     cb_on_image_file := Callback.on_image_file |}.
End WriteNamesCallback.

(** *** class WriteFilesCallback(Callback) *)
Module WriteFilesCallback.
Local Open Scope string_scope.
Local Open Scope py_scope.

Definition SEQ_FILES : string := "meta/sequence_files".
Definition GT_FILES : string := "meta/gt_files".
Definition FILE_ROOT : string := "meta/file_root".

Record self : Type := { writer : Writer; file_root : option string }.

Definition __init__ (writer : Writer) : self :=
  {| writer := writer; file_root := None |}.

Definition emit (c : call) : M self unit :=
  modify (fun s => {| writer := (writer s ++ [c])%list; file_root := file_root s |}).

Definition set_file_root (root : string) : M self unit :=
  modify (fun s => {| writer := writer s; file_root := Some root |}).

Definition get_subject_common (subject_file : SubjectFile) : outcome string :=
  let all_files := values (get_sequences subject_file) in
  let all_files :=
    match get_gts subject_file with
    | Some gts => (all_files ++ values gts)%list
    | None => all_files
    end in
  posixpath.commonpath all_files.

(** The generator handed to [commonpath] is consumed first, left to
    right; the first subject whose own [commonpath] raises ends it. *)
Definition _get_common_path (subject_files : list SubjectFile) : outcome string :=
  obind (omapM get_subject_common subject_files)
    posixpath.commonpath_of_generator.

Definition IndexExpression2 (i j : Z) : IndexExpression :=
  {| indexing := [i; j]; axis := [0%nat; 1%nat] |}.

Section Hooks.
(** [os.getcwd()], which [os.path.relpath] consults for relative paths. *)
Variable cwd : string.

Definition on_start (params : params) : M self unit :=
  let* subject_files := getitem "subject_files" (p_subject_files params) in
  let* root := lift (_get_common_path subject_files) in
  set_file_root root ;;
  emit (Write FILE_ROOT (VStr root) (Some (dtype_named "str"))) ;;
  let* sequence_names := getitem "sequence_names" (p_sequence_names params) in
  emit (Reserve SEQ_FILES [length subject_files; length sequence_names]
          (dtype_named "str")) ;;
  let* has_gt := getitem "has_gt" (p_has_gt params) in
  if has_gt : bool then
    let* gt_names := getitem "gt_names" (p_gt_names params) in
    emit (Reserve GT_FILES [length subject_files; length gt_names]
            (dtype_named "str"))
  else ret tt.

Definition on_image_file (params : params) : M self unit :=
  let* sequence_file := getitem "file" (p_file params) in
  let* subject_index := getitem "subject_index" (p_subject_index params) in
  let* sequence_index := getitem "sequence_index" (p_sequence_index params) in
  let* root := gets file_root in
  let* relative_path := lift (posixpath.relpath cwd sequence_file root) in
  let index_expr := IndexExpression2 subject_index sequence_index in
  emit (Fill SEQ_FILES (VStr relative_path) index_expr).

Definition on_gt_file (params : params) : M self unit :=
  let* gt_file := getitem "file" (p_file params) in
  let* subject_index := getitem "subject_index" (p_subject_index params) in
  let* gt_index := getitem "gt_index" (p_gt_index params) in
  let* root := gets file_root in
  let* relative_path := lift (posixpath.relpath cwd gt_file root) in
  let index_expr := IndexExpression2 subject_index gt_index in
  emit (Fill GT_FILES (VStr relative_path) index_expr).

Definition object : callback params self :=
  {| cb_on_start := on_start;
     cb_on_end := Callback.on_end;
     cb_on_subject_start := Callback.on_subject_start;
     cb_on_subject_end := Callback.on_subject_end;
     cb_on_gt_file := on_gt_file;
     cb_on_image_file := on_image_file |}.
End Hooks.
End WriteFilesCallback.

(** ** The driver and its ordering contract *)

(** The driver fires events one after the other; an exception ends the
    run. *)
Definition event : Type := hook * params.

Definition run {S} (c : callback params S) (events : list event) : M S unit :=
  for_ events (fun e => invoke (fst e) c (snd e)).

Definition is_on_start (h : hook) : bool :=
  match h with OnStart => true | _ => false end.
Definition is_on_gt_file (h : hook) : bool :=
  match h with OnGtFile => true | _ => false end.

Definition len {A} (l : option (list A)) : nat :=
  match l with Some l => length l | None => O end.

(** [0 <= i < n] for an index the bundle carries. *)
Definition index_below (n : nat) (i : option Z) : bool :=
  match i with
  | Some i => (0 <=? i) && (i <? Z.of_nat n)
  | None => true
  end.

(** The ordering contract of the driver for the events which follow
    [on_start(start)]: no second [on_start], and every index an event
    carries is below the count announced by [start]. *)
Definition event_in_range (start : params) (e : event) : bool :=
  negb (is_on_start (fst e))
  && index_below (len (p_subject_files start)) (p_subject_index (snd e))
  && index_below (len (p_sequence_names start)) (p_sequence_index (snd e))
  && index_below (len (p_gt_names start)) (p_gt_index (snd e)).

Definition driver_contract (start : params) (events : list event) : bool :=
  forallb (event_in_range start) events.

(** The same contract for a driver which moreover fires [on_gt_file] only
    when it announced ground truth with [has_gt]. *)
Definition gt_announced (start : params) (e : event) : bool :=
  negb (is_on_gt_file (fst e))
  || match p_has_gt start with Some true => true | _ => false end.

Definition driver_contract_gt (start : params) (events : list event) : bool :=
  forallb (fun e => event_in_range start e && gt_announced start e) events.

(** ** The discipline of reserve and fill *)

(** An index expression stays within a reserved shape. *)
Fixpoint positions_in_bounds (idx : list Z) (ax : list nat) (shape : list nat)
  : bool :=
  match idx, ax with
  | [], [] => true
  | i :: idx', a :: ax' =>
      match shape !! a with
      | Some d => (0 <=? i) && (i <? Z.of_nat d)
      | None => false
      end && positions_in_bounds idx' ax' shape
  | _, _ => false
  end.

Definition in_bounds (ie : IndexExpression) (shape : list nat) : bool :=
  positions_in_bounds (indexing ie) (axis ie) shape.

(** The discipline of [reserve] and [fill] on the calls [own] a callback
    has issued, the first [started] of them during [on_start]. A [reserve]
    is issued during [on_start] and is the only [reserve] of its key. A
    [fill] comes after [on_start], its key was reserved during [on_start],
    and it stays within the reserved shape. *)
Definition reserve_discipline (started : nat) (own : list call) : Prop :=
  (forall j key shape dt,
      own !! j = Some (Reserve key shape dt) ->
      (j < started)%nat
      /\ forall j' shape' dt',
           own !! j' = Some (Reserve key shape' dt') -> j' = j)
  /\ (forall i key v ie,
        own !! i = Some (Fill key v ie) ->
        (started <= i)%nat
        /\ exists j shape dt,
             (j < started)%nat
             /\ own !! j = Some (Reserve key shape dt)
             /\ in_bounds ie shape = true).

(** No key is reserved twice among [reserved]. *)
Definition unique_reserves (reserved : list call) : Prop :=
  forall j j' key shape dt shape' dt',
    reserved !! j = Some (Reserve key shape dt) ->
    reserved !! j' = Some (Reserve key shape' dt') ->
    j' = j.

(** The calls a callback has added to a writer which held [w0]. *)
Definition own_calls (w0 w : Writer) : list call := drop (length w0) w.

Definition is_fill (c : call) : bool :=
  match c with Fill _ _ _ => true | _ => false end.

(** A [fill] which the reserves among [reserved] allow: its key is
    reserved there and the index expression fits the reserved shape.
    Nothing but such fills is allowed after [on_start]. *)
Definition allowed_fill (reserved : list call) (c : call) : Prop :=
  match c with
  | Fill key v ie =>
      exists j shape dt,
        reserved !! j = Some (Reserve key shape dt)
        /\ in_bounds ie shape = true
  | _ => False
  end.

(** The three reserves of [WriteImageInformationCallback.on_start]. *)
Definition image_information_reserves (subject_count : nat) : list call :=
  [ Reserve WriteImageInformationCallback.SHAPE [subject_count; 3%nat] np_uint8;
    Reserve WriteImageInformationCallback.DIRECTION [subject_count; 9%nat] np_float;
    Reserve WriteImageInformationCallback.SPACING [subject_count; 3%nat] np_float ].

(** The calls of [WriteFilesCallback.on_start] when it returns: the root,
    the reserve for the sequence files and, if ground truth was announced
    with [gt_count] names, the reserve for the ground-truth files. *)
Definition files_reserves (root : string) (subject_count sequence_count : nat)
    (gt_count : option nat) : list call :=
  [ Write WriteFilesCallback.FILE_ROOT (VStr root) (Some (dtype_named "str"));
    Reserve WriteFilesCallback.SEQ_FILES [subject_count; sequence_count]
      (dtype_named "str") ]
  ++ match gt_count with
     | Some n => [Reserve WriteFilesCallback.GT_FILES [subject_count; n]
                    (dtype_named "str")]
     | None => []
     end.

Definition announced_gt_count (start : params) : option nat :=
  match p_has_gt start with
  | Some true => Some (len (p_gt_names start))
  | _ => None
  end.

(** The three metadata fills for the row of subject [i]. *)
Definition three_fills (i : Z) (img : Image) : list call :=
  [ Fill WriteImageInformationCallback.SHAPE (VInts (GetSize img))
      (IndexExpression1 i);
    Fill WriteImageInformationCallback.DIRECTION (VFloats (GetDirection img))
      (IndexExpression1 i);
    Fill WriteImageInformationCallback.SPACING (VFloats (GetSpacing img))
      (IndexExpression1 i) ].

(** What an element of dtype [np.uint8] keeps of an [int]. *)
Definition uint8_of_int (z : Z) : Z := Z.land z 255.

Definition is_floating (dt : dtype) : bool :=
  match dt with np_float => true | _ => false end.

(** ** Observing the children of ComposeCallback *)

(** A child which notes each invocation it receives before running. *)
Definition invocation (P : Type) : Type := nat * hook * P.

Definition spy_hook {P S} (k : nat) (h : hook) (c : callback P S) (params : P)
  : M (S * list (invocation P)) unit :=
  fun st =>
    let (r, s') := invoke h c params (fst st) in
    (r, (s', snd st ++ [(k, h, params)])).

Definition spy {P S} (k : nat) (c : callback P S)
  : callback P (S * list (invocation P)) :=
  {| cb_on_start := spy_hook k OnStart c;
     cb_on_end := spy_hook k OnEnd c;
     cb_on_subject_start := spy_hook k OnSubjectStart c;
     cb_on_subject_end := spy_hook k OnSubjectEnd c;
     cb_on_gt_file := spy_hook k OnGtFile c;
     cb_on_image_file := spy_hook k OnImageFile c |}.

(** The children numbered by their position in the list, from [k] on. *)
Fixpoint spies {P St} (k : nat) (cs : list (callback P St))
  : list (callback P (St * list (invocation P))) :=
  match cs with
  | [] => []
  | c :: cs' => spy k c :: spies (S k) cs'
  end.

(** The children [cs] run in list order from [s], each returning normally,
    and leave [s']. *)
Inductive all_return {P S} (h : hook) (params : P)
  : list (callback P S) -> S -> S -> Prop :=
  | all_return_nil s : all_return h params [] s s
  | all_return_cons c cs s s1 s2 :
      invoke h c params s = (Return tt, s1) ->
      all_return h params cs s1 s2 ->
      all_return h params (c :: cs) s s2.

(** ** Paths as lists of components *)

Definition files_of (sf : SubjectFile) : list string :=
  values (get_sequences sf)
  ++ match get_gts sf with Some gts => values gts | None => [] end.

Definition all_files (subject_files : list SubjectFile) : list string :=
  concat (map files_of subject_files).

(** Paths as lists of components. [a] is an ancestor of [p], or [p]
    itself, when both are absolute or both relative and the components of
    [a] begin those of [p]. *)
Definition is_ancestor (a p : string) : Prop :=
  posixpath.isabs a = posixpath.isabs p
  /\ posixpath.components a `prefix_of` posixpath.components p.

Definition longest_common_ancestor (root : string) (files : list string) : Prop :=
  (forall f, f ∈ files -> is_ancestor root f)
  /\ (forall a, (forall f, f ∈ files -> is_ancestor a f) -> is_ancestor a root).

(** The path written with single separators and nothing else. *)
Definition render (absolute : bool) (comps : list string) : string :=
  ((if absolute then "/" else "") ++ posixpath.join_sep comps)%string.

Definition canonical (p : string) : Prop :=
  p = render (posixpath.isabs p) (posixpath.components p).

(** A component holds no separator. *)
Fixpoint no_slash (s : string) : bool :=
  match s with
  | EmptyString => true
  | String c s' => negb (Ascii.eqb c "/") && no_slash s'
  end.

(** What [commonpath] keeps of a path: a component without separator which
    is neither empty nor [.]. *)
Definition good_component (c : string) : Prop :=
  no_slash c = true /\ posixpath.proper_component c = true.

(** [r] is the longest list of components which begins the components of
    every file of [files]. *)
Definition greatest_common_prefix (r : list string) (files : list string) : Prop :=
  (forall f, f ∈ files -> r `prefix_of` posixpath.components f)
  /\ (forall q, (forall f, f ∈ files -> q `prefix_of` posixpath.components f) ->
                q `prefix_of` r).

(** [a <= b] in the order of Python on lists of [str]. *)
Definition list_le (a b : list string) : Prop :=
  posixpath.list_compare a b <> Gt.

(** [[x for x in p.split(sep) if x]], as [relpath] computes it. *)
Definition path_items (p : string) : list string :=
  List.filter (fun x => negb (String.eqb x "")) (posixpath.split p).

(** ** Concrete inputs *)

Definition example_subject : SubjectFile :=
  {| subject_name := "Subject_1";
     get_sequences := [("T1", "/a/b/c.txt"); ("T2", "/a/b/d.txt")]%string;
     get_gts := None |}.

Definition example_array : ndarray := {| nd_shape := [0%nat]; nd_items := [] |}.

Definition example_subject_end : params :=
  {| p_subject_files := Some (replicate 12 example_subject);
     p_subject_index := Some 7; p_subject := None;
     p_images := Some example_array; p_labels := Some example_array;
     p_has_gt := Some true;
     p_raw_image := None; p_file := None; p_sequence_index := None;
     p_gt_index := None; p_sequence_names := None; p_gt_names := None |}.

Definition event_params (file : option string) (subject : option string)
    (subject_index sequence_index gt_index : option Z) : params :=
  {| p_subject_files := None; p_subject_index := subject_index;
     p_subject := subject; p_images := None; p_labels := None;
     p_has_gt := None; p_raw_image := None; p_file := file;
     p_sequence_index := sequence_index; p_gt_index := gt_index;
     p_sequence_names := None; p_gt_names := None |}.

Definition start_params (subject_files : list SubjectFile)
    (sequence_names : list string) (has_gt : bool) (gt_names : list string)
  : params :=
  {| p_subject_files := Some subject_files; p_subject_index := None;
     p_subject := None; p_images := None; p_labels := None;
     p_has_gt := Some has_gt; p_raw_image := None; p_file := None;
     p_sequence_index := None; p_gt_index := None;
     p_sequence_names := Some sequence_names; p_gt_names := Some gt_names |}.

(** One subject with two sequence files and one ground-truth file. *)
Definition example_subject_gt : SubjectFile :=
  {| subject_name := "Subject_1";
     get_sequences := [("T1", "/a/b/c.txt"); ("T2", "/a/b/d.txt")]%string;
     get_gts := Some [("GT", "/a/b/gt.txt")]%string |}.

Definition example_start : params :=
  start_params [example_subject_gt] ["T1"; "T2"]%string true ["GT"%string].

Definition example_events : list event :=
  [ (OnSubjectStart,
     event_params None (Some "Subject_1"%string) (Some 0) None None);
    (OnImageFile,
     event_params (Some "/a/b/c.txt"%string) None (Some 0) (Some 0) None);
    (OnImageFile,
     event_params (Some "/a/b/d.txt"%string) None (Some 0) (Some 1) None);
    (OnGtFile,
     event_params (Some "/a/b/gt.txt"%string) None (Some 0) None (Some 0));
    (OnSubjectEnd, event_params None None (Some 0) None None);
    (OnEnd, empty_params) ].

(** A start bundle which lists a ground-truth name and says [has_gt] is
    false, followed by a ground-truth file event. *)
Definition start_without_gt : params :=
  start_params [example_subject_gt] ["T1"; "T2"]%string false ["GT"%string].

Definition gt_file_event : event :=
  (OnGtFile,
   event_params (Some "/a/b/gt.txt"%string) None (Some 0) None (Some 0)).

(** One subject whose two sequence files are the file set of the
    example, and the events of the driver for it. *)
Definition example_files_start : params :=
  start_params [example_subject] ["T1"; "T2"]%string false [].

Definition example_files_events : list event :=
  [ (OnStart, example_files_start);
    (OnImageFile,
     event_params (Some "/a/b/c.txt"%string) None (Some 0) (Some 0) None);
    (OnImageFile,
     event_params (Some "/a/b/d.txt"%string) None (Some 0) (Some 1) None) ].

(** Two subjects with one sequence file each, on the same file set. *)
Definition example_two_subjects : list SubjectFile :=
  [ {| subject_name := "Subject_1";
       get_sequences := [("T1", "/a/b/c.txt")]%string; get_gts := None |};
    {| subject_name := "Subject_2";
       get_sequences := [("T1", "/a/b/d.txt")]%string; get_gts := None |} ].

(** A subject whose files mix an absolute and a relative path. *)
Definition mixed_subject : SubjectFile :=
  {| subject_name := "Subject_1";
     get_sequences := [("T1", "/a/b/c.txt"); ("T2", "b/d.txt")]%string;
     get_gts := None |}.

(** A subject with files followed by a subject without any. *)
Definition empty_subject : SubjectFile :=
  {| subject_name := "Subject_2"; get_sequences := []; get_gts := None |}.

(** A collection of one subject with one sequence file and no ground
    truth. *)
Definition single_file_subject : SubjectFile :=
  {| subject_name := "Subject_1";
     get_sequences := [("T1", "/data/s1/t1.nii")]%string;
     get_gts := None |}.

Definition single_file_start : params :=
  start_params [single_file_subject] ["T1"%string] false [].

Definition single_file_event : params :=
  event_params (Some "/data/s1/t1.nii"%string) None (Some 0) (Some 0) None.

(** The floats 1.0 and 0.0. *)
Definition float_one : float := {| float_bits := 0x3FF0000000000000 |}.
Definition float_zero : float := {| float_bits := 0 |}.

(** A loaded image and three [on_image_file] bundles: two for subject 0,
    then one for subject 1. *)
Definition example_image : Image :=
  {| GetSize := [181; 217; 181];
     GetDirection :=
       [ float_one; float_zero; float_zero;
         float_zero; float_one; float_zero;
         float_zero; float_zero; float_one ];
     GetSpacing := [float_one; float_one; float_one] |}.

Definition image_file_params (subject_index : Z) : params :=
  {| p_subject_files := None; p_subject_index := Some subject_index;
     p_subject := None; p_images := None; p_labels := None;
     p_has_gt := None; p_raw_image := Some (ObjImage example_image);
     p_file := None; p_sequence_index := None; p_gt_index := None;
     p_sequence_names := None; p_gt_names := None |}.

Definition example_image_calls : list params :=
  [image_file_params 0; image_file_params 0; image_file_params 1].

(** A start bundle as [WriteNamesCallback] needs it: names, and no subject
    files. *)
Definition example_names_start : params :=
  {| p_subject_files := None; p_subject_index := None; p_subject := None;
     p_images := None; p_labels := None; p_has_gt := Some true;
     p_raw_image := None; p_file := None; p_sequence_index := None;
     p_gt_index := None;
     p_sequence_names := Some ["T1"; "T2"]%string;
     p_gt_names := Some ["GT"%string] |}.

(** The subject index and the image an [on_image_file] bundle carries. *)
Definition image_of_call (p : params) : option (Z * Image) :=
  match p_subject_index p, p_raw_image p with
  | Some i, Some (ObjImage img) => Some (i, img)
  | _, _ => None
  end.

(** Of a list of indexed images, the first one of every subject index not
    among [seen]. *)
Fixpoint first_per_subject (seen : list Z) (l : list (Z * Image))
  : list (Z * Image) :=
  match l with
  | [] => []
  | q :: l' =>
      if bool_decide (fst q ∈ seen) then first_per_subject seen l'
      else q :: first_per_subject (fst q :: seen) l'
  end.

Definition fills_of (q : Z * Image) : list call := three_fills (fst q) (snd q).

(** The recorded index is the greatest index seen, and it is among the
    seen ones. *)
Definition recorded_is_latest (seen : list Z) (prev : option Z) : Prop :=
  match prev with
  | None => seen = []
  | Some m => m ∈ seen /\ forall x, x ∈ seen -> x <= m
  end.

(** No component of the list is [..]. *)
Definition dotdot_free (l : list string) : Prop :=
  Forall (fun c => String.eqb c ".." = false) l.

(** The components which [abspath] puts before those of a relative path:
    the normalised working directory. *)
Definition cwd_items (cwd : string) (p : string) : list string :=
  if posixpath.isabs p then []
  else fold_left (posixpath.norm_step 1) (posixpath.components cwd) [].

(** The key a call of the writer addresses. *)
Definition key_of (c : call) : string :=
  match c with
  | Reserve key _ _ | Fill key _ _ | Write key _ _ => key
  end.

(** The keys each metadata callback names in its class attributes. *)
Definition subject_keys : list string := [WriteSubjectCallback.SUBJECT].
Definition image_information_keys : list string :=
  [WriteImageInformationCallback.SHAPE;
   WriteImageInformationCallback.DIRECTION;
   WriteImageInformationCallback.SPACING].
Definition names_keys : list string :=
  [WriteNamesCallback.SEQ_NAMES; WriteNamesCallback.GT_NAMES].
Definition files_keys : list string :=
  [WriteFilesCallback.FILE_ROOT; WriteFilesCallback.SEQ_FILES;
   WriteFilesCallback.GT_FILES].

(** The keys of [WriteDataCallback]: one of its two paths, a separator and
    an index string. *)
Definition data_key (key : string) : Prop :=
  exists index_str : string,
    key = (WriteDataCallback.SEQ_PATH ++ "/" ++ index_str)%string
    \/ key = (WriteDataCallback.GT_PATH ++ "/" ++ index_str)%string.

(** The writer [w'] is the writer [w] with further calls at its end, each
    under a key of [keys]. *)
Definition appends_under (keys : string -> Prop) (w w' : Writer) : Prop :=
  exists own, w' = (w ++ own)%list /\ Forall (fun c => keys (key_of c)) own.

(** The fill of [WriteSubjectCallback] for an event, if it is an
    [on_subject_start] which carries a name and an index. *)
Definition subject_fill (e : event) : option call :=
  match fst e, p_subject (snd e), p_subject_index (snd e) with
  | OnSubjectStart, Some subject, Some i =>
      Some (Fill WriteSubjectCallback.SUBJECT (VStr subject) (IndexExpression1 i))
  | _, _, _ => None
  end.

(** An event [WriteSubjectCallback] can serve after [on_start]: not a
    second [on_start], and an [on_subject_start] carries name and index. *)
Definition subject_event_ok (e : event) : bool :=
  match fst e with
  | OnStart => false
  | OnSubjectStart =>
      match p_subject (snd e), p_subject_index (snd e) with
      | Some _, Some _ => true
      | _, _ => false
      end
  | _ => true
  end.

(** * Evaluation on concrete values *)

Example str_examples :
  Py.str 0 = "0"%string /\ Py.str 3 = "3"%string /\ Py.str 10 = "10"%string
  /\ Py.str 1234 = "1234"%string /\ Py.str (-42) = "-42"%string.
Proof. repeat split; reflexivity. Qed.

Example format_examples :
  Py.format_zero_padded 1 2 = "2"%string
  /\ Py.format_zero_padded 2 7 = "07"%string
  /\ Py.format_zero_padded 3 42 = "042"%string
  /\ Py.format_zero_padded 2 123 = "123"%string
  /\ Py.format_zero_padded 5 (-3) = "-0003"%string.
Proof. repeat split; reflexivity. Qed.

Example split_examples :
  posixpath.split "/a/b/c.txt" = [""; "a"; "b"; "c.txt"]%string
  /\ posixpath.split "" = [""%string]
  /\ posixpath.split "a//b/" = ["a"; ""; "b"; ""]%string.
Proof. repeat split; reflexivity. Qed.

Example commonpath_examples :
  posixpath.commonpath ["/a/b/c.txt"; "/a/b/d.txt"]%string = Return "/a/b"%string
  /\ posixpath.commonpath ["/usr/lib"; "/usr/local/lib"]%string = Return "/usr"%string
  /\ posixpath.commonpath ["a/./b//c"; "a/b/d"; "a/b"]%string = Return "a/b"%string
  /\ posixpath.commonpath ["/a"; "/b"]%string = Return "/"%string
  /\ posixpath.commonpath ["a"; "b"]%string = Return ""%string
  /\ posixpath.commonpath ["/a/b/c.txt"]%string = Return "/a/b/c.txt"%string.
Proof. repeat split; reflexivity. Qed.

Example normpath_examples :
  posixpath.normpath "/a/b/../c/./d//e" = "/a/c/d/e"%string
  /\ posixpath.normpath "//a" = "//a"%string
  /\ posixpath.normpath "///a/" = "/a"%string
  /\ posixpath.normpath "../../x" = "../../x"%string
  /\ posixpath.normpath "/../x" = "/x"%string
  /\ posixpath.normpath "a/.." = "."%string.
Proof. repeat split; reflexivity. Qed.

Example relpath_examples :
  forall cwd,
    posixpath.relpath cwd "/a/b/c.txt" (Some "/a/b"%string) = Return "c.txt"%string
    /\ posixpath.relpath cwd "/a/b/c.txt" (Some "/a/x/y"%string) = Return "../../b/c.txt"%string
    /\ posixpath.relpath cwd "/a/b" (Some "/a/b"%string) = Return "."%string
    /\ posixpath.relpath "/home/u" "data/t1.nii" (Some "data"%string) = Return "t1.nii"%string
    /\ posixpath.relpath cwd "" (Some "/a"%string) = Raise (ValueError "no path specified").
Proof. intros; repeat split; reflexivity. Qed.

(** * Properties *)

(** ** Callback and ComposeCallback *)

(** C8: on a plain [Callback], each of the six hooks returns normally and
    leaves the state as it was, whatever the bundle (the empty one
    included) and whatever the state. *)
Theorem Callback_hooks_do_nothing :
  forall (P St : Type) (h : hook) (params : P) (s : St),
    invoke h Callback.object params s = (Return tt, s)
    /\ invoke h Callback.object empty_params s = (Return tt, s).
Proof. intros P St h params s. destruct h; split; reflexivity. Qed.

(** Each hook of [ComposeCallback] is the loop over the children calling
    the hook of the same name. *)
Lemma ComposeCallback_invoke {P St} (cs : list (callback P St)) h params :
  invoke h (ComposeCallback.object cs) params
  = for_ cs (fun c => invoke h c params).
Proof. destruct h; reflexivity. Qed.

Lemma invoke_spy {P St} k h (c : callback P St) params :
  invoke h (spy k c) params = spy_hook k h c params.
Proof. destruct h; reflexivity. Qed.

Lemma for_spies {P St} (cs : list (callback P St)) h params :
  forall k s log,
  exists n r s',
    for_ cs (fun c => invoke h c params) s = (r, s')
    /\ for_ (spies k cs) (fun c => invoke h c params) (s, log)
       = (r, (s', log ++ map (fun i => (i, h, params)) (seq k n)))
    /\ match r with
       | Return _ => n = length cs /\ all_return h params cs s s'
       | Raise e =>
           exists pre c post s1,
             cs = pre ++ c :: post
             /\ n = S (length pre)
             /\ all_return h params pre s s1
             /\ invoke h c params s1 = (Raise e, s')
       end.
Proof.
  induction cs as [|c cs IH]; intros k s log.
  - exists O, (Return tt), s. cbn. rewrite app_nil_r.
    repeat split. constructor.
  - cbn [for_ spies]. unfold bind at 1 2.
    rewrite invoke_spy. unfold spy_hook. cbn [fst snd].
    destruct (invoke h c params s) as [[[]|e] s1] eqn:Hc.
    + destruct (IH (S k) s1 (log ++ [(k, h, params)])) as (n & r & s' & H1 & H2 & H3).
      exists (S n), r, s'. split; [exact H1|]. split.
      * rewrite H2. cbn [seq map]. by rewrite <- app_assoc.
      * destruct r as [u|e].
        -- destruct H3 as [-> Hall]. split; [done|].
           econstructor; eauto.
        -- destruct H3 as (pre & c' & post & s2 & -> & -> & Hall & Hraise).
           exists (c :: pre), c', post, s2. repeat split; try done.
           econstructor; eauto.
    + exists 1%nat, (Raise e), s1. repeat split.
      exists [], c, cs, s. repeat split; try done. constructor.
Qed.

(** C3: whatever the children and whichever of the six hooks, the hook of
    [ComposeCallback] calls that hook on the children in list order with
    the bundle it was given: the children numbered [0 .. n-1] note exactly
    the invocations [(0, h, params), ..., (n-1, h, params)]. When the hook
    returns, [n] is the number of children and each has returned in turn.
    When it raises [e], the children before position [n-1] have returned,
    the child at position [n-1] has raised [e], the state is the one that
    child left, and no later child has been invoked. *)
Theorem ComposeCallback_fans_out_in_order :
  forall (P St : Type) (cs : list (callback P St)) (h : hook) (params : P)
         (s : St) (log : list (invocation P)),
  exists n r s',
    invoke h (ComposeCallback.object cs) params s = (r, s')
    /\ invoke h (ComposeCallback.object (spies 0 cs)) params (s, log)
       = (r, (s', log ++ map (fun i => (i, h, params)) (seq 0 n)))
    /\ match r with
       | Return _ => n = length cs /\ all_return h params cs s s'
       | Raise e =>
           exists pre c post s1,
             cs = pre ++ c :: post
             /\ n = S (length pre)
             /\ all_return h params pre s s1
             /\ invoke h c params s1 = (Raise e, s')
       end.
Proof.
  intros P St cs h params s log.
  rewrite !ComposeCallback_invoke. apply for_spies.
Qed.

(** ** WriteDataCallback: what is written *)

(** C6: a call of [on_subject_end] whose bundle carries [subject_files],
    [subject_index], [images], [has_gt] and, when [has_gt] is true,
    [labels], returns normally and issues to the writer exactly: one
    [write] of the images array under [data/sequences/<index>], followed,
    if and only if [has_gt] is true, by one [write] of the labels array
    under [data/gts/<index>]. No [reserve], no [fill], no other key. *)
Theorem WriteDataCallback_on_subject_end_writes :
  forall (params : params) (s : WriteDataCallback.self)
         (subject_files : list SubjectFile) (subject_index : Z)
         (images labels : ndarray) (has_gt : bool),
    p_subject_files params = Some subject_files ->
    p_subject_index params = Some subject_index ->
    p_images params = Some images ->
    p_has_gt params = Some has_gt ->
    (has_gt = true -> p_labels params = Some labels) ->
    let index := WriteDataCallback.index_str subject_files subject_index in
    WriteDataCallback.on_subject_end params s
    = (Return tt,
       {| WriteDataCallback.writer :=
            WriteDataCallback.writer s
            ++ Write ("data/sequences/" ++ index)%string (VArray images) None
               :: (if has_gt
                   then [Write ("data/gts/" ++ index)%string (VArray labels) None]
                   else []) |}).
Proof.
  intros params s sfs i imgs lbls g Hsf Hi Himg Hg Hl.
  unfold WriteDataCallback.on_subject_end.
  rewrite Hsf, Hi, Himg, Hg. destruct g.
  - rewrite (Hl eq_refl). cbn. unfold WriteDataCallback.writer_write, modify.
    cbn. by rewrite <- app_assoc.
  - reflexivity.
Qed.

Lemma WriteDataCallback_on_subject_end_writes_witness :
  WriteDataCallback.on_subject_end example_subject_end
    (WriteDataCallback.__init__ [])
  = (Return tt,
     {| WriteDataCallback.writer :=
          [ Write "data/sequences/07" (VArray example_array) None;
            Write "data/gts/07" (VArray example_array) None ] |}).
Proof.
  apply (WriteDataCallback_on_subject_end_writes example_subject_end
           (WriteDataCallback.__init__ []) (replicate 12 example_subject) 7
           example_array example_array true);
    reflexivity.
Defined.

(** ** WriteImageInformationCallback *)

Ltac run_hook :=
  unfold bind, ret, raise, gets, lift, modify, getitem; cbn.

Lemma prev_eq_true prev i :
  WriteImageInformationCallback.prev_eq prev i = true <-> prev = Some i.
Proof.
  destruct prev as [j|]; cbn; [|by split].
  rewrite Z.eqb_eq. split; congruence.
Qed.

Lemma prev_eq_false prev i :
  WriteImageInformationCallback.prev_eq prev i = false <-> prev <> Some i.
Proof.
  rewrite <- prev_eq_true.
  destruct (WriteImageInformationCallback.prev_eq prev i); split; congruence.
Qed.

Lemma WriteImageInformationCallback_on_start_eq params s :
  WriteImageInformationCallback.on_start params s
  = match p_subject_files params with
    | None => (Raise (KeyError "subject_files"), s)
    | Some subject_files =>
        (Return tt,
         {| WriteImageInformationCallback.writer :=
              WriteImageInformationCallback.writer s
              ++ image_information_reserves (length subject_files);
            WriteImageInformationCallback.prev_subject_index :=
              WriteImageInformationCallback.prev_subject_index s |})
    end.
Proof.
  unfold WriteImageInformationCallback.on_start.
  destruct (p_subject_files params) as [sfs|]; [|reflexivity].
  unfold WriteImageInformationCallback.emit. run_hook.
  by rewrite <- !app_assoc.
Qed.

(** C9: [on_start] reserves [meta/shapes] with [np.uint8] elements and
    [meta/directions] and [meta/spacing] with floating-point elements, one
    row per subject. An element of dtype [np.uint8] keeps an [int] modulo
    [2^8] only: a size component survives exactly when it is below 256. *)
Theorem WriteImageInformationCallback_on_start_dtypes :
  forall (params : params) (s : WriteImageInformationCallback.self),
    WriteImageInformationCallback.on_start params s
    = match p_subject_files params with
      | None => (Raise (KeyError "subject_files"), s)
      | Some subject_files =>
          let subject_count := length subject_files in
          (Return tt,
           {| WriteImageInformationCallback.writer :=
                WriteImageInformationCallback.writer s
                ++ [ Reserve "meta/shapes" [subject_count; 3%nat] np_uint8;
                     Reserve "meta/directions" [subject_count; 9%nat] np_float;
                     Reserve "meta/spacing" [subject_count; 3%nat] np_float ];
              WriteImageInformationCallback.prev_subject_index :=
                WriteImageInformationCallback.prev_subject_index s |})
      end
    /\ is_floating np_uint8 = false
    /\ is_floating np_float = true
    /\ (forall z, uint8_of_int z = z mod 2 ^ 8)
    /\ (forall z, uint8_of_int z = z <-> 0 <= z < 2 ^ 8)
    /\ uint8_of_int 256 = 0.
Proof.
  intros params s. repeat apply conj; try reflexivity.
  - apply WriteImageInformationCallback_on_start_eq.
  - intros z. unfold uint8_of_int. change 255 with (Z.ones 8).
    by rewrite Z.land_ones.
  - intros z. unfold uint8_of_int. change 255 with (Z.ones 8).
    rewrite Z.land_ones by lia. split; intros H.
    + rewrite <- H. apply Z.mod_pos_bound. lia.
    + apply Z.mod_small. lia.
Qed.

(** One call of [on_image_file]: skipped, or filling. *)
Lemma on_image_file_skip (p : params) (s : WriteImageInformationCallback.self) i :
  p_subject_index p = Some i ->
  WriteImageInformationCallback.prev_subject_index s = Some i ->
  WriteImageInformationCallback.on_image_file p s = (Return tt, s).
Proof.
  intros Hi Hprev. unfold WriteImageInformationCallback.on_image_file.
  rewrite Hi. run_hook. apply prev_eq_true in Hprev. by rewrite Hprev.
Qed.

Lemma on_image_file_fill (p : params) (s : WriteImageInformationCallback.self)
      i img :
  p_subject_index p = Some i ->
  WriteImageInformationCallback.prev_subject_index s <> Some i ->
  p_raw_image p = Some (ObjImage img) ->
  WriteImageInformationCallback.on_image_file p s
  = (Return tt,
     {| WriteImageInformationCallback.writer :=
          WriteImageInformationCallback.writer s ++ three_fills i img;
        WriteImageInformationCallback.prev_subject_index := Some i |}).
Proof.
  intros Hi Hprev Himg. unfold WriteImageInformationCallback.on_image_file.
  rewrite Hi, Himg. run_hook. apply prev_eq_false in Hprev. rewrite Hprev.
  unfold WriteImageInformationCallback.emit,
    WriteImageInformationCallback.set_prev_subject_index. run_hook.
  unfold three_fills. by rewrite <- !app_assoc.
Qed.

(** A call which returns leaves the subject index of its bundle
    recorded. *)
Lemma on_image_file_records (p : params) (s s' : WriteImageInformationCallback.self) :
  WriteImageInformationCallback.on_image_file p s = (Return tt, s') ->
  WriteImageInformationCallback.prev_subject_index s' = p_subject_index p.
Proof.
  unfold WriteImageInformationCallback.on_image_file.
  destruct (p_subject_index p) as [i|]; [|discriminate].
  run_hook.
  destruct (WriteImageInformationCallback.prev_eq _ i) eqn:Hprev.
  - intros [= <-]. by apply prev_eq_true.
  - destruct (p_raw_image p) as [[img| | |]|]; cbn; try discriminate.
    unfold WriteImageInformationCallback.emit,
      WriteImageInformationCallback.set_prev_subject_index. run_hook.
    by intros [= <-].
Qed.

(** After a run of calls which has returned, the recorded subject index is
    the one of the last call. *)
Lemma on_image_file_run (calls : list params) :
  forall s,
    fst (for_ calls WriteImageInformationCallback.on_image_file s) = Return tt ->
    WriteImageInformationCallback.prev_subject_index
      (snd (for_ calls WriteImageInformationCallback.on_image_file s))
    = match last calls with
      | Some p => p_subject_index p
      | None => WriteImageInformationCallback.prev_subject_index s
      end.
Proof.
  induction calls as [|p calls IH]; intros s; [done|].
  cbn [for_]. unfold bind.
  destruct (WriteImageInformationCallback.on_image_file p s)
    as [[[]|e] s1] eqn:Hp; [|discriminate].
  intros Hrest. rewrite (IH s1 Hrest).
  destruct calls as [|q calls]; [by apply on_image_file_records in Hp|].
  change (last (p :: q :: calls)) with (last (q :: calls)).
  destruct (last (q :: calls)) eqn:E; [done|by apply last_None in E].
Qed.

(** C2: in any sequence of calls of [on_image_file] on a fresh callback,
    take a call which is reached (the calls before it have returned) and
    whose bundle carries the subject index [i]. The index the callback has
    recorded before this call is the one of the call just before it, and
    none for the very first call. If the recorded index is [i], the call
    performs no writer operation and leaves the state of the callback as it
    was. If it is not [i], the first call included, the call, given a
    loaded image, performs the three metadata fills for row [i] and
    records [i]. *)
Theorem WriteImageInformationCallback_writes_once_per_subject :
  forall (w : Writer) (calls : list params) (k : nat) (p : params) (i : Z),
    calls !! k = Some p ->
    p_subject_index p = Some i ->
    fst (for_ (take k calls) WriteImageInformationCallback.on_image_file
           (WriteImageInformationCallback.__init__ w)) = Return tt ->
    let before :=
      snd (for_ (take k calls) WriteImageInformationCallback.on_image_file
             (WriteImageInformationCallback.__init__ w)) in
    WriteImageInformationCallback.prev_subject_index before
    = match k with
      | O => None
      | S k' => calls !! k' ≫= p_subject_index
      end
    /\ (WriteImageInformationCallback.prev_subject_index before = Some i ->
        WriteImageInformationCallback.on_image_file p before
        = (Return tt, before))
    /\ (WriteImageInformationCallback.prev_subject_index before <> Some i ->
        forall img : Image,
          p_raw_image p = Some (ObjImage img) ->
          WriteImageInformationCallback.on_image_file p before
          = (Return tt,
             {| WriteImageInformationCallback.writer :=
                  WriteImageInformationCallback.writer before
                  ++ three_fills i img;
                WriteImageInformationCallback.prev_subject_index := Some i |})).
Proof.
  intros w calls k p i Hk Hi Hret before.
  split; [|split].
  - subst before. rewrite on_image_file_run by done.
    destruct k as [|k']; [done|].
    assert (Hlt : (k' < length calls)%nat).
    { apply lookup_lt_Some in Hk. lia. }
    destruct (lookup_lt_is_Some_2 calls k' Hlt) as [q Hq].
    rewrite (take_S_r _ _ _ Hq), last_snoc, Hq. done.
  - intros Hprev. by apply (on_image_file_skip p before i).
  - intros Hprev img Himg. by apply on_image_file_fill.
Qed.

Lemma WriteImageInformationCallback_writes_once_per_subject_witness :
  let before :=
    snd (for_ (take 2 example_image_calls)
           WriteImageInformationCallback.on_image_file
           (WriteImageInformationCallback.__init__ [])) in
  WriteImageInformationCallback.writer before = three_fills 0 example_image
  /\ WriteImageInformationCallback.prev_subject_index before = Some 0
  /\ WriteImageInformationCallback.on_image_file (image_file_params 1) before
     = (Return tt,
        {| WriteImageInformationCallback.writer :=
             three_fills 0 example_image ++ three_fills 1 example_image;
           WriteImageInformationCallback.prev_subject_index := Some 1 |}).
Proof.
  intros before.
  destruct (WriteImageInformationCallback_writes_once_per_subject []
              example_image_calls 2 (image_file_params 1) 1)
    as (Hprev & _ & Hfill); [reflexivity|reflexivity|reflexivity|].
  split; [reflexivity|]. split; [exact Hprev|].
  apply (Hfill ltac:(discriminate) example_image eq_refl).
Defined.

(** C4: [on_image_file] raises the type-validation [ValueError] exactly
    when the bundle carries a subject index different from the recorded
    one (so the call is not skipped) and a [raw_image] which is not an
    image. Whenever the call raises, with this error or with a [KeyError],
    the writer has received nothing and the recorded subject index is
    unchanged: the state is as it was. *)
Theorem WriteImageInformationCallback_type_error :
  forall (params : params) (s : WriteImageInformationCallback.self),
    (forall msg,
       fst (WriteImageInformationCallback.on_image_file params s)
       = Raise (ValueError msg)
       <-> msg = "'raw_image' must be of type 'Image'"%string
           /\ exists i raw,
                p_subject_index params = Some i
                /\ WriteImageInformationCallback.prev_subject_index s <> Some i
                /\ p_raw_image params = Some raw
                /\ (forall img, raw <> ObjImage img))
    /\ (forall e,
          fst (WriteImageInformationCallback.on_image_file params s) = Raise e ->
          snd (WriteImageInformationCallback.on_image_file params s) = s).
Proof.
  intros params s.
  unfold WriteImageInformationCallback.on_image_file.
  destruct (p_subject_index params) as [i|] eqn:Hi.
  2:{ run_hook. split.
      - intros msg. split; [discriminate|].
        intros (_ & j & raw & Hj & _). discriminate.
      - done. }
  run_hook.
  destruct (WriteImageInformationCallback.prev_eq _ i) eqn:Hprev.
  { apply prev_eq_true in Hprev. cbn. split.
    - intros msg. split; [discriminate|].
      intros (_ & j & raw & Hj & Hne & _). congruence.
    - discriminate. }
  apply prev_eq_false in Hprev.
  destruct (p_raw_image params) as [raw|] eqn:Hraw.
  2:{ cbn. split.
      - intros msg. split; [discriminate|].
        intros (_ & j & raw & _ & _ & Hr & _). discriminate.
      - done. }
  destruct raw as [img| |str|arr]; cbn.
  - split.
    + intros msg. split; [discriminate|].
      intros (_ & j & raw & _ & _ & Hr & Hno). inversion Hr; subst.
      by destruct (Hno img).
    + discriminate.
  - split; [|done]. intros msg. split.
    + intros [= <-]. split; [done|]. exists i, ObjNone. by repeat split.
    + intros [-> _]. done.
  - split; [|done]. intros msg. split.
    + intros [= <-]. split; [done|]. exists i, (ObjStr str). by repeat split.
    + intros [-> _]. done.
  - split; [|done]. intros msg. split.
    + intros [= <-]. split; [done|]. exists i, (ObjArray arr). by repeat split.
    + intros [-> _]. done.
Qed.

(** ** Decimal numerals *)

Lemma digits_fuel_irrelevant fuel1 :
  forall fuel2 n, (n < fuel1)%nat -> (n < fuel2)%nat ->
    Py.digits_fuel fuel1 n = Py.digits_fuel fuel2 n.
Proof.
  induction fuel1 as [|fuel1 IH]; intros fuel2 n H1 H2; [lia|].
  destruct fuel2 as [|fuel2]; [lia|].
  cbn [Py.digits_fuel].
  destruct (n <? 10)%nat eqn:Hlt; [reflexivity|].
  apply Nat.ltb_ge in Hlt.
  assert (Hdiv : (n / 10 < n)%nat) by (apply Nat.div_lt; lia).
  rewrite (IH fuel2 (n / 10)%nat) by lia. reflexivity.
Qed.

Lemma digits_fuel_enough fuel n :
  (n < fuel)%nat -> Py.digits_fuel fuel n = Py.digits n.
Proof. intros H. apply digits_fuel_irrelevant; lia. Qed.

Lemma digits_unfold n :
  Py.digits n
  = if (n <? 10)%nat then [Py.digit_char n]
    else Py.digits (n / 10) ++ [Py.digit_char (n mod 10)].
Proof.
  unfold Py.digits at 1. cbn [Py.digits_fuel].
  destruct (n <? 10)%nat eqn:Hlt; [reflexivity|].
  apply Nat.ltb_ge in Hlt.
  rewrite digits_fuel_enough; [reflexivity|].
  apply Nat.div_lt; lia.
Qed.

Lemma digits_length_pos n : (1 <= length (Py.digits n))%nat.
Proof.
  rewrite digits_unfold. destruct (n <? 10)%nat; [cbn; lia|].
  rewrite length_app. cbn. lia.
Qed.

Lemma digits_length_mono :
  forall n i, (i <= n)%nat -> (length (Py.digits i) <= length (Py.digits n))%nat.
Proof.
  induction n as [n IH] using lt_wf_ind. intros i Hi.
  rewrite (digits_unfold n), (digits_unfold i).
  destruct (n <? 10)%nat eqn:Hn.
  - apply Nat.ltb_lt in Hn.
    assert (Hi' : (i <? 10)%nat = true) by (apply Nat.ltb_lt; lia).
    rewrite Hi'. done.
  - apply Nat.ltb_ge in Hn. rewrite length_app. cbn [length].
    destruct (i <? 10)%nat eqn:Hi'; [cbn; lia|].
    rewrite length_app. cbn [length].
    assert (length (Py.digits (i / 10)) <= length (Py.digits (n / 10)))%nat; [|lia].
    apply IH.
    + apply Nat.div_lt; lia.
    + apply Nat.Div0.div_le_mono. exact Hi.
Qed.

Lemma digit_value_char d : (d < 10)%nat -> Py.digit_value (Py.digit_char d) = d.
Proof.
  intros Hd. unfold Py.digit_value, Py.digit_char.
  rewrite nat_ascii_embedding by lia. lia.
Qed.

Lemma is_digit_char d : (d < 10)%nat -> Py.is_digit (Py.digit_char d) = true.
Proof.
  intros Hd. unfold Py.is_digit, Py.digit_char.
  rewrite nat_ascii_embedding by lia.
  apply andb_true_iff. split; apply Nat.leb_le; lia.
Qed.

Lemma digits_are_digits :
  forall n, forallb Py.is_digit (Py.digits n) = true.
Proof.
  induction n as [n IH] using lt_wf_ind.
  rewrite digits_unfold. destruct (n <? 10)%nat eqn:Hn.
  - apply Nat.ltb_lt in Hn. cbn. by rewrite is_digit_char.
  - apply Nat.ltb_ge in Hn. rewrite forallb_app, IH.
    + cbn [forallb andb].
      rewrite is_digit_char; [done|]. apply Nat.mod_upper_bound. lia.
    + apply Nat.div_lt; lia.
Qed.

Lemma value_of_digits_snoc l c :
  Py.value_of_digits (l ++ [c])
  = (10 * Py.value_of_digits l + Py.digit_value c)%nat.
Proof. unfold Py.value_of_digits. by rewrite fold_left_app. Qed.

Lemma value_of_digits_digits :
  forall n, Py.value_of_digits (Py.digits n) = n.
Proof.
  induction n as [n IH] using lt_wf_ind.
  rewrite digits_unfold. destruct (n <? 10)%nat eqn:Hn.
  - apply Nat.ltb_lt in Hn. cbn. rewrite digit_value_char by done. lia.
  - apply Nat.ltb_ge in Hn.
    rewrite value_of_digits_snoc, IH by (apply Nat.div_lt; lia).
    rewrite digit_value_char by (apply Nat.mod_upper_bound; lia).
    symmetry. apply Nat.div_mod_eq.
Qed.

Lemma value_of_digits_zeros k l :
  Py.value_of_digits (replicate k "0"%char ++ l) = Py.value_of_digits l.
Proof.
  unfold Py.value_of_digits. rewrite fold_left_app. f_equal.
  induction k as [|k IH]; [done|]. cbn. exact IH.
Qed.

Lemma string_of_list_ascii_length l :
  String.length (string_of_list_ascii l) = length l.
Proof. induction l as [|c l IH]; cbn; congruence. Qed.

Lemma string_of_list_ascii_inj l1 l2 :
  string_of_list_ascii l1 = string_of_list_ascii l2 -> l1 = l2.
Proof.
  intros H. apply (f_equal list_ascii_of_string) in H.
  by rewrite !list_ascii_of_string_of_list_ascii in H.
Qed.

Lemma str_of_nat n :
  Py.str (Z.of_nat n) = string_of_list_ascii (Py.digits n).
Proof.
  unfold Py.str. destruct (Z.of_nat n <? 0) eqn:H; [apply Z.ltb_lt in H; lia|].
  by rewrite Zabs2Nat.id.
Qed.

Lemma format_zero_padded_nonneg width z :
  0 <= z ->
  Py.format_zero_padded width z
  = string_of_list_ascii
      (replicate (width - length (Py.digits (Z.to_nat z))) "0"%char
       ++ Py.digits (Z.to_nat z)).
Proof.
  intros Hz. unfold Py.format_zero_padded.
  destruct (z <? 0) eqn:H; [apply Z.ltb_lt in H; lia|].
  rewrite Zabs2Nat.abs_nat_nonneg by done. cbn [app length].
  by rewrite Nat.sub_0_r.
Qed.

(** ** WriteDataCallback: the index string *)

(** C1: with [N >= 1] subjects and a subject index in [0 .. N-1], the index
    string computed by [on_subject_end] consists of exactly [len(str(N))]
    characters, all of them decimal digits, and it differs from the index
    string, of the same width, of every other subject index in
    [0 .. N-1]. *)
Theorem WriteDataCallback_index_str_fixed_width :
  forall (subject_files : list SubjectFile) (subject_index : Z),
    (1 <= length subject_files)%nat ->
    0 <= subject_index < Z.of_nat (length subject_files) ->
    let width := String.length (Py.str (Z.of_nat (length subject_files))) in
    let index := WriteDataCallback.index_str subject_files subject_index in
    String.length index = width
    /\ forallb Py.is_digit (list_ascii_of_string index) = true
    /\ forall other : Z,
         0 <= other < Z.of_nat (length subject_files) ->
         other <> subject_index ->
         String.length (WriteDataCallback.index_str subject_files other) = width
         /\ WriteDataCallback.index_str subject_files other <> index.
Proof.
  intros sfs i HN Hi width index.
  assert (Hlen : forall j, 0 <= j < Z.of_nat (length sfs) ->
            String.length (WriteDataCallback.index_str sfs j) = width).
  { intros j Hj. unfold WriteDataCallback.index_str. fold width.
    rewrite format_zero_padded_nonneg by lia.
    rewrite string_of_list_ascii_length, length_app, length_replicate.
    assert (length (Py.digits (Z.to_nat j)) <= width)%nat; [|lia].
    subst width. rewrite str_of_nat, string_of_list_ascii_length.
    apply digits_length_mono. lia. }
  assert (Hval : forall j, 0 <= j < Z.of_nat (length sfs) ->
            Py.value_of_digits
              (list_ascii_of_string (WriteDataCallback.index_str sfs j))
            = Z.to_nat j).
  { intros j Hj. unfold WriteDataCallback.index_str.
    rewrite format_zero_padded_nonneg by lia.
    rewrite list_ascii_of_string_of_list_ascii, value_of_digits_zeros.
    apply value_of_digits_digits. }
  split; [by apply Hlen|]. split.
  - subst index. unfold WriteDataCallback.index_str.
    rewrite format_zero_padded_nonneg by lia.
    rewrite list_ascii_of_string_of_list_ascii, forallb_app.
    rewrite digits_are_digits, andb_true_r.
    apply forallb_forall. intros c Hc.
    apply list_elem_of_In, elem_of_replicate in Hc as [-> _]. reflexivity.
  - intros j Hj Hne. split; [by apply Hlen|].
    intros Heq. apply Hne.
    apply (f_equal (fun s => Py.value_of_digits (list_ascii_of_string s))) in Heq.
    subst index. rewrite !Hval in Heq by done. lia.
Qed.

Lemma WriteDataCallback_index_str_fixed_width_witness :
  let subject_files := replicate 12 example_subject in
  String.length (WriteDataCallback.index_str subject_files 7) = 2%nat
  /\ WriteDataCallback.index_str subject_files 7 = "07"%string
  /\ WriteDataCallback.index_str subject_files 11 <> "07"%string.
Proof.
  intros subject_files.
  destruct (WriteDataCallback_index_str_fixed_width subject_files 7)
    as (Hlen & _ & Hother).
  - cbn. lia.
  - cbn. lia.
  - split; [exact Hlen|]. split; [reflexivity|].
    apply (Hother 11); cbn; lia.
Defined.

(** ** The discipline of reserve and fill *)

Lemma reserve_discipline_intro (reserved fills : list call) :
  forallb (fun c => negb (is_fill c)) reserved = true ->
  unique_reserves reserved ->
  Forall (allowed_fill reserved) fills ->
  reserve_discipline (length reserved) (reserved ++ fills).
Proof.
  intros Hres Huniq Hfills.
  rewrite forallb_forall in Hres. rewrite Forall_lookup in Hfills.
  assert (Hin : forall j key shape dt,
            (reserved ++ fills) !! j = Some (Reserve key shape dt) ->
            (j < length reserved)%nat
            /\ reserved !! j = Some (Reserve key shape dt)).
  { intros j key shape dt Hj.
    destruct (decide (j < length reserved)%nat) as [Hlt|Hge].
    - by rewrite lookup_app_l in Hj.
    - rewrite lookup_app_r in Hj by lia. by destruct (Hfills _ _ Hj). }
  split.
  - intros j key shape dt Hj. apply Hin in Hj as [Hlt Hj].
    split; [done|]. intros j' shape' dt' Hj'. apply Hin in Hj' as [_ Hj'].
    by eapply Huniq.
  - intros i key v ie Hi.
    destruct (decide (i < length reserved)%nat) as [Hlt|Hge].
    { rewrite lookup_app_l in Hi by done.
      apply list_elem_of_lookup_2, list_elem_of_In, Hres in Hi. done. }
    split; [lia|].
    rewrite lookup_app_r in Hi by lia.
    destruct (Hfills _ _ Hi) as (j & shape & dt & Hj & Hb).
    exists j, shape, dt.
    assert (Hjlt : (j < length reserved)%nat) by (by apply lookup_lt_Some in Hj).
    split; [done|]. split; [by rewrite lookup_app_l|done].
Qed.

(** What [on_start] has issued when it raises obeys the discipline by
    itself. *)
Lemma no_fill_discipline own :
  forallb (fun c => negb (is_fill c)) own = true ->
  unique_reserves own ->
  reserve_discipline (length own) own.
Proof.
  intros Hres Huniq.
  rewrite <- (app_nil_r own) at 2. by apply reserve_discipline_intro.
Qed.

Ltac solve_unique_reserves :=
  let j := fresh "j" in
  let j' := fresh "j'" in
  let Hj := fresh "Hj" in
  let Hj' := fresh "Hj'" in
  intros j j' ? ? ? ? ? Hj Hj';
  destruct j as [|[|[|j]]]; destruct j' as [|[|[|j']]];
  cbn in Hj, Hj'; simplify_eq; reflexivity.

(** A run whose every event only adds allowed fills only adds allowed
    fills. *)
Lemma run_allowed_fills {St} (wr : St -> Writer) (c : callback params St)
      (ok : event -> bool) (reserved : list call) :
  (forall e s, ok e = true ->
     exists F, wr (snd (invoke (fst e) c (snd e) s)) = wr s ++ F
               /\ Forall (allowed_fill reserved) F) ->
  forall events s,
    forallb ok events = true ->
    exists F, wr (snd (run c events s)) = wr s ++ F
              /\ Forall (allowed_fill reserved) F.
Proof.
  intros Hstep. induction events as [|e events IH]; intros s Hok.
  - exists []. by rewrite app_nil_r.
  - cbn in Hok. apply andb_true_iff in Hok as [He Hok].
    destruct (Hstep e s He) as (F1 & HF1 & Hall1).
    unfold run. cbn [for_]. unfold bind.
    destruct (invoke (fst e) c (snd e) s) as [[[]|err] s1] eqn:Hinv;
      cbn [snd] in HF1.
    + destruct (IH s1 Hok) as (F2 & HF2 & Hall2).
      exists (F1 ++ F2). unfold run in HF2. rewrite HF2, HF1.
      split; [by rewrite app_assoc|]. by apply Forall_app.
    + exists F1. done.
Qed.

Lemma own_calls_app w0 own : own_calls w0 (w0 ++ own) = own.
Proof. unfold own_calls. by rewrite drop_app_length. Qed.

Lemma own_calls_same w0 : own_calls w0 w0 = [].
Proof. unfold own_calls. apply drop_all. Qed.

Lemma index_below_Some n i :
  index_below n (Some i) = true -> (0 <=? i) && (i <? Z.of_nat n) = true.
Proof. done. Qed.

(** *** WriteSubjectCallback *)

Lemma WriteSubjectCallback_events start sfs e s :
  p_subject_files start = Some sfs ->
  event_in_range start e = true ->
  exists F,
    WriteSubjectCallback.writer
      (snd (invoke (fst e) WriteSubjectCallback.object (snd e) s))
    = WriteSubjectCallback.writer s ++ F
    /\ Forall (allowed_fill
                 [Reserve WriteSubjectCallback.SUBJECT [length sfs] builtin_str]) F.
Proof.
  intros Hsfs Hok. destruct e as [h p]. cbn [fst snd] in *.
  unfold event_in_range in Hok. cbn [fst snd] in Hok.
  rewrite Hsfs in Hok. cbn [len] in Hok.
  apply andb_true_iff in Hok as [Hok _].
  apply andb_true_iff in Hok as [Hok _].
  apply andb_true_iff in Hok as [Hstart Hidx].
  destruct h; try (exists []; by rewrite app_nil_r).
  cbn [invoke WriteSubjectCallback.object cb_on_subject_start].
  unfold WriteSubjectCallback.on_subject_start.
  destruct (p_subject p) as [subj|]; [|exists []; by rewrite app_nil_r].
  destruct (p_subject_index p) as [i|]; [|exists []; by rewrite app_nil_r].
  eexists [_]. split; [reflexivity|].
  constructor; [|constructor].
  exists O, [length sfs], builtin_str. split; [done|].
  cbn. rewrite (index_below_Some _ _ Hidx). done.
Qed.

Lemma WriteSubjectCallback_discipline w0 start events :
  driver_contract start events = true ->
  let s1 := snd (WriteSubjectCallback.on_start start
                   (WriteSubjectCallback.__init__ w0)) in
  let s2 := snd (run WriteSubjectCallback.object ((OnStart, start) :: events)
                   (WriteSubjectCallback.__init__ w0)) in
  exists own,
    WriteSubjectCallback.writer s2 = w0 ++ own
    /\ reserve_discipline
         (length (own_calls w0 (WriteSubjectCallback.writer s1))) own.
Proof.
  intros Hok s1 s2. subst s1 s2.
  unfold run. cbn [for_ fst snd invoke WriteSubjectCallback.object cb_on_start].
  unfold bind at 1. unfold WriteSubjectCallback.on_start.
  destruct (p_subject_files start) as [sfs|] eqn:Hsfs.
  - run_hook. unfold WriteSubjectCallback.emit, modify. cbn.
    destruct (run_allowed_fills WriteSubjectCallback.writer
                WriteSubjectCallback.object (event_in_range start)
                [Reserve WriteSubjectCallback.SUBJECT [length sfs] builtin_str]
                (fun e s => WriteSubjectCallback_events start sfs e s Hsfs)
                events
                {| WriteSubjectCallback.writer :=
                     w0 ++ [Reserve WriteSubjectCallback.SUBJECT [length sfs]
                              builtin_str] |} Hok)
      as (F & HF & Hall).
    unfold run in HF. rewrite HF. cbn [WriteSubjectCallback.writer].
    rewrite own_calls_app.
    eexists. split; [by rewrite <- app_assoc|].
    apply reserve_discipline_intro; [done|solve_unique_reserves|done].
  - run_hook. exists []. rewrite app_nil_r, own_calls_same. split; [done|].
    by apply (no_fill_discipline []).
Qed.

(** *** WriteImageInformationCallback *)

Lemma WriteImageInformationCallback_events start sfs e s :
  p_subject_files start = Some sfs ->
  event_in_range start e = true ->
  exists F,
    WriteImageInformationCallback.writer
      (snd (invoke (fst e) WriteImageInformationCallback.object (snd e) s))
    = WriteImageInformationCallback.writer s ++ F
    /\ Forall (allowed_fill (image_information_reserves (length sfs))) F.
Proof.
  intros Hsfs Hok. destruct e as [h p]. cbn [fst snd] in *.
  unfold event_in_range in Hok. cbn [fst snd] in Hok.
  rewrite Hsfs in Hok. cbn [len] in Hok.
  apply andb_true_iff in Hok as [Hok _].
  apply andb_true_iff in Hok as [Hok _].
  apply andb_true_iff in Hok as [Hstart Hidx].
  destruct h; try (exists []; by rewrite app_nil_r).
  cbn [invoke WriteImageInformationCallback.object cb_on_image_file].
  unfold WriteImageInformationCallback.on_image_file.
  destruct (p_subject_index p) as [i|]; [|exists []; by rewrite app_nil_r].
  run_hook.
  destruct (WriteImageInformationCallback.prev_eq _ i);
    [exists []; by rewrite app_nil_r|].
  destruct (p_raw_image p) as [[img| | |]|];
    try (exists []; by rewrite app_nil_r).
  exists (three_fills i img). split.
  { unfold three_fills. cbn. by rewrite <- !app_assoc. }
  apply index_below_Some in Hidx.
  repeat constructor.
  - exists 0%nat, [length sfs; 3%nat], np_uint8. split; [done|].
    cbn. by rewrite Hidx.
  - exists 1%nat, [length sfs; 9%nat], np_float. split; [done|].
    cbn. by rewrite Hidx.
  - exists 2%nat, [length sfs; 3%nat], np_float. split; [done|].
    cbn. by rewrite Hidx.
Qed.

Lemma WriteImageInformationCallback_discipline w0 start events :
  driver_contract start events = true ->
  let s1 := snd (WriteImageInformationCallback.on_start start
                   (WriteImageInformationCallback.__init__ w0)) in
  let s2 := snd (run WriteImageInformationCallback.object
                   ((OnStart, start) :: events)
                   (WriteImageInformationCallback.__init__ w0)) in
  exists own,
    WriteImageInformationCallback.writer s2 = w0 ++ own
    /\ reserve_discipline
         (length (own_calls w0 (WriteImageInformationCallback.writer s1))) own.
Proof.
  intros Hok s1 s2. subst s1 s2.
  unfold run.
  cbn [for_ fst snd invoke WriteImageInformationCallback.object cb_on_start].
  unfold bind at 1.
  rewrite WriteImageInformationCallback_on_start_eq.
  destruct (p_subject_files start) as [sfs|] eqn:Hsfs.
  - cbn [snd WriteImageInformationCallback.writer
           WriteImageInformationCallback.__init__].
    match goal with |- context [for_ events _ ?st] =>
      destruct (run_allowed_fills WriteImageInformationCallback.writer
                  WriteImageInformationCallback.object (event_in_range start)
                  (image_information_reserves (length sfs))
                  (fun e s' => WriteImageInformationCallback_events start sfs e s' Hsfs)
                  events st Hok)
        as (F & HF & Hall)
    end.
    unfold run in HF. rewrite HF. cbn [WriteImageInformationCallback.writer].
    rewrite own_calls_app.
    eexists. split; [by rewrite <- app_assoc|].
    apply (reserve_discipline_intro (image_information_reserves (length sfs)));
      [done|solve_unique_reserves|done].
  - cbn. exists []. rewrite app_nil_r, own_calls_same. split; [done|].
    by apply (no_fill_discipline []).
Qed.

(** *** WriteFilesCallback *)

Lemma WriteFilesCallback_events cwd start sfs names root e s :
  p_subject_files start = Some sfs ->
  p_sequence_names start = Some names ->
  event_in_range start e && gt_announced start e = true ->
  exists F,
    WriteFilesCallback.writer
      (snd (invoke (fst e) (WriteFilesCallback.object cwd) (snd e) s))
    = WriteFilesCallback.writer s ++ F
    /\ Forall (allowed_fill
                 (files_reserves root (length sfs) (length names)
                    (announced_gt_count start))) F.
Proof.
  intros Hsfs Hnames Hok. destruct e as [h p]. cbn [fst snd] in *.
  apply andb_true_iff in Hok as [Hok Hgt].
  unfold event_in_range in Hok. cbn [fst snd] in Hok.
  rewrite Hsfs, Hnames in Hok. cbn [len] in Hok.
  apply andb_true_iff in Hok as [Hok Hgi].
  apply andb_true_iff in Hok as [Hok Hsi].
  apply andb_true_iff in Hok as [Hstart Hidx].
  destruct h; try (exists []; by rewrite app_nil_r).
  - (* on_gt_file *)
    cbn [invoke WriteFilesCallback.object cb_on_gt_file].
    unfold WriteFilesCallback.on_gt_file.
    destruct (p_file p) as [f|]; [|exists []; by rewrite app_nil_r].
    destruct (p_subject_index p) as [i|]; [|exists []; by rewrite app_nil_r].
    destruct (p_gt_index p) as [j|]; [|exists []; by rewrite app_nil_r].
    run_hook.
    destruct (posixpath.relpath cwd f (WriteFilesCallback.file_root s))
      as [rel|err]; [|exists []; by rewrite app_nil_r].
    eexists [_]. split; [reflexivity|].
    constructor; [|constructor].
    unfold gt_announced in Hgt. cbn [fst is_on_gt_file negb orb] in Hgt.
    unfold announced_gt_count.
    destruct (p_has_gt start) as [[|]|]; try done.
    exists 2%nat, [length sfs; len (p_gt_names start)], (dtype_named "str").
    split; [done|].
    apply index_below_Some in Hidx. apply index_below_Some in Hgi.
    cbn. by rewrite Hidx, Hgi.
  - (* on_image_file *)
    cbn [invoke WriteFilesCallback.object cb_on_image_file].
    unfold WriteFilesCallback.on_image_file.
    destruct (p_file p) as [f|]; [|exists []; by rewrite app_nil_r].
    destruct (p_subject_index p) as [i|]; [|exists []; by rewrite app_nil_r].
    destruct (p_sequence_index p) as [j|]; [|exists []; by rewrite app_nil_r].
    run_hook.
    destruct (posixpath.relpath cwd f (WriteFilesCallback.file_root s))
      as [rel|err]; [|exists []; by rewrite app_nil_r].
    eexists [_]. split; [reflexivity|].
    constructor; [|constructor].
    exists 1%nat, [length sfs; length names], (dtype_named "str").
    split; [done|].
    apply index_below_Some in Hidx. apply index_below_Some in Hsi.
    cbn. by rewrite Hidx, Hsi.
Qed.

Lemma WriteFilesCallback_on_start_cases start s :
  exists own,
    WriteFilesCallback.writer (snd (WriteFilesCallback.on_start start s))
    = WriteFilesCallback.writer s ++ own
    /\ forallb (fun c => negb (is_fill c)) own = true
    /\ unique_reserves own
    /\ (fst (WriteFilesCallback.on_start start s) = Return tt ->
        exists sfs names root,
          p_subject_files start = Some sfs
          /\ p_sequence_names start = Some names
          /\ own = files_reserves root (length sfs) (length names)
                     (announced_gt_count start)).
Proof.
  unfold WriteFilesCallback.on_start, announced_gt_count.
  destruct (p_subject_files start) as [sfs|].
  2:{ exists []. rewrite app_nil_r. repeat split; first [done|solve_unique_reserves]. }
  run_hook.
  destruct (WriteFilesCallback._get_common_path sfs) as [root|err].
  2:{ exists []. rewrite app_nil_r. repeat split; first [done|solve_unique_reserves]. }
  unfold WriteFilesCallback.set_file_root, WriteFilesCallback.emit. run_hook.
  destruct (p_sequence_names start) as [names|].
  2:{ eexists [_]. repeat split; first [done|solve_unique_reserves]. }
  cbn.
  destruct (p_has_gt start) as [[|]|]; cbn.
  - destruct (p_gt_names start) as [gts|]; cbn.
    + eexists [_; _; _]. split; [by rewrite <- !app_assoc|]. split; [done|].
      split; [solve_unique_reserves|]. intros _. by exists sfs, names, root.
    + eexists [_; _]. split; [by rewrite <- !app_assoc|].
      repeat split; first [done|solve_unique_reserves].
  - eexists [_; _]. split; [by rewrite <- !app_assoc|]. split; [done|].
    split; [solve_unique_reserves|]. intros _. by exists sfs, names, root.
  - eexists [_; _]. split; [by rewrite <- !app_assoc|].
    repeat split; first [done|solve_unique_reserves].
Qed.

Lemma WriteFilesCallback_discipline cwd w0 start events :
  driver_contract_gt start events = true ->
  let s1 := snd (WriteFilesCallback.on_start start
                   (WriteFilesCallback.__init__ w0)) in
  let s2 := snd (run (WriteFilesCallback.object cwd)
                   ((OnStart, start) :: events)
                   (WriteFilesCallback.__init__ w0)) in
  exists own,
    WriteFilesCallback.writer s2 = w0 ++ own
    /\ reserve_discipline
         (length (own_calls w0 (WriteFilesCallback.writer s1))) own.
Proof.
  intros Hok s1 s2. subst s1 s2.
  unfold run.
  cbn [for_ fst snd invoke WriteFilesCallback.object cb_on_start].
  unfold bind at 1.
  destruct (WriteFilesCallback_on_start_cases start
              (WriteFilesCallback.__init__ w0))
    as (R & HR & Hnofill & Huniq & Hret).
  destruct (WriteFilesCallback.on_start start
              (WriteFilesCallback.__init__ w0)) as [[[]|err] s1];
    cbn [fst snd WriteFilesCallback.writer WriteFilesCallback.__init__] in *.
  - destruct (Hret eq_refl) as (sfs & names & root & Hsfs & Hnames & ->).
    destruct (run_allowed_fills WriteFilesCallback.writer
                (WriteFilesCallback.object cwd)
                (fun e => event_in_range start e && gt_announced start e)
                (files_reserves root (length sfs) (length names)
                   (announced_gt_count start))
                (fun e s' => WriteFilesCallback_events cwd start sfs names root
                               e s' Hsfs Hnames)
                events s1 Hok)
      as (F & HF & Hall).
    unfold run in HF. rewrite HF, HR, own_calls_app.
    eexists. split; [by rewrite <- app_assoc|].
    by apply reserve_discipline_intro.
  - rewrite HR, own_calls_app. exists R. split; [done|].
    by apply no_fill_discipline.
Qed.

(** ** The discipline of reserve and fill under the driver contract *)

(** C7, as amended: let the driver fire [on_start] once, first, and then
    events none of which is [on_start], each carrying a subject index below
    the subject count, a sequence index below the number of sequence names
    and a ground-truth index below the number of ground-truth names, and
    let it fire [on_gt_file] only if [on_start] announced [has_gt]. Then
    for each of [WriteSubjectCallback], [WriteImageInformationCallback] and
    [WriteFilesCallback], started on any writer, the calls the callback
    adds to the writer obey the discipline: every [reserve] is issued
    during [on_start] and is the only [reserve] of its key; every [fill]
    comes after the calls of [on_start], its key was reserved during
    [on_start], and its index expression lies within the reserved
    shape. *)
Theorem reserve_once_in_on_start_before_fills :
  forall (cwd : string) (w0 : Writer) (start : params) (events : list event),
    driver_contract_gt start events = true ->
    (exists own,
        WriteSubjectCallback.writer
          (snd (run WriteSubjectCallback.object ((OnStart, start) :: events)
                  (WriteSubjectCallback.__init__ w0)))
        = w0 ++ own
        /\ reserve_discipline
             (length (own_calls w0
                        (WriteSubjectCallback.writer
                           (snd (WriteSubjectCallback.on_start start
                                   (WriteSubjectCallback.__init__ w0))))))
             own)
    /\ (exists own,
        WriteImageInformationCallback.writer
          (snd (run WriteImageInformationCallback.object
                  ((OnStart, start) :: events)
                  (WriteImageInformationCallback.__init__ w0)))
        = w0 ++ own
        /\ reserve_discipline
             (length (own_calls w0
                        (WriteImageInformationCallback.writer
                           (snd (WriteImageInformationCallback.on_start start
                                   (WriteImageInformationCallback.__init__ w0))))))
             own)
    /\ (exists own,
        WriteFilesCallback.writer
          (snd (run (WriteFilesCallback.object cwd) ((OnStart, start) :: events)
                  (WriteFilesCallback.__init__ w0)))
        = w0 ++ own
        /\ reserve_discipline
             (length (own_calls w0
                        (WriteFilesCallback.writer
                           (snd (WriteFilesCallback.on_start start
                                   (WriteFilesCallback.__init__ w0))))))
             own).
Proof.
  intros cwd w0 start events Hok.
  assert (Hplain : driver_contract start events = true).
  { unfold driver_contract_gt in Hok. unfold driver_contract.
    rewrite forallb_forall in *. intros e He.
    by apply Hok, andb_true_iff in He as [He _]. }
  split; [|split].
  - by apply WriteSubjectCallback_discipline.
  - by apply WriteImageInformationCallback_discipline.
  - by apply WriteFilesCallback_discipline.
Qed.

Lemma reserve_once_in_on_start_before_fills_witness :
  driver_contract_gt example_start example_events = true
  /\ reserve_discipline 3
       [ Write "meta/file_root" (VStr "/a/b") (Some (dtype_named "str"));
         Reserve "meta/sequence_files" [1; 2]%nat (dtype_named "str");
         Reserve "meta/gt_files" [1; 1]%nat (dtype_named "str");
         Fill "meta/sequence_files" (VStr "c.txt")
           (WriteFilesCallback.IndexExpression2 0 0);
         Fill "meta/sequence_files" (VStr "d.txt")
           (WriteFilesCallback.IndexExpression2 0 1);
         Fill "meta/gt_files" (VStr "gt.txt")
           (WriteFilesCallback.IndexExpression2 0 0) ].
Proof.
  split; [reflexivity|].
  destruct (reserve_once_in_on_start_before_fills "/" [] example_start
              example_events eq_refl) as (_ & _ & own & Hown & Hd).
  cbn [app] in Hown. rewrite <- Hown in Hd. exact Hd.
Defined.

(** C7 as stated, without the condition on [on_gt_file], fails: after a
    start bundle whose [has_gt] is false and which lists one ground-truth
    name, a ground-truth file event with indices in range makes
    [WriteFilesCallback] fill [meta/gt_files], a key it has never
    reserved. *)
Lemma reserve_once_in_on_start_before_fills_counterexample :
  driver_contract start_without_gt [gt_file_event] = true
  /\ WriteFilesCallback.writer
       (snd (run (WriteFilesCallback.object "/")
               [(OnStart, start_without_gt); gt_file_event]
               (WriteFilesCallback.__init__ [])))
     = [ Write "meta/file_root" (VStr "/a/b") (Some (dtype_named "str"));
         Reserve "meta/sequence_files" [1; 2]%nat (dtype_named "str");
         Fill "meta/gt_files" (VStr "gt.txt")
           (WriteFilesCallback.IndexExpression2 0 0) ]
  /\ ~ (exists own,
          WriteFilesCallback.writer
            (snd (run (WriteFilesCallback.object "/")
                    [(OnStart, start_without_gt); gt_file_event]
                    (WriteFilesCallback.__init__ [])))
          = [] ++ own
          /\ reserve_discipline
               (length (own_calls []
                          (WriteFilesCallback.writer
                             (snd (WriteFilesCallback.on_start start_without_gt
                                     (WriteFilesCallback.__init__ []))))))
               own).
Proof.
  split; [reflexivity|]. split; [reflexivity|].
  intros (own & Hown & Hd). cbn [app] in Hown. rewrite <- Hown in Hd.
  destruct Hd as [_ Hfill].
  destruct (Hfill 2%nat "meta/gt_files"%string (VStr "gt.txt")
              (WriteFilesCallback.IndexExpression2 0 0) eq_refl)
    as (_ & j & shape & dt & Hj & Hlook & _).
  vm_compute in Hj.
  destruct j as [|[|j]]; [discriminate Hlook|discriminate Hlook|].
  apply Nat.leb_le in Hj. discriminate Hj.
Qed.

(** ** The order on lists of strings, [min] and [max] *)

Lemma ascii_compare_refl a : Ascii.compare a a = Eq.
Proof. apply N.compare_refl. Qed.

Lemma ascii_compare_lt_trans a b c :
  Ascii.compare a b = Lt -> Ascii.compare b c = Lt -> Ascii.compare a c = Lt.
Proof.
  unfold Ascii.compare. rewrite !N.compare_lt_iff. apply N.lt_trans.
Qed.

Lemma string_compare_refl s : String.compare s s = Eq.
Proof. induction s as [|a s IH]; cbn; [done|]. by rewrite ascii_compare_refl. Qed.

Lemma string_compare_lt_trans a :
  forall b c,
    String.compare a b = Lt -> String.compare b c = Lt ->
    String.compare a c = Lt.
Proof.
  induction a as [|x a IH]; intros [|y b] [|z c]; cbn; try done.
  destruct (Ascii.compare x y) eqn:Hxy; try done;
    destruct (Ascii.compare y z) eqn:Hyz; try done.
  - apply Ascii.compare_eq_iff in Hxy, Hyz. subst.
    rewrite ascii_compare_refl. apply IH.
  - apply Ascii.compare_eq_iff in Hxy. subst. by rewrite Hyz.
  - apply Ascii.compare_eq_iff in Hyz. subst. by rewrite Hxy.
  - by rewrite (ascii_compare_lt_trans x y z).
Qed.

Lemma list_compare_antisym a :
  forall b, posixpath.list_compare a b = CompOpp (posixpath.list_compare b a).
Proof.
  induction a as [|x a IH]; intros [|y b]; cbn; try done.
  rewrite String.compare_antisym.
  destruct (String.compare y x); cbn; auto.
Qed.

Lemma list_le_refl a : list_le a a.
Proof.
  unfold list_le. induction a as [|x a IH]; cbn; [done|].
  by rewrite string_compare_refl.
Qed.

Lemma list_le_trans a :
  forall b c, list_le a b -> list_le b c -> list_le a c.
Proof.
  unfold list_le.
  induction a as [|x a IH]; intros [|y b] [|z c]; cbn; try done.
  destruct (String.compare x y) eqn:Hxy; try done;
    destruct (String.compare y z) eqn:Hyz; try done.
  - apply String.compare_eq_iff in Hxy, Hyz. subst.
    rewrite string_compare_refl. apply IH.
  - apply String.compare_eq_iff in Hxy. subst. by rewrite Hyz.
  - apply String.compare_eq_iff in Hyz. subst. by rewrite Hxy.
  - by rewrite (string_compare_lt_trans x y z).
Qed.

Lemma list_ltb_true a b : posixpath.list_ltb a b = true -> list_le a b.
Proof.
  unfold posixpath.list_ltb, list_le.
  by destruct (posixpath.list_compare a b).
Qed.

Lemma list_ltb_false a b : posixpath.list_ltb a b = false -> list_le b a.
Proof.
  unfold posixpath.list_ltb, list_le. rewrite (list_compare_antisym b a).
  by destruct (posixpath.list_compare a b).
Qed.

Lemma py_min_spec l :
  forall x,
    posixpath.py_min x l ∈ x :: l
    /\ forall y, y ∈ x :: l -> list_le (posixpath.py_min x l) y.
Proof.
  unfold posixpath.py_min.
  induction l as [|z l IH]; intros x; cbn [fold_left].
  - split; [apply list_elem_of_here|].
    intros y ->%list_elem_of_singleton. apply list_le_refl.
  - destruct (posixpath.list_ltb z x) eqn:Hzx.
    + destruct (IH z) as [Hin Hle]. split.
      * apply elem_of_cons. right. exact Hin.
      * intros y Hy. apply elem_of_cons in Hy as [->|Hy]; [|by apply Hle].
        apply (list_le_trans _ z); [apply Hle, list_elem_of_here|].
        by apply list_ltb_true.
    + destruct (IH x) as [Hin Hle]. split.
      * apply elem_of_cons in Hin as [->|Hin]; [apply list_elem_of_here|].
        do 2 right. exact Hin.
      * intros y Hy. apply elem_of_cons in Hy as [->|Hy].
        { apply Hle, list_elem_of_here. }
        apply elem_of_cons in Hy as [->|Hy].
        { apply (list_le_trans _ x); [apply Hle, list_elem_of_here|].
          by apply list_ltb_false. }
        apply Hle. by right.
Qed.

Lemma py_max_spec l :
  forall x,
    posixpath.py_max x l ∈ x :: l
    /\ forall y, y ∈ x :: l -> list_le y (posixpath.py_max x l).
Proof.
  unfold posixpath.py_max.
  induction l as [|z l IH]; intros x; cbn [fold_left].
  - split; [apply list_elem_of_here|].
    intros y ->%list_elem_of_singleton. apply list_le_refl.
  - destruct (posixpath.list_ltb x z) eqn:Hxz.
    + destruct (IH z) as [Hin Hle]. split.
      * apply elem_of_cons. right. exact Hin.
      * intros y Hy. apply elem_of_cons in Hy as [->|Hy]; [|by apply Hle].
        apply (list_le_trans _ z); [|apply Hle, list_elem_of_here].
        by apply list_ltb_true.
    + destruct (IH x) as [Hin Hle]. split.
      * apply elem_of_cons in Hin as [->|Hin]; [apply list_elem_of_here|].
        do 2 right. exact Hin.
      * intros y Hy. apply elem_of_cons in Hy as [->|Hy].
        { apply Hle, list_elem_of_here. }
        apply elem_of_cons in Hy as [->|Hy].
        { apply (list_le_trans _ x); [|apply Hle, list_elem_of_here].
          by apply list_ltb_false. }
        apply Hle. by right.
Qed.

(** What lies between two lists in the order begins with whatever both
    begin with. *)
Lemma prefix_between r :
  forall s1 s2 y,
    r `prefix_of` s1 -> r `prefix_of` s2 ->
    list_le s1 y -> list_le y s2 ->
    r `prefix_of` y.
Proof.
  unfold list_le.
  induction r as [|a r IH]; intros s1 s2 y H1 H2 Hle1 Hle2;
    [apply prefix_nil|].
  destruct s1 as [|a1 s1]; [by apply prefix_nil_not in H1|].
  destruct s2 as [|a2 s2]; [by apply prefix_nil_not in H2|].
  pose proof (prefix_cons_inv_1 _ _ _ _ H1) as <-.
  pose proof (prefix_cons_inv_1 _ _ _ _ H2) as <-.
  apply prefix_cons_inv_2 in H1, H2.
  destruct y as [|b y]; [done|]. cbn in Hle1, Hle2.
  rewrite (String.compare_antisym b a) in Hle2.
  destruct (String.compare a b) eqn:Hab; cbn in Hle2; try done.
  apply String.compare_eq_iff in Hab. subst b.
  apply prefix_cons. by apply (IH s1 s2).
Qed.

(** ** The common-prefix loop and [commonpath] *)

Lemma common_loop_spec rest :
  forall pre rest2,
    list_le rest rest2 ->
    exists r,
      posixpath.common_loop (pre ++ rest) (pre ++ rest2) (length pre) rest
      = Return (pre ++ r)
      /\ r `prefix_of` rest
      /\ r `prefix_of` rest2
      /\ forall q, q `prefix_of` rest -> q `prefix_of` rest2 -> q `prefix_of` r.
Proof.
  induction rest as [|c rest IH]; intros pre rest2 Hle.
  - exists []. cbn. repeat split; try apply prefix_nil. by intros q Hq _.
  - destruct rest2 as [|d rest2]; [done|].
    cbn [posixpath.common_loop].
    rewrite lookup_app_r, Nat.sub_diag by lia. cbn [lookup list_lookup].
    destruct (String.eqb c d) eqn:Hcd.
    + apply String.eqb_eq in Hcd. subst d.
      assert (Hle' : list_le rest rest2).
      { unfold list_le in *. cbn in Hle. by rewrite string_compare_refl in Hle. }
      destruct (IH (pre ++ [c]) rest2 Hle') as (r & Hr & H1 & H2 & Hmax).
      rewrite length_app, <- !app_assoc in Hr. cbn [length app] in Hr.
      rewrite Nat.add_1_r in Hr.
      exists (c :: r). rewrite Hr.
      split; [done|]. split; [by apply prefix_cons|].
      split; [by apply prefix_cons|].
      intros [|x q] Hq1 Hq2; [apply prefix_nil|].
      pose proof (prefix_cons_inv_1 _ _ _ _ Hq1) as ->.
      apply prefix_cons, Hmax; by eapply prefix_cons_inv_2.
    + apply String.eqb_neq in Hcd.
      exists []. rewrite take_app_length, app_nil_r.
      split; [done|]. split; [apply prefix_nil|]. split; [apply prefix_nil|].
      intros [|x q] Hq1 Hq2; [done|].
      pose proof (prefix_cons_inv_1 _ _ _ _ Hq1).
      pose proof (prefix_cons_inv_1 _ _ _ _ Hq2). congruence.
Qed.

(** The loop run on the least and the greatest item yields the greatest
    common prefix of all items. *)
Lemma common_of_min_max x xs :
  exists r,
    posixpath.common_loop (posixpath.py_min x xs) (posixpath.py_max x xs) 0
      (posixpath.py_min x xs)
    = Return r
    /\ (forall y, y ∈ x :: xs -> r `prefix_of` y)
    /\ (forall q, (forall y, y ∈ x :: xs -> q `prefix_of` y) -> q `prefix_of` r).
Proof.
  destruct (py_min_spec xs x) as [Hmin_in Hmin].
  destruct (py_max_spec xs x) as [Hmax_in Hmax].
  destruct (common_loop_spec (posixpath.py_min x xs) [] (posixpath.py_max x xs))
    as (r & Hr & H1 & H2 & Hgreatest).
  { by apply Hmin. }
  exists r. split; [exact Hr|]. split.
  - intros y Hy.
    apply (prefix_between r (posixpath.py_min x xs) (posixpath.py_max x xs));
      auto.
  - intros q Hq. apply Hgreatest; by apply Hq.
Qed.

Lemma commonpath_spec p ps :
  (forall q, q ∈ ps -> posixpath.isabs q = posixpath.isabs p) ->
  exists r,
    posixpath.commonpath_tuple (p :: ps)
    = Return (render (posixpath.isabs p) r)
    /\ (forall y, y ∈ p :: ps -> r `prefix_of` posixpath.components y)
    /\ (forall q, (forall y, y ∈ p :: ps -> q `prefix_of` posixpath.components y) ->
                  q `prefix_of` r).
Proof.
  intros Habs. unfold posixpath.commonpath_tuple.
  assert (Hall : forallb (fun q => Bool.eqb (posixpath.isabs q) (posixpath.isabs p)) ps
                 = true).
  { apply forallb_forall. intros q Hq%list_elem_of_In.
    rewrite (Habs q Hq). apply Bool.eqb_reflx. }
  rewrite Hall. cbn [map].
  destruct (common_of_min_max (posixpath.components p)
              (map posixpath.components ps)) as (r & Hr & Hpre & Hgreatest).
  rewrite Hr. cbn [obind]. exists r. split; [done|].
  change (posixpath.components p :: map posixpath.components ps)
    with (map posixpath.components (p :: ps)) in *.
  split.
  - intros y Hy. apply Hpre. apply list_elem_of_In, in_map, list_elem_of_In, Hy.
  - intros q Hq. apply Hgreatest. intros y Hy.
    apply list_elem_of_In, in_map_iff in Hy as (y0 & <- & Hy0).
    by apply Hq, list_elem_of_In.
Qed.

(** ** Splitting and joining paths *)

Lemma split_not_nil s : posixpath.split s <> [].
Proof.
  destruct s as [|c s]; cbn; [done|].
  destruct (Ascii.eqb c "/"); [done|]. by destruct (posixpath.split s).
Qed.

Lemma split_no_slash_items s :
  Forall (fun c => no_slash c = true) (posixpath.split s).
Proof.
  induction s as [|c s IH]; cbn; [by repeat constructor|].
  destruct (Ascii.eqb c "/") eqn:Hc; [by constructor|].
  destruct (posixpath.split s) as [|x xs].
  - repeat constructor. cbn. by rewrite Hc.
  - inversion IH; subst. constructor; [|done]. cbn. by rewrite Hc.
Qed.

Lemma split_of_no_slash x : no_slash x = true -> posixpath.split x = [x].
Proof.
  induction x as [|c x IH]; cbn; [done|].
  intros [Hc Hx]%andb_true_iff. apply negb_true_iff in Hc.
  by rewrite Hc, (IH Hx).
Qed.

Lemma split_app_sep x s :
  no_slash x = true ->
  posixpath.split (x ++ String "/" s)%string = x :: posixpath.split s.
Proof.
  induction x as [|c x IH]; cbn; [done|].
  intros [Hc Hx]%andb_true_iff. apply negb_true_iff in Hc.
  by rewrite Hc, (IH Hx).
Qed.

Lemma join_sep_cons x y l :
  posixpath.join_sep (x :: y :: l)
  = (x ++ String "/" (posixpath.join_sep (y :: l)))%string.
Proof. reflexivity. Qed.

Lemma split_join l :
  l <> [] ->
  Forall (fun c => no_slash c = true) l ->
  posixpath.split (posixpath.join_sep l) = l.
Proof.
  induction l as [|x l IH]; [done|]. intros _ Hall.
  inversion Hall as [|? ? Hx Hl]; subst.
  destruct l as [|y l].
  - cbn. by apply split_of_no_slash.
  - rewrite join_sep_cons, split_app_sep by done.
    f_equal. by apply IH.
Qed.

Lemma filter_all {A} (f : A -> bool) l :
  Forall (fun x => f x = true) l -> List.filter f l = l.
Proof.
  induction 1 as [|x l Hx _ IH]; cbn; [done|]. by rewrite Hx, IH.
Qed.

Lemma good_no_slash r :
  Forall good_component r -> Forall (fun c => no_slash c = true) r.
Proof. intros Hr. eapply Forall_impl; [exact Hr|]. by intros c [H _]. Qed.

Lemma good_proper r :
  Forall good_component r ->
  Forall (fun c => posixpath.proper_component c = true) r.
Proof. intros Hr. eapply Forall_impl; [exact Hr|]. by intros c [_ H]. Qed.

Lemma components_good p : Forall good_component (posixpath.components p).
Proof.
  unfold posixpath.components. apply Forall_forall. intros c Hc.
  apply list_elem_of_In, filter_In in Hc as [Hc Hp]. split; [|done].
  pose proof (split_no_slash_items p) as H. rewrite Forall_forall in H.
  by apply H, list_elem_of_In.
Qed.

Lemma prefix_good r l :
  r `prefix_of` l -> Forall good_component l -> Forall good_component r.
Proof. intros [k ->] H. by apply Forall_app in H as [H _]. Qed.

Lemma components_join r :
  Forall good_component r ->
  posixpath.components (posixpath.join_sep r) = r.
Proof.
  intros Hr. unfold posixpath.components.
  destruct r as [|x r]; [reflexivity|].
  rewrite split_join; [|done|by apply good_no_slash].
  by apply filter_all, good_proper.
Qed.

Lemma components_render b r :
  Forall good_component r -> posixpath.components (render b r) = r.
Proof.
  intros Hr. destruct b; [|by apply components_join].
  pose proof (components_join r Hr) as H.
  unfold posixpath.components in *. cbn. exact H.
Qed.

Lemma isabs_render b r :
  Forall good_component r -> posixpath.isabs (render b r) = b.
Proof.
  intros Hr. destruct b; [reflexivity|]. cbn.
  destruct r as [|x r]; [reflexivity|].
  inversion Hr as [|? ? [Hns Hp] _]; subst.
  destruct x as [|c x]; [done|].
  cbn in Hns. apply andb_true_iff in Hns as [Hc _]. apply negb_true_iff in Hc.
  destruct r; cbn; exact Hc.
Qed.

Lemma render_canonical b r : Forall good_component r -> canonical (render b r).
Proof.
  intros Hr. unfold canonical. by rewrite isabs_render, components_render.
Qed.

(** ** WriteFilesCallback: the common root *)

Lemma get_subject_common_spec b sf :
  files_of sf <> [] ->
  (forall f, f ∈ files_of sf -> posixpath.isabs f = b) ->
  exists r,
    WriteFilesCallback.get_subject_common sf = Return (render b r)
    /\ Forall good_component r
    /\ greatest_common_prefix r (files_of sf).
Proof.
  intros Hne Habs. unfold WriteFilesCallback.get_subject_common.
  assert (Hfiles :
    match get_gts sf with
    | Some gts => values (get_sequences sf) ++ values gts
    | None => values (get_sequences sf)
    end = files_of sf).
  { unfold files_of. destruct (get_gts sf); [done|by rewrite app_nil_r]. }
  rewrite Hfiles.
  destruct (files_of sf) as [|f fs] eqn:Hf; [done|].
  destruct (commonpath_spec f fs) as (r & Hr & Hpre & Hgreatest).
  { intros q Hq. rewrite (Habs f), (Habs q); [done|by right|by left]. }
  exists r. change (posixpath.commonpath (f :: fs))
    with (posixpath.commonpath_tuple (f :: fs)).
  rewrite Hr, (Habs f) by (by left).
  split; [done|]. split; [|done].
  apply (prefix_good r (posixpath.components f)); [|apply components_good].
  apply Hpre. by left.
Qed.

Lemma subject_commons_spec b sfs :
  (forall sf, sf ∈ sfs -> files_of sf <> []) ->
  (forall f, f ∈ all_files sfs -> posixpath.isabs f = b) ->
  exists commons,
    omapM WriteFilesCallback.get_subject_common sfs = Return commons
    /\ Forall2 (fun sf c =>
                  exists r, c = render b r /\ Forall good_component r
                            /\ greatest_common_prefix r (files_of sf))
         sfs commons.
Proof.
  induction sfs as [|sf sfs IH]; intros Hne Habs.
  - exists []. split; [done|constructor].
  - destruct (get_subject_common_spec b sf) as (r & Hr & Hgood & Hgcp).
    { apply Hne. by left. }
    { intros f Hf. apply Habs. unfold all_files. cbn [map concat].
      apply elem_of_app. by left. }
    destruct IH as (commons & Hcommons & Hall).
    { intros sf' Hsf'. apply Hne. by right. }
    { intros f Hf. apply Habs. unfold all_files in *. cbn [map concat].
      apply elem_of_app. by right. }
    exists (render b r :: commons). cbn [omapM]. rewrite Hr, Hcommons.
    split; [done|]. constructor; [|done]. by exists r.
Qed.

Lemma elem_of_all_files f sfs :
  f ∈ all_files sfs <-> exists sf, sf ∈ sfs /\ f ∈ files_of sf.
Proof.
  unfold all_files. induction sfs as [|sf sfs IH]; cbn [map concat].
  - split; [by intros ?%elem_of_nil|]. by intros (sf & ?%elem_of_nil & _).
  - rewrite elem_of_app, IH. split.
    + intros [Hf|(sf' & Hsf' & Hf)].
      * exists sf. split; [by left|done].
      * exists sf'. split; [by right|done].
    + intros (sf' & [->|Hsf']%elem_of_cons & Hf); [by left|].
      right. by exists sf'.
Qed.

(** The root computed for subjects which all have files, all absolute or
    all relative. *)
Lemma get_common_path_spec sfs :
  sfs <> [] ->
  (forall sf, sf ∈ sfs -> files_of sf <> []) ->
  (forall f g, f ∈ all_files sfs -> g ∈ all_files sfs ->
               posixpath.isabs f = posixpath.isabs g) ->
  exists root,
    WriteFilesCallback._get_common_path sfs = Return root
    /\ longest_common_ancestor root (all_files sfs)
    /\ canonical root.
Proof.
  intros Hsfs Hne Habs.
  (* a first file fixes whether the paths are absolute *)
  destruct sfs as [|sf0 sfs']; [done|].
  set (sfs := sf0 :: sfs') in *.
  destruct (files_of sf0) as [|f0 fs0] eqn:Hf0.
  { exfalso. apply (Hne sf0); [by left|exact Hf0]. }
  assert (Hf0_in : f0 ∈ all_files sfs).
  { apply elem_of_all_files. exists sf0. rewrite Hf0. split; by left. }
  set (b := posixpath.isabs f0).
  assert (Hb : forall f, f ∈ all_files sfs -> posixpath.isabs f = b).
  { intros f Hf. by apply Habs. }
  destruct (subject_commons_spec b sfs Hne Hb) as (commons & Hcommons & Hall).
  unfold WriteFilesCallback._get_common_path. rewrite Hcommons. cbn [obind].
  destruct commons as [|c0 commons']; [by inversion Hall|].
  set (commons := c0 :: commons') in *.
  assert (Hcabs : forall c, c ∈ commons -> posixpath.isabs c = b).
  { intros c Hc. apply list_elem_of_lookup in Hc as [i Hi].
    destruct (Forall2_lookup_r _ _ _ _ _ Hall Hi) as (sf & _ & r & -> & Hr & _).
    by apply isabs_render. }
  destruct (commonpath_spec c0 commons') as (R & HR & Hpre & Hgreatest).
  { intros q Hq. rewrite !Hcabs; [done|by left|by right]. }
  fold commons in HR, Hpre, Hgreatest.
  rewrite (Hcabs c0) in HR by (by left).
  assert (HRgood : Forall good_component R).
  { apply (prefix_good R (posixpath.components c0)); [|apply components_good].
    apply Hpre. by left. }
  exists (render b R). split; [exact HR|]. split; [|by apply render_canonical].
  split.
  - intros f Hf. pose proof Hf as Hf'.
    apply elem_of_all_files in Hf as (sf & Hsf & Hfsf).
    apply list_elem_of_lookup in Hsf as [i Hi].
    destruct (Forall2_lookup_l _ _ _ _ _ Hall Hi)
      as (c & Hc & r & -> & Hr & Hgcp & _).
    split; [by rewrite isabs_render, Hb|].
    rewrite components_render by done.
    transitivity r; [|by apply Hgcp].
    rewrite <- (components_render b r Hr).
    apply Hpre. by eapply list_elem_of_lookup_2.
  - intros a Ha. split.
    + destruct (Ha f0 Hf0_in) as [-> _]. by rewrite isabs_render.
    + rewrite components_render by done. apply Hgreatest.
      intros c Hc. apply list_elem_of_lookup in Hc as [i Hi].
      destruct (Forall2_lookup_r _ _ _ _ _ Hall Hi)
        as (sf & Hsf & r & -> & Hr & _ & Hmax).
      rewrite components_render by done. apply Hmax.
      intros f Hf. apply Ha, elem_of_all_files. exists sf.
      split; [by eapply list_elem_of_lookup_2|done].
Qed.

(** C5, as amended: for every non-empty collection of subjects each of
    which has at least one file, the files being all absolute or all
    relative paths, [_get_common_path] returns the longest common path
    ancestor of the union of all sequence files and, when present, all
    ground-truth files of all subjects, written with single separators. In
    particular, for the file set [/a/b/c.txt], [/a/b/d.txt], be it of one
    subject or of two, it returns [/a/b], and the relative paths which
    [on_image_file] then fills for these files are [c.txt] and [d.txt]. *)
Theorem get_common_path_is_longest_common_ancestor :
  forall (cwd : string) (subject_files : list SubjectFile),
    subject_files <> [] ->
    (forall sf, sf ∈ subject_files -> files_of sf <> []) ->
    (forall f g, f ∈ all_files subject_files -> g ∈ all_files subject_files ->
                 posixpath.isabs f = posixpath.isabs g) ->
    (exists root,
        WriteFilesCallback._get_common_path subject_files = Return root
        /\ longest_common_ancestor root (all_files subject_files)
        /\ canonical root)
    /\ all_files [example_subject] = ["/a/b/c.txt"; "/a/b/d.txt"]%string
    /\ WriteFilesCallback._get_common_path [example_subject]
       = Return "/a/b"%string
    /\ all_files example_two_subjects = ["/a/b/c.txt"; "/a/b/d.txt"]%string
    /\ WriteFilesCallback._get_common_path example_two_subjects
       = Return "/a/b"%string
    /\ run (WriteFilesCallback.object cwd) example_files_events
         (WriteFilesCallback.__init__ [])
       = (Return tt,
          {| WriteFilesCallback.writer :=
               [ Write "meta/file_root" (VStr "/a/b") (Some (dtype_named "str"));
                 Reserve "meta/sequence_files" [1; 2]%nat (dtype_named "str");
                 Fill "meta/sequence_files" (VStr "c.txt")
                   (WriteFilesCallback.IndexExpression2 0 0);
                 Fill "meta/sequence_files" (VStr "d.txt")
                   (WriteFilesCallback.IndexExpression2 0 1) ];
             WriteFilesCallback.file_root := Some "/a/b"%string |}).
Proof.
  intros cwd sfs Hsfs Hne Habs.
  split; [by apply get_common_path_spec|].
  repeat split; reflexivity.
Qed.

Lemma get_common_path_is_longest_common_ancestor_witness :
  exists root,
    WriteFilesCallback._get_common_path example_two_subjects = Return root
    /\ longest_common_ancestor root (all_files example_two_subjects)
    /\ canonical root.
Proof.
  destruct (get_common_path_is_longest_common_ancestor "/" example_two_subjects)
    as [H _]; [done| | |exact H].
  - intros sf Hsf.
    repeat (apply elem_of_cons in Hsf as [->|Hsf]; [done|]).
    by apply elem_of_nil in Hsf.
  - intros f g Hf Hg.
    repeat (apply elem_of_cons in Hf as [->|Hf];
            [repeat (apply elem_of_cons in Hg as [->|Hg]; [reflexivity|]);
             by apply elem_of_nil in Hg|]).
    by apply elem_of_nil in Hf.
Defined.

(** C5 as stated, for every non-empty collection, fails. A subject whose
    two files are an absolute and a relative path makes [_get_common_path]
    raise instead of return; and so does a subject without files next to a
    subject whose files have the longest common ancestor [/a/b]. *)
Lemma get_common_path_is_longest_common_ancestor_counterexample :
  [mixed_subject] <> []
  /\ WriteFilesCallback._get_common_path [mixed_subject]
     = Raise (ValueError "Can't mix absolute and relative paths")
  /\ ~ (exists root,
          WriteFilesCallback._get_common_path [mixed_subject] = Return root
          /\ longest_common_ancestor root (all_files [mixed_subject]))
  /\ all_files [example_subject; empty_subject]
     = ["/a/b/c.txt"; "/a/b/d.txt"]%string
  /\ WriteFilesCallback._get_common_path [example_subject; empty_subject]
     = Raise (ValueError "commonpath() arg is an empty sequence").
Proof.
  split; [done|]. split; [reflexivity|]. split; [|split; reflexivity].
  intros (root & Hroot & _). discriminate Hroot.
Qed.

(** ** [normpath], [abspath] and [relpath] *)

Lemma split_app_sep_any a b :
  posixpath.split (a ++ String "/" b)%string
  = posixpath.split a ++ posixpath.split b.
Proof.
  induction a as [|c a IH]; cbn; [done|].
  destruct (Ascii.eqb c "/"); [by rewrite IH|].
  rewrite IH. pose proof (split_not_nil a) as Hne.
  by destruct (posixpath.split a).
Qed.

Lemma components_app_sep a b :
  posixpath.components (a ++ String "/" b)%string
  = posixpath.components a ++ posixpath.components b.
Proof.
  unfold posixpath.components. by rewrite split_app_sep_any, List.filter_app.
Qed.

Lemma split_slashes n t :
  posixpath.split (string_of_list_ascii (replicate n "/"%char) ++ t)%string
  = replicate n ""%string ++ posixpath.split t.
Proof. induction n as [|n IH]; cbn; [done|]. by rewrite IH. Qed.

Lemma path_items_slashes n t :
  path_items (string_of_list_ascii (replicate n "/"%char) ++ t)%string
  = path_items t.
Proof.
  unfold path_items. rewrite split_slashes, List.filter_app.
  replace (List.filter _ (replicate n ""%string)) with (@nil string); [done|].
  induction n as [|n IH]; cbn; done.
Qed.

Lemma good_nonempty c :
  good_component c -> negb (String.eqb c "") = true.
Proof. intros [_ H]. unfold posixpath.proper_component in H. by apply andb_true_iff in H as [H _]. Qed.

Lemma path_items_join comps :
  comps <> [] -> Forall good_component comps ->
  path_items (posixpath.join_sep comps) = comps.
Proof.
  intros Hne Hgood. unfold path_items.
  rewrite split_join; [|done|by apply good_no_slash].
  apply filter_all. eapply Forall_impl; [exact Hgood|]. apply good_nonempty.
Qed.

Lemma join_sep_not_empty comps :
  comps <> [] -> Forall good_component comps ->
  String.eqb (posixpath.join_sep comps) "" = false.
Proof.
  intros Hne Hgood. destruct comps as [|x comps]; [done|].
  inversion Hgood as [|? ? Hx _]; subst. apply good_nonempty in Hx.
  destruct x as [|c x]; [done|]. by destruct comps.
Qed.

Lemma slashes_app_not_empty n t :
  String.eqb t "" = false ->
  String.eqb (string_of_list_ascii (replicate n "/"%char) ++ t)%string "" = false.
Proof. intros Ht. by destruct n. Qed.

Lemma proper_component_negb c :
  String.eqb c "" || String.eqb c "." = negb (posixpath.proper_component c).
Proof.
  unfold posixpath.proper_component.
  by destruct (String.eqb c ""), (String.eqb c ".").
Qed.

Lemma fold_norm_components initial l :
  forall acc,
    fold_left (posixpath.norm_step initial) l acc
    = fold_left (posixpath.norm_step initial)
        (List.filter posixpath.proper_component l) acc.
Proof.
  induction l as [|c l IH]; intros acc; cbn [fold_left List.filter]; [done|].
  destruct (posixpath.proper_component c) eqn:Hc; cbn [fold_left].
  - apply IH.
  - rewrite <- IH. f_equal. unfold posixpath.norm_step.
    by rewrite proper_component_negb, Hc.
Qed.

Lemma norm_step_initial i1 i2 acc c :
  Nat.eqb i1 0 = Nat.eqb i2 0 ->
  posixpath.norm_step i1 acc c = posixpath.norm_step i2 acc c.
Proof. intros H. unfold posixpath.norm_step. by rewrite H. Qed.

Lemma fold_norm_initial i1 i2 l :
  Nat.eqb i1 0 = Nat.eqb i2 0 ->
  forall acc,
    fold_left (posixpath.norm_step i1) l acc
    = fold_left (posixpath.norm_step i2) l acc.
Proof.
  intros H. induction l as [|c l IH]; intros acc; cbn; [done|].
  by rewrite IH, (norm_step_initial i1 i2).
Qed.

Lemma Forall_removelast {A} (P : A -> Prop) l :
  Forall P l -> Forall P (removelast l).
Proof.
  induction 1 as [|x l Hx Hl IH]; cbn; [constructor|].
  destruct l; [constructor|]. by constructor.
Qed.

Lemma fold_norm_good initial l :
  Forall good_component l ->
  forall acc,
    Forall good_component acc ->
    Forall good_component (fold_left (posixpath.norm_step initial) l acc).
Proof.
  induction 1 as [|c l Hc Hl IH]; intros acc Hacc; cbn [fold_left]; [done|].
  apply IH. unfold posixpath.norm_step.
  repeat match goal with |- context [if ?b then _ else _] => destruct b end;
    try done.
  - apply Forall_app. split; [done|]. by constructor.
  - by apply Forall_removelast.
Qed.

Lemma initial_slashes_zero q :
  Nat.eqb (posixpath.initial_slashes q) 0 = negb (posixpath.isabs q).
Proof.
  unfold posixpath.initial_slashes. destruct (posixpath.isabs q); [|done].
  by destruct (_ && _).
Qed.

Lemma normpath_unfold q :
  posixpath.normpath q
  = let initial := posixpath.initial_slashes q in
    let comps := fold_left (posixpath.norm_step initial) (posixpath.split q) [] in
    let path :=
      (string_of_list_ascii (replicate initial "/"%char)
       ++ posixpath.join_sep comps)%string in
    if String.eqb path "" then "."%string else path.
Proof.
  unfold posixpath.normpath. destruct (String.eqb q "") eqn:Hq; [|done].
  apply String.eqb_eq in Hq. by subst.
Qed.

(** The items of a normalised path are determined by the components of
    the path and by whether it is absolute. *)
Lemma path_items_normpath q :
  path_items (posixpath.normpath q)
  = match fold_left (posixpath.norm_step (if posixpath.isabs q then 1 else 0)%nat)
            (posixpath.components q) [] with
    | [] => if posixpath.isabs q then [] else ["."%string]
    | comps => comps
    end.
Proof.
  rewrite normpath_unfold. cbv zeta.
  rewrite fold_norm_components.
  rewrite (fold_norm_initial (posixpath.initial_slashes q)
             (if posixpath.isabs q then 1 else 0)%nat).
  2:{ rewrite initial_slashes_zero. by destruct (posixpath.isabs q). }
  fold (posixpath.components q).
  pose proof (fold_norm_good (if posixpath.isabs q then 1 else 0)%nat
                (posixpath.components q) (components_good q) []
                (List.Forall_nil _))
    as Hgood.
  destruct (fold_left _ (posixpath.components q) []) as [|x comps] eqn:Hcomps.
  - cbn [posixpath.join_sep String.concat]. unfold posixpath.initial_slashes.
    destruct (posixpath.isabs q); [|reflexivity].
    by destruct (_ && _).
  - rewrite slashes_app_not_empty by (by apply join_sep_not_empty).
    rewrite path_items_slashes. by apply path_items_join.
Qed.

Lemma path_items_normpath_ext q1 q2 :
  posixpath.isabs q1 = posixpath.isabs q2 ->
  posixpath.components q1 = posixpath.components q2 ->
  path_items (posixpath.normpath q1) = path_items (posixpath.normpath q2).
Proof. intros Habs Hcomps. by rewrite !path_items_normpath, Habs, Hcomps. Qed.

Lemma endswith_sep_inv s :
  posixpath.endswith_sep s = true -> exists s', s = (s' ++ "/")%string.
Proof.
  induction s as [|c s IH]; cbn; [done|].
  destruct s as [|c' s].
  - intros ->%Ascii.eqb_eq. by exists ""%string.
  - intros H. destruct (IH H) as [s' ->]. by exists (String c s').
Qed.

Lemma string_app_assoc (a b c : string) :
  ((a ++ b) ++ c = a ++ (b ++ c))%string.
Proof. induction a as [|x a IH]; cbn; [done|]. by rewrite IH. Qed.

Lemma components_join_step cwd x :
  posixpath.isabs x = false ->
  posixpath.components (posixpath.join_step cwd x)
  = posixpath.components cwd ++ posixpath.components x.
Proof.
  intros Hx. unfold posixpath.join_step. rewrite Hx.
  destruct (String.eqb cwd "") eqn:Hcwd.
  { apply String.eqb_eq in Hcwd. by subst. }
  cbn [orb].
  destruct (posixpath.endswith_sep cwd) eqn:Hend.
  - apply endswith_sep_inv in Hend as [c' ->].
    rewrite string_app_assoc. cbn [String.append].
    rewrite !components_app_sep. cbn [posixpath.components posixpath.split
      List.filter posixpath.proper_component String.eqb negb andb].
    by rewrite app_nil_r.
  - apply components_app_sep.
Qed.

Lemma isabs_join_step cwd x :
  posixpath.isabs x = false ->
  posixpath.isabs (posixpath.join_step cwd x) = posixpath.isabs cwd.
Proof.
  intros Hx. unfold posixpath.join_step. rewrite Hx.
  destruct cwd as [|c cwd]; [by cbn|]. cbn [String.eqb orb].
  by destruct (posixpath.endswith_sep _).
Qed.

Lemma path_items_abspath_ext cwd p1 p2 :
  posixpath.isabs p1 = posixpath.isabs p2 ->
  posixpath.components p1 = posixpath.components p2 ->
  path_items (posixpath.abspath cwd p1) = path_items (posixpath.abspath cwd p2).
Proof.
  intros Habs Hcomps. unfold posixpath.abspath. rewrite <- Habs.
  destruct (posixpath.isabs p1) eqn:H1.
  - apply path_items_normpath_ext; congruence.
  - cbn [posixpath.join fold_left]. apply path_items_normpath_ext.
    + rewrite !isabs_join_step; congruence.
    + rewrite !components_join_step; congruence.
Qed.

Lemma common_loop_same l :
  posixpath.common_loop l l 0 l = Return l.
Proof.
  destruct (common_loop_spec l [] l (list_le_refl l))
    as (r & Hr & Hpre & _ & Hgreatest).
  cbn [app length] in Hr. rewrite Hr. f_equal.
  apply prefix_length_eq; [done|].
  apply prefix_length, Hgreatest; done.
Qed.

Lemma commonprefix_same l : posixpath.commonprefix [l; l] = Return l.
Proof.
  unfold posixpath.commonprefix, posixpath.py_min, posixpath.py_max.
  cbn [fold_left]. destruct (posixpath.list_ltb l l); apply common_loop_same.
Qed.

(** A path relative to a start which names the same place is [.]. *)
Lemma relpath_same_place cwd path start :
  path <> ""%string ->
  path_items (posixpath.abspath cwd start) = path_items (posixpath.abspath cwd path) ->
  posixpath.relpath cwd path (Some start) = Return "."%string.
Proof.
  intros Hpath Hsame. unfold posixpath.relpath.
  apply String.eqb_neq in Hpath. rewrite Hpath. cbv zeta.
  fold (path_items (posixpath.abspath cwd start)).
  fold (path_items (posixpath.abspath cwd path)).
  rewrite Hsame, commonprefix_same. cbn [obind].
  by rewrite Nat.sub_diag, drop_all.
Qed.

Lemma commonpath_single f :
  posixpath.commonpath_tuple [f]
  = Return (render (posixpath.isabs f) (posixpath.components f)).
Proof.
  unfold posixpath.commonpath_tuple. cbn [forallb map].
  unfold posixpath.py_min, posixpath.py_max. cbn [fold_left].
  by rewrite common_loop_same.
Qed.

(** The root of a collection with a single file is that file. *)
Lemma get_common_path_single sf f :
  files_of sf = [f] ->
  WriteFilesCallback._get_common_path [sf]
  = Return (render (posixpath.isabs f) (posixpath.components f)).
Proof.
  intros Hf. unfold WriteFilesCallback._get_common_path. cbn [omapM].
  assert (Hcommon : WriteFilesCallback.get_subject_common sf
                    = posixpath.commonpath_tuple [f]).
  { change (posixpath.commonpath_tuple [f]) with (posixpath.commonpath [f]).
    unfold WriteFilesCallback.get_subject_common. f_equal.
    rewrite <- Hf. unfold files_of.
    destruct (get_gts sf); [done|by rewrite app_nil_r]. }
  rewrite Hcommon, commonpath_single. cbn [obind].
  unfold posixpath.commonpath_of_generator. rewrite commonpath_single.
  by rewrite isabs_render, components_render by apply components_good.
Qed.

Lemma relpath_to_own_root cwd f :
  f <> ""%string ->
  posixpath.relpath cwd f
    (Some (render (posixpath.isabs f) (posixpath.components f)))
  = Return "."%string.
Proof.
  intros Hf. apply relpath_same_place; [done|].
  apply path_items_abspath_ext.
  - apply isabs_render, components_good.
  - apply components_render, components_good.
Qed.

Lemma WriteFilesCallback_on_start_root start s sfs root :
  p_subject_files start = Some sfs ->
  WriteFilesCallback._get_common_path sfs = Return root ->
  WriteFilesCallback.file_root (snd (WriteFilesCallback.on_start start s))
  = Some root.
Proof.
  intros Hsfs Hroot. unfold WriteFilesCallback.on_start.
  rewrite Hsfs. run_hook. rewrite Hroot.
  unfold WriteFilesCallback.set_file_root, WriteFilesCallback.emit. run_hook.
  destruct (p_sequence_names start); [|done]. cbn.
  destruct (p_has_gt start) as [[|]|]; [|done|done]. cbn.
  by destruct (p_gt_names start).
Qed.

(** C10: let the collection consist of one subject with one sequence file
    [f] (a non-empty path) and no ground-truth files. Then the root which
    [on_start] computes and stores is [f] itself, with all of its
    components, and not its containing directory: it is the path of the
    components of [f] written with single separators, hence the very
    string [f] when [f] is written that way. The [on_image_file] which
    follows for this file fills the relative path [.] into
    [meta/sequence_files] at cell (0, 0). *)
Theorem WriteFilesCallback_single_file_root_is_the_file :
  forall (cwd : string) (start : params) (sf : SubjectFile)
         (name f : string) (s : WriteFilesCallback.self),
    f <> ""%string ->
    p_subject_files start = Some [sf] ->
    get_sequences sf = [(name, f)] ->
    match get_gts sf with Some gts => gts = [] | None => True end ->
    let root := render (posixpath.isabs f) (posixpath.components f) in
    WriteFilesCallback._get_common_path [sf] = Return root
    /\ WriteFilesCallback.file_root
         (snd (WriteFilesCallback.on_start start s)) = Some root
    /\ posixpath.isabs root = posixpath.isabs f
    /\ posixpath.components root = posixpath.components f
    /\ (canonical f -> root = f)
    /\ forall (s1 : WriteFilesCallback.self) (event : params),
         WriteFilesCallback.file_root s1 = Some root ->
         p_file event = Some f ->
         p_subject_index event = Some 0 ->
         p_sequence_index event = Some 0 ->
         WriteFilesCallback.on_image_file cwd event s1
         = (Return tt,
            {| WriteFilesCallback.writer :=
                 WriteFilesCallback.writer s1
                 ++ [Fill "meta/sequence_files" (VStr ".")
                       (WriteFilesCallback.IndexExpression2 0 0)];
               WriteFilesCallback.file_root := Some root |}).
Proof.
  intros cwd start sf name f s Hf Hsfs Hseq Hgts root.
  assert (Hfiles : files_of sf = [f]).
  { unfold files_of. rewrite Hseq. destruct (get_gts sf) as [gts|]; by subst. }
  assert (Hroot : WriteFilesCallback._get_common_path [sf] = Return root).
  { by apply get_common_path_single. }
  split; [exact Hroot|]. split.
  { by apply (WriteFilesCallback_on_start_root start s [sf]). }
  split; [apply isabs_render, components_good|].
  split; [apply components_render, components_good|].
  split; [by intros ->|].
  intros s1 event Hs1 Hfile Hi Hj.
  unfold WriteFilesCallback.on_image_file.
  rewrite Hfile, Hi, Hj. run_hook. rewrite Hs1.
  fold root. subst root. rewrite (relpath_to_own_root cwd f Hf).
  unfold WriteFilesCallback.emit. run_hook. by rewrite Hs1.
Qed.

Lemma WriteFilesCallback_single_file_root_is_the_file_witness :
  WriteFilesCallback.file_root
    (snd (WriteFilesCallback.on_start single_file_start
            (WriteFilesCallback.__init__ [])))
  = Some "/data/s1/t1.nii"%string
  /\ WriteFilesCallback.on_image_file "/home/u" single_file_event
       {| WriteFilesCallback.writer := [];
          WriteFilesCallback.file_root := Some "/data/s1/t1.nii"%string |}
     = (Return tt,
        {| WriteFilesCallback.writer :=
             [Fill "meta/sequence_files" (VStr ".")
                (WriteFilesCallback.IndexExpression2 0 0)];
           WriteFilesCallback.file_root := Some "/data/s1/t1.nii"%string |}).
Proof.
  destruct (WriteFilesCallback_single_file_root_is_the_file "/home/u"
              single_file_start single_file_subject "T1" "/data/s1/t1.nii"
              (WriteFilesCallback.__init__ []))
    as (_ & Hroot & _ & _ & _ & Hfill); [done|done|done|done|].
  split; [exact Hroot|].
  apply (Hfill {| WriteFilesCallback.writer := [];
                  WriteFilesCallback.file_root := Some "/data/s1/t1.nii"%string |}
           single_file_event); reflexivity.
Defined.

(** * Further properties of the module *)

(** ** ComposeCallback: how compositions compose *)

Lemma for_app {St A} (l1 l2 : list A) (body : A -> M St unit) (s : St) :
  for_ (l1 ++ l2) body s = bind (for_ l1 body) (fun _ => for_ l2 body) s.
Proof.
  revert s. induction l1 as [|x l1 IH]; intros s; cbn [app for_].
  - reflexivity.
  - unfold bind. destruct (body x s) as [[[]|e] s1]; [|reflexivity].
    rewrite IH. reflexivity.
Qed.

(** X1: a [ComposeCallback] over the children [cs1 ++ cs2] behaves, on
    every hook, as the [ComposeCallback] over [cs1] followed, when that one
    returns, by the [ComposeCallback] over [cs2]; when the first raises, the
    second is not run and the state is the one the first left. *)
Theorem ComposeCallback_app :
  forall (P St : Type) (cs1 cs2 : list (callback P St)) (h : hook)
         (params : P) (s : St),
    invoke h (ComposeCallback.object (cs1 ++ cs2)) params s
    = match invoke h (ComposeCallback.object cs1) params s with
      | (Return _, s1) => invoke h (ComposeCallback.object cs2) params s1
      | (Raise e, s1) => (Raise e, s1)
      end.
Proof.
  intros P St cs1 cs2 h params s.
  rewrite !ComposeCallback_invoke, for_app. reflexivity.
Qed.

(** X2: nesting is flattening. A [ComposeCallback] whose children are
    themselves [ComposeCallback]s over the lists [css] behaves, on every
    hook, bundle and state, as one [ComposeCallback] over the concatenation
    of these lists; over no child at all it behaves as a plain [Callback],
    and over a single child as that child. *)
Theorem ComposeCallback_flatten :
  forall (P St : Type) (css : list (list (callback P St))) (c : callback P St)
         (h : hook) (params : P) (s : St),
    invoke h (ComposeCallback.object (map ComposeCallback.object css)) params s
    = invoke h (ComposeCallback.object (concat css)) params s
    /\ invoke h (ComposeCallback.object []) params s
       = invoke h Callback.object params s
    /\ invoke h (ComposeCallback.object [c]) params s = invoke h c params s.
Proof.
  intros P St css c h params s. repeat apply conj.
  - rewrite (ComposeCallback_invoke (concat css)).
    rewrite (ComposeCallback_invoke (map _ css)).
    revert s. induction css as [|cs css IH]; intros s; cbn [map concat for_].
    + reflexivity.
    + rewrite for_app. unfold bind. rewrite ComposeCallback_invoke.
      destruct (for_ cs _ s) as [[[]|e] s1]; [apply IH|reflexivity].
  - by destruct h.
  - rewrite ComposeCallback_invoke. cbn [for_]. unfold bind, ret.
    by destruct (invoke h c params s) as [[[]|e] s1].
Qed.

(** ** WriteDataCallback: the keys as strings *)

Lemma fold_value_acc l :
  forall acc,
    fold_left (fun acc c => (10 * acc + Py.digit_value c)%nat) l acc
    = (acc * 10 ^ length l + Py.value_of_digits l)%nat.
Proof.
  unfold Py.value_of_digits.
  induction l as [|c l IH]; intros acc; cbn [fold_left length].
  - cbn. lia.
  - rewrite (IH (10 * acc + Py.digit_value c)%nat).
    rewrite (IH (10 * 0 + Py.digit_value c)%nat).
    rewrite Nat.pow_succ_r'. lia.
Qed.

Lemma value_of_digits_cons c l :
  Py.value_of_digits (c :: l)
  = (Py.digit_value c * 10 ^ length l + Py.value_of_digits l)%nat.
Proof.
  unfold Py.value_of_digits at 1. cbn [fold_left].
  rewrite fold_value_acc. lia.
Qed.

Lemma is_digit_value c :
  Py.is_digit c = true ->
  (Py.digit_value c <= 9)%nat /\ nat_of_ascii c = (48 + Py.digit_value c)%nat.
Proof.
  unfold Py.is_digit, Py.digit_value.
  intros [H1 H2]%andb_true_iff.
  apply Nat.leb_le in H1, H2. lia.
Qed.

Lemma value_of_digits_bound l :
  forallb Py.is_digit l = true ->
  (Py.value_of_digits l < 10 ^ length l)%nat.
Proof.
  induction l as [|c l IH]; cbn [forallb length]; [cbn; lia|].
  intros [Hc Hl]%andb_true_iff. rewrite value_of_digits_cons.
  destruct (is_digit_value c Hc) as [Hd _]. specialize (IH Hl).
  rewrite Nat.pow_succ_r'. nia.
Qed.

Lemma ascii_compare_nat c1 c2 :
  Ascii.compare c1 c2 = (nat_of_ascii c1 ?= nat_of_ascii c2)%nat.
Proof.
  unfold Ascii.compare, nat_of_ascii. by rewrite N2Nat.inj_compare.
Qed.

(** Digit strings of one width are ordered as the numbers they denote. *)
Lemma digit_strings_ordered l1 :
  forall l2,
    length l1 = length l2 ->
    forallb Py.is_digit l1 = true ->
    forallb Py.is_digit l2 = true ->
    (Py.value_of_digits l1 < Py.value_of_digits l2)%nat ->
    String.compare (string_of_list_ascii l1) (string_of_list_ascii l2) = Lt.
Proof.
  induction l1 as [|c1 l1 IH]; intros [|c2 l2] Hlen H1 H2 Hlt;
    try discriminate Hlen.
  - cbn in Hlt. lia.
  - cbn [forallb] in H1, H2.
    apply andb_true_iff in H1 as [Hc1 H1], H2 as [Hc2 H2].
    injection Hlen as Hlen.
    rewrite !value_of_digits_cons, <- Hlen in Hlt.
    pose proof (value_of_digits_bound l1 H1) as Hb1.
    pose proof (value_of_digits_bound l2 H2) as Hb2. rewrite <- Hlen in Hb2.
    destruct (is_digit_value c1 Hc1) as [_ Hn1].
    destruct (is_digit_value c2 Hc2) as [_ Hn2].
    cbn [string_of_list_ascii String.compare]. rewrite ascii_compare_nat.
    destruct (nat_of_ascii c1 ?= nat_of_ascii c2)%nat eqn:Hcmp.
    + apply Nat.compare_eq_iff in Hcmp.
      apply IH; try done.
      assert (Py.digit_value c1 = Py.digit_value c2) as Heq by lia.
      rewrite Heq in Hlt. lia.
    + reflexivity.
    + apply Nat.compare_gt_iff in Hcmp. exfalso. nia.
Qed.

Lemma string_compare_app p a b :
  String.compare (p ++ a)%string (p ++ b)%string = String.compare a b.
Proof.
  induction p as [|c p IH]; cbn; [done|]. by rewrite ascii_compare_refl.
Qed.

Lemma index_digits sfs i :
  0 <= i ->
  WriteDataCallback.index_str sfs i
  = string_of_list_ascii
      (replicate
         (String.length (Py.str (Z.of_nat (length sfs)))
          - length (Py.digits (Z.to_nat i))) "0"%char
       ++ Py.digits (Z.to_nat i)).
Proof. intros Hi. unfold WriteDataCallback.index_str. by apply format_zero_padded_nonneg. Qed.

Lemma str_length_nonneg i :
  0 <= i -> String.length (Py.str i) = length (Py.digits (Z.to_nat i)).
Proof.
  intros Hi. rewrite <- (Z2Nat.id i) at 1 by done.
  by rewrite str_of_nat, string_of_list_ascii_length.
Qed.

Lemma padded_digits_are_digits k n :
  forallb Py.is_digit (replicate k "0"%char ++ Py.digits n) = true.
Proof.
  rewrite forallb_app, digits_are_digits, andb_true_r.
  induction k as [|k IH]; cbn; done.
Qed.

(** X3: zero padding makes the keys sort as the subjects do. For subject
    indices [0 <= i < j < N] the key [data/sequences/<index of i>] comes
    strictly before [data/sequences/<index of j>] in the order of strings,
    and so for [data/gts]. *)
Theorem WriteDataCallback_keys_sorted_by_subject :
  forall (subject_files : list SubjectFile) (i j : Z),
    0 <= i < j ->
    j < Z.of_nat (length subject_files) ->
    String.compare
      ("data/sequences/" ++ WriteDataCallback.index_str subject_files i)%string
      ("data/sequences/" ++ WriteDataCallback.index_str subject_files j)%string
    = Lt
    /\ String.compare
         ("data/gts/" ++ WriteDataCallback.index_str subject_files i)%string
         ("data/gts/" ++ WriteDataCallback.index_str subject_files j)%string
       = Lt.
Proof.
  intros sfs i j Hij Hj.
  assert (Hcmp : String.compare (WriteDataCallback.index_str sfs i)
                   (WriteDataCallback.index_str sfs j) = Lt).
  { rewrite !index_digits by lia.
    set (width := String.length (Py.str (Z.of_nat (length sfs)))).
    assert (Hw : forall k, 0 <= k < Z.of_nat (length sfs) ->
              (length (Py.digits (Z.to_nat k)) <= width)%nat).
    { intros k Hk. subst width.
      rewrite str_of_nat, string_of_list_ascii_length.
      apply digits_length_mono. lia. }
    apply digit_strings_ordered.
    - rewrite !length_app, !length_replicate.
      pose proof (Hw i ltac:(lia)). pose proof (Hw j ltac:(lia)). lia.
    - apply padded_digits_are_digits.
    - apply padded_digits_are_digits.
    - rewrite !value_of_digits_zeros, !value_of_digits_digits. lia. }
  split; by rewrite string_compare_app.
Qed.

Lemma WriteDataCallback_keys_sorted_by_subject_witness :
  String.compare
    ("data/sequences/" ++ WriteDataCallback.index_str (replicate 12 example_subject) 9)%string
    ("data/sequences/" ++ WriteDataCallback.index_str (replicate 12 example_subject) 10)%string
  = Lt.
Proof.
  apply (WriteDataCallback_keys_sorted_by_subject
           (replicate 12 example_subject) 9 10); cbn; lia.
Defined.

(** X4: the index string is never truncated and always reads back. For
    every subject index [i >= 0], within the subject count or beyond it,
    the string has as many characters as the wider of [len(str(N))] and
    [str(i)], consists of digits, and denotes [i]; hence two different
    non-negative indices never give the same key. *)
Theorem WriteDataCallback_index_str_reads_back :
  forall (subject_files : list SubjectFile) (i : Z),
    0 <= i ->
    let width := String.length (Py.str (Z.of_nat (length subject_files))) in
    let index := WriteDataCallback.index_str subject_files i in
    String.length index = Nat.max width (String.length (Py.str i))
    /\ forallb Py.is_digit (list_ascii_of_string index) = true
    /\ Z.of_nat (Py.value_of_digits (list_ascii_of_string index)) = i
    /\ forall j, 0 <= j ->
         WriteDataCallback.index_str subject_files j = index -> j = i.
Proof.
  intros sfs i Hi width index.
  assert (Hval : forall k, 0 <= k ->
            Py.value_of_digits
              (list_ascii_of_string (WriteDataCallback.index_str sfs k))
            = Z.to_nat k).
  { intros k Hk. rewrite index_digits by done.
    rewrite list_ascii_of_string_of_list_ascii, value_of_digits_zeros.
    apply value_of_digits_digits. }
  repeat apply conj.
  - subst index. rewrite index_digits by done. fold width.
    rewrite string_of_list_ascii_length, length_app, length_replicate.
    rewrite (str_length_nonneg i) by done. lia.
  - subst index. rewrite index_digits by done.
    rewrite list_ascii_of_string_of_list_ascii. apply padded_digits_are_digits.
  - subst index. rewrite Hval by done. lia.
  - intros j Hj Heq.
    apply (f_equal (fun s => Py.value_of_digits (list_ascii_of_string s))) in Heq.
    subst index. rewrite !Hval in Heq by done. lia.
Qed.

Lemma WriteDataCallback_index_str_reads_back_witness :
  WriteDataCallback.index_str (replicate 12 example_subject) 123 = "123"%string
  /\ String.length (WriteDataCallback.index_str (replicate 12 example_subject) 123)
     = Nat.max 2 3.
Proof.
  split; [reflexivity|].
  destruct (WriteDataCallback_index_str_reads_back
              (replicate 12 example_subject) 123) as (Hlen & _); [lia|].
  exact Hlen.
Defined.

(** ** WriteDataCallback: missing keys *)

(** X5: [on_subject_end] returns exactly when the bundle carries
    [subject_files], [subject_index], [images], [has_gt] and, if [has_gt] is
    true, [labels]. Otherwise it raises [KeyError] for the first of these
    keys which is missing, in this order. A missing [subject_files],
    [subject_index] or [images] leaves the writer untouched; a missing
    [has_gt] or [labels] is only noticed after the images have been
    written, and that write stays. *)
Theorem WriteDataCallback_on_subject_end_missing_keys :
  forall (params : params) (s : WriteDataCallback.self),
    (fst (WriteDataCallback.on_subject_end params s) = Return tt
     <-> is_Some (p_subject_files params)
         /\ is_Some (p_subject_index params)
         /\ is_Some (p_images params)
         /\ (p_has_gt params = Some false
             \/ p_has_gt params = Some true /\ is_Some (p_labels params)))
    /\ (forall e,
          fst (WriteDataCallback.on_subject_end params s) = Raise e ->
          (e = KeyError "subject_files" /\ p_subject_files params = None
           \/ e = KeyError "subject_index" /\ p_subject_index params = None
           \/ e = KeyError "images" /\ p_images params = None)
          /\ snd (WriteDataCallback.on_subject_end params s) = s
          \/ (e = KeyError "has_gt" /\ p_has_gt params = None
              \/ e = KeyError "labels" /\ p_has_gt params = Some true
                 /\ p_labels params = None)
             /\ exists subject_files subject_index images,
                  p_subject_files params = Some subject_files
                  /\ p_subject_index params = Some subject_index
                  /\ p_images params = Some images
                  /\ WriteDataCallback.writer
                       (snd (WriteDataCallback.on_subject_end params s))
                     = WriteDataCallback.writer s
                       ++ [Write ("data/sequences/"
                                  ++ WriteDataCallback.index_str subject_files
                                       subject_index)%string
                             (VArray images) None]).
Proof.
  intros params s. unfold WriteDataCallback.on_subject_end.
  destruct (p_subject_files params) as [sfs|]; run_hook.
  2:{ split.
      - split; [done|]. by intros ([? ?] & _).
      - intros e [= <-]. left. split; [by left|done]. }
  destruct (p_subject_index params) as [i|]; run_hook.
  2:{ split.
      - split; [done|]. by intros (_ & [? ?] & _).
      - intros e [= <-]. left. split; [right; by left|done]. }
  destruct (p_images params) as [imgs|]; run_hook.
  2:{ split.
      - split; [done|]. by intros (_ & _ & [? ?] & _).
      - intros e [= <-]. left. split; [right; by right|done]. }
  unfold WriteDataCallback.writer_write. run_hook.
  destruct (p_has_gt params) as [[|]|]; run_hook.
  - destruct (p_labels params) as [lbls|]; run_hook.
    + split; [|done]. split; [|done]. intros _.
      repeat split; try by eexists. right. split; [done|by eexists].
    + split.
      * split; [done|]. intros (_ & _ & _ & [?|[_ [? ?]]]); done.
      * intros e [= <-]. right. split; [right; done|].
        by exists sfs, i, imgs.
  - split; [|done]. split; [|done]. intros _.
    repeat split; try by eexists. by left.
  - split.
    + split; [done|]. intros (_ & _ & _ & [?|[? _]]); done.
    + intros e [= <-]. right. split; [left; done|].
      by exists sfs, i, imgs.
Qed.

(** ** WriteNamesCallback *)

(** X6: [WriteNamesCallback.on_start] needs the names only, no subject
    files. With [sequence_names] and [has_gt] in the bundle (and [gt_names]
    when [has_gt] is true) it returns and issues exactly: one [write] of
    the sequence names under [meta/sequence_names] with dtype ['str'],
    followed, if and only if [has_gt] is true, by one [write] of the
    ground-truth names under [meta/gt_names]. Every other hook of this
    callback does nothing. *)
Theorem WriteNamesCallback_on_start_writes :
  forall (params : params) (s : WriteNamesCallback.self)
         (sequence_names gt_names : list string) (has_gt : bool),
    p_sequence_names params = Some sequence_names ->
    p_has_gt params = Some has_gt ->
    (has_gt = true -> p_gt_names params = Some gt_names) ->
    WriteNamesCallback.on_start params s
    = (Return tt,
       {| WriteNamesCallback.writer :=
            WriteNamesCallback.writer s
            ++ Write "meta/sequence_names" (VStrList sequence_names)
                 (Some (dtype_named "str"))
               :: (if has_gt
                   then [Write "meta/gt_names" (VStrList gt_names)
                           (Some (dtype_named "str"))]
                   else []) |})
    /\ forall h params' s',
         h <> OnStart ->
         invoke h WriteNamesCallback.object params' s' = (Return tt, s').
Proof.
  intros params s names gts g Hnames Hg Hgts. split.
  - unfold WriteNamesCallback.on_start, WriteNamesCallback.emit.
    rewrite Hnames, Hg. destruct g; run_hook.
    + rewrite (Hgts eq_refl). cbn. by rewrite <- app_assoc.
    + reflexivity.
  - intros h params' s' Hh. by destruct h.
Qed.

Lemma WriteNamesCallback_on_start_writes_witness :
  WriteNamesCallback.on_start example_names_start (WriteNamesCallback.__init__ [])
  = (Return tt,
     {| WriteNamesCallback.writer :=
          [ Write "meta/sequence_names" (VStrList ["T1"; "T2"]%string)
              (Some (dtype_named "str"));
            Write "meta/gt_names" (VStrList ["GT"%string])
              (Some (dtype_named "str")) ] |}).
Proof.
  destruct (WriteNamesCallback_on_start_writes example_names_start
              (WriteNamesCallback.__init__ []) ["T1"; "T2"]%string
              ["GT"%string] true) as [H _]; [reflexivity|reflexivity|done|].
  exact H.
Defined.

(** ** WriteImageInformationCallback: a whole traversal *)

Lemma first_per_subject_spec l :
  forall seen,
    NoDup (map fst (first_per_subject seen l))
    /\ (forall i, i ∈ map fst (first_per_subject seen l)
                  <-> i ∈ map fst l /\ i ∉ seen)
    /\ (forall q, q ∈ first_per_subject seen l ->
                  List.find (fun q' => fst q' =? fst q) l = Some q).
Proof.
  induction l as [|q l IH]; intros seen; cbn [first_per_subject map List.find].
  - split; [constructor|]. split; [|by intros q ?%elem_of_nil].
    intros i. split; [by intros ?%elem_of_nil|]. by intros [?%elem_of_nil _].
  - case_bool_decide as Hq.
    + destruct (IH seen) as (Hnd & Hin & Hfirst).
      split; [done|]. split.
      * intros i. rewrite Hin, elem_of_cons. split; [intros [? ?]; by auto|].
        intros [[->|?] ?]; done.
      * intros q' Hq'. pose proof (Hfirst q' Hq') as Hfind.
        assert (Hne : fst q' ∉ seen).
        { apply (Hin (fst q')). apply list_elem_of_fmap. by exists q'. }
        destruct (Z.eqb_spec (fst q) (fst q')) as [Heq|_]; [|done].
        by rewrite Heq in Hq.
    + destruct (IH (fst q :: seen)) as (Hnd & Hin & Hfirst).
      cbn [map]. split; [|split].
      * constructor; [|done]. intros Hmem%Hin. destruct Hmem as [_ Hmem].
        apply Hmem. by left.
      * intros i. rewrite !elem_of_cons, Hin, not_elem_of_cons.
        split.
        -- intros [->|[? [? ?]]]; by auto.
        -- intros [[->|?] ?]; [by left|].
           destruct (decide (i = fst q)) as [->|?]; [by left|by right].
      * intros q' [->|Hq']%elem_of_cons.
        { by rewrite Z.eqb_refl. }
        pose proof (Hfirst q' Hq') as Hfind.
        assert (Hne : fst q' ∉ fst q :: seen).
        { apply (Hin (fst q')). apply list_elem_of_fmap. by exists q'. }
        apply not_elem_of_cons in Hne as [Hne _].
        destruct (Z.eqb_spec (fst q) (fst q')) as [Heq|_]; [by rewrite Heq in Hne|done].
Qed.

Lemma image_of_call_inv p q :
  image_of_call p = Some q ->
  p_subject_index p = Some (fst q) /\ p_raw_image p = Some (ObjImage (snd q)).
Proof.
  unfold image_of_call.
  destruct (p_subject_index p) as [i|]; [|done].
  destruct (p_raw_image p) as [[img| | |]|]; try done. by intros [= <-].
Qed.

Lemma on_image_file_traversal calls pairs :
  Forall2 (fun p q => image_of_call p = Some q) calls pairs ->
  forall s seen,
    StronglySorted Z.le (map fst pairs) ->
    recorded_is_latest seen (WriteImageInformationCallback.prev_subject_index s) ->
    (forall q x, q ∈ pairs -> x ∈ seen -> x <= fst q) ->
    for_ calls WriteImageInformationCallback.on_image_file s
    = (Return tt,
       {| WriteImageInformationCallback.writer :=
            WriteImageInformationCallback.writer s
            ++ flat_map fills_of (first_per_subject seen pairs);
          WriteImageInformationCallback.prev_subject_index :=
            match last pairs with
            | Some q => Some (fst q)
            | None => WriteImageInformationCallback.prev_subject_index s
            end |}).
Proof.
  induction 1 as [|p q calls pairs Hp Hrest IH]; intros s seen Hsorted Hinv Hge.
  - cbn. destruct s. cbn. by rewrite app_nil_r.
  - destruct (image_of_call_inv p q Hp) as [Hi Himg].
    cbn [map] in Hsorted. apply StronglySorted_inv in Hsorted as [Hsorted Hhd].
    cbn [for_ first_per_subject]. unfold bind.
    assert (Hlast : forall (d : option Z),
              match last (q :: pairs) with Some q' => Some (fst q') | None => d end
              = match last pairs with Some q' => Some (fst q') | None => Some (fst q) end).
    { intros d. destruct pairs as [|q' pairs]; [done|].
      change (last (q :: q' :: pairs)) with (last (q' :: pairs)).
      destruct (last (q' :: pairs)) eqn:E; [done|by apply last_None in E]. }
    rewrite Hlast.
    case_bool_decide as Hseen.
    + (* the subject has been seen: it is the recorded one *)
      assert (Hprev : WriteImageInformationCallback.prev_subject_index s
                      = Some (fst q)).
      { unfold recorded_is_latest in Hinv.
        destruct (WriteImageInformationCallback.prev_subject_index s) as [m|];
          [|subst; by apply elem_of_nil in Hseen].
        destruct Hinv as [Hm Hmax]. f_equal.
        pose proof (Hmax _ Hseen). pose proof (Hge q m ltac:(by left) Hm). lia. }
      rewrite (on_image_file_skip p s (fst q) Hi Hprev).
      rewrite (IH s seen Hsorted Hinv).
      2:{ intros q' x Hq' Hx. apply Hge; [by right|done]. }
      rewrite Hprev. reflexivity.
    + assert (Hprev : WriteImageInformationCallback.prev_subject_index s
                      <> Some (fst q)).
      { intros Hprev. unfold recorded_is_latest in Hinv. rewrite Hprev in Hinv.
        by destruct Hinv. }
      rewrite (on_image_file_fill p s (fst q) (snd q) Hi Hprev Himg).
      rewrite (IH _ (fst q :: seen) Hsorted).
      * cbn [WriteImageInformationCallback.writer
               WriteImageInformationCallback.prev_subject_index flat_map].
        unfold fills_of at 2. by rewrite <- app_assoc.
      * cbn. split; [by left|].
        intros x [->|Hx]%elem_of_cons; [lia|]. apply (Hge q); [by left|done].
      * intros q' x Hq' [->|Hx]%elem_of_cons.
        -- rewrite Forall_forall in Hhd. apply Hhd.
           apply list_elem_of_fmap. by exists q'.
        -- apply Hge; [by right|done].
Qed.

(** X7: once per subject, with the geometry of the subject's first file.
    Let a fresh callback receive [on_image_file] bundles which carry
    subject indices in non-decreasing order, each with a loaded image.
    Then every call returns, and the writer has received, for every
    subject index which occurs, exactly one triple of metadata fills, in
    the order of the subjects, taken from the first bundle of that
    subject; the index recorded at the end is the one of the last
    bundle. *)
Theorem WriteImageInformationCallback_traversal :
  forall (w : Writer) (calls : list params) (pairs : list (Z * Image)),
    Forall2 (fun p q => image_of_call p = Some q) calls pairs ->
    StronglySorted Z.le (map fst pairs) ->
    for_ calls WriteImageInformationCallback.on_image_file
      (WriteImageInformationCallback.__init__ w)
    = (Return tt,
       {| WriteImageInformationCallback.writer :=
            w ++ flat_map fills_of (first_per_subject [] pairs);
          WriteImageInformationCallback.prev_subject_index :=
            fst <$> last pairs |})
    /\ NoDup (map fst (first_per_subject [] pairs))
    /\ (forall i, i ∈ map fst (first_per_subject [] pairs) <-> i ∈ map fst pairs)
    /\ (forall q, q ∈ first_per_subject [] pairs ->
                  List.find (fun q' => fst q' =? fst q) pairs = Some q).
Proof.
  intros w calls pairs Hcalls Hsorted.
  destruct (first_per_subject_spec pairs []) as (Hnd & Hin & Hfirst).
  split; [|split; [done|split; [|done]]].
  - rewrite (on_image_file_traversal calls pairs Hcalls _ [] Hsorted).
    + cbn. by destruct (last pairs).
    + done.
    + by intros q x _ ?%elem_of_nil.
  - intros i. rewrite Hin. split; [by intros [? _]|].
    intros Hi. split; [done|]. by intros ?%elem_of_nil.
Qed.

Lemma WriteImageInformationCallback_traversal_witness :
  for_ example_image_calls WriteImageInformationCallback.on_image_file
    (WriteImageInformationCallback.__init__ [])
  = (Return tt,
     {| WriteImageInformationCallback.writer :=
          three_fills 0 example_image ++ three_fills 1 example_image;
        WriteImageInformationCallback.prev_subject_index := Some 1 |}).
Proof.
  destruct (WriteImageInformationCallback_traversal [] example_image_calls
              [(0, example_image); (0, example_image); (1, example_image)])
    as [H _].
  - repeat constructor.
  - repeat constructor; cbn; lia.
  - exact H.
Defined.

(** X8: [on_start] does not reset the remembered subject index. Hence a
    callback object which is used for a second traversal skips the
    metadata of the first image file when its subject index is the one
    the previous traversal ended with: [on_start] followed by that
    [on_image_file] leaves exactly what [on_start] alone leaves. *)
Theorem WriteImageInformationCallback_on_start_keeps_index :
  forall (start p : params) (s : WriteImageInformationCallback.self) (i : Z),
    p_subject_index p = Some i ->
    WriteImageInformationCallback.prev_subject_index s = Some i ->
    WriteImageInformationCallback.prev_subject_index
      (snd (WriteImageInformationCallback.on_start start s)) = Some i
    /\ run WriteImageInformationCallback.object
         [(OnStart, start); (OnImageFile, p)] s
       = WriteImageInformationCallback.on_start start s.
Proof.
  intros start p s i Hi Hprev.
  unfold run. cbn [for_ fst snd invoke WriteImageInformationCallback.object
                     cb_on_start cb_on_image_file].
  unfold bind. rewrite WriteImageInformationCallback_on_start_eq.
  destruct (p_subject_files start) as [sfs|]; cbn [snd
    WriteImageInformationCallback.prev_subject_index]; [|done].
  split; [done|].
  rewrite (on_image_file_skip p _ i Hi) by done. reflexivity.
Qed.

Lemma WriteImageInformationCallback_on_start_keeps_index_witness :
  run WriteImageInformationCallback.object
    [(OnStart, single_file_start); (OnImageFile, image_file_params 0)]
    {| WriteImageInformationCallback.writer := [];
       WriteImageInformationCallback.prev_subject_index := Some 0 |}
  = (Return tt,
     {| WriteImageInformationCallback.writer := image_information_reserves 1;
        WriteImageInformationCallback.prev_subject_index := Some 0 |}).
Proof.
  destruct (WriteImageInformationCallback_on_start_keeps_index
              single_file_start (image_file_params 0)
              {| WriteImageInformationCallback.writer := [];
                 WriteImageInformationCallback.prev_subject_index := Some 0 |}
              0 eq_refl eq_refl) as [_ H].
  rewrite H. reflexivity.
Defined.

(** ** WriteFilesCallback: when the common root exists *)

Lemma get_subject_common_files sf :
  WriteFilesCallback.get_subject_common sf = posixpath.commonpath (files_of sf).
Proof.
  unfold WriteFilesCallback.get_subject_common, files_of.
  destruct (get_gts sf); [done|by rewrite app_nil_r].
Qed.

Lemma omapM_Return_inv {A B} (f : A -> outcome B) l :
  forall ys, omapM f l = Return ys -> Forall2 (fun x y => f x = Return y) l ys.
Proof.
  induction l as [|x l IH]; intros ys; cbn [omapM].
  - intros [= <-]. constructor.
  - destruct (f x) as [y|e] eqn:Hx; [|discriminate]. cbn [obind].
    destruct (omapM f l) as [ys'|e]; [|discriminate]. cbn [obind].
    intros [= <-]. constructor; [done|]. by apply IH.
Qed.

Lemma commonpath_tuple_Return_inv p ps root :
  posixpath.commonpath_tuple (p :: ps) = Return root ->
  forall q, q ∈ ps -> posixpath.isabs q = posixpath.isabs p.
Proof.
  unfold posixpath.commonpath_tuple.
  destruct (forallb _ ps) eqn:Hall; [|discriminate].
  intros _ q Hq. rewrite forallb_forall in Hall.
  apply list_elem_of_In, Hall in Hq. by apply Bool.eqb_prop in Hq.
Qed.

Lemma get_subject_common_Return_inv sf c :
  WriteFilesCallback.get_subject_common sf = Return c ->
  files_of sf <> []
  /\ forall f, f ∈ files_of sf -> posixpath.isabs f = posixpath.isabs c.
Proof.
  rewrite get_subject_common_files.
  destruct (files_of sf) as [|f fs] eqn:Hfiles; [discriminate|].
  change (posixpath.commonpath (f :: fs))
    with (posixpath.commonpath_tuple (f :: fs)).
  intros Hc. split; [done|].
  pose proof (commonpath_tuple_Return_inv f fs c Hc) as Habs.
  destruct (commonpath_spec f fs Habs) as (r & Hr & Hpre & _).
  rewrite Hr in Hc. injection Hc as <-.
  assert (Hgood : Forall good_component r).
  { apply (prefix_good r (posixpath.components f)); [|apply components_good].
    apply Hpre. by left. }
  rewrite isabs_render by done.
  intros g [->|Hg]%elem_of_cons; [done|by apply Habs].
Qed.

Lemma get_common_path_Return_inv sfs root :
  WriteFilesCallback._get_common_path sfs = Return root ->
  sfs <> []
  /\ (forall sf, sf ∈ sfs -> files_of sf <> [])
  /\ (forall f g, f ∈ all_files sfs -> g ∈ all_files sfs ->
                  posixpath.isabs f = posixpath.isabs g).
Proof.
  unfold WriteFilesCallback._get_common_path.
  destruct (omapM _ sfs) as [commons|e] eqn:Hcommons; [|discriminate].
  cbn [obind]. unfold posixpath.commonpath_of_generator. intros Hroot.
  apply omapM_Return_inv in Hcommons.
  destruct commons as [|c0 commons]; [discriminate|].
  pose proof (commonpath_tuple_Return_inv c0 commons root Hroot) as Hcabs.
  assert (Hfile : forall f, f ∈ all_files sfs ->
            posixpath.isabs f = posixpath.isabs c0).
  { intros f (sf & Hsf & Hf)%elem_of_all_files.
    apply list_elem_of_lookup in Hsf as [k Hk].
    destruct (Forall2_lookup_l _ _ _ _ _ Hcommons Hk) as (c & Hc & Hcommon).
    apply get_subject_common_Return_inv in Hcommon as [_ Habs].
    rewrite (Habs f Hf).
    apply list_elem_of_lookup_2, elem_of_cons in Hc as [->|Hc]; [done|].
    by apply Hcabs. }
  split; [by inversion Hcommons|]. split.
  - intros sf Hsf. apply list_elem_of_lookup in Hsf as [k Hk].
    destruct (Forall2_lookup_l _ _ _ _ _ Hcommons Hk) as (c & _ & Hcommon).
    by apply get_subject_common_Return_inv in Hcommon as [Hne _].
  - intros f g Hf Hg. by rewrite (Hfile f), (Hfile g).
Qed.

Lemma get_common_path_Return_lca sfs root :
  WriteFilesCallback._get_common_path sfs = Return root ->
  longest_common_ancestor root (all_files sfs) /\ canonical root.
Proof.
  intros Hroot.
  destruct (get_common_path_Return_inv sfs root Hroot) as (Hne & Hfiles & Habs).
  destruct (get_common_path_spec sfs Hne Hfiles Habs)
    as (root' & Hroot' & Hlca & Hcanon).
  rewrite Hroot in Hroot'. by injection Hroot' as <-.
Qed.

(** X9: [_get_common_path] returns exactly when the collection is not
    empty, every subject has at least one file, and the files of all
    subjects are all absolute or all relative paths; in every other case it
    raises. Whenever it returns, what it returns is the longest common
    path ancestor of all files of all subjects, written with single
    separators. *)
Theorem get_common_path_returns_iff :
  forall (subject_files : list SubjectFile),
    ((exists root, WriteFilesCallback._get_common_path subject_files = Return root)
     <-> subject_files <> []
         /\ (forall sf, sf ∈ subject_files -> files_of sf <> [])
         /\ (forall f g, f ∈ all_files subject_files ->
                         g ∈ all_files subject_files ->
                         posixpath.isabs f = posixpath.isabs g))
    /\ (forall root,
          WriteFilesCallback._get_common_path subject_files = Return root ->
          longest_common_ancestor root (all_files subject_files)
          /\ canonical root).
Proof.
  intros sfs. split; [split|].
  - intros [root Hroot]. by apply (get_common_path_Return_inv sfs root).
  - intros (Hne & Hfiles & Habs).
    destruct (get_common_path_spec sfs Hne Hfiles Habs) as (root & Hroot & _).
    by exists root.
  - apply get_common_path_Return_lca.
Qed.

(** ** WriteFilesCallback: relative paths *)

Lemma relpath_returns cwd path start :
  path <> ""%string ->
  exists rel, posixpath.relpath cwd path start = Return rel.
Proof.
  intros Hpath. unfold posixpath.relpath.
  apply String.eqb_neq in Hpath. rewrite Hpath. cbv zeta.
  unfold posixpath.commonprefix.
  match goal with |- context [posixpath.common_loop (posixpath.py_min ?x ?xs)] =>
    destruct (common_of_min_max x xs) as (r & -> & _) end.
  cbn [obind]. match goal with |- context [match ?l with [] => _ | _ => _ end] =>
    destruct l end; eauto.
Qed.

(** X10: the only failure of [on_image_file] and [on_gt_file] on a bundle
    which carries its keys is the empty path. With an empty [file] they
    raise [ValueError] and leave the state as it was. With any other
    [file], whatever the stored root (none, or one the file does not lie
    under) and whatever the indices, they return and issue exactly one
    [fill] of a relative path at the cell of the two indices: there is no
    error for a file outside the root, and no check of the indices. *)
Theorem WriteFilesCallback_file_hooks_total :
  forall (cwd : string) (params : params) (s : WriteFilesCallback.self)
         (f : string) (i : Z),
    p_file params = Some f ->
    p_subject_index params = Some i ->
    (f = ""%string ->
     (forall j, p_sequence_index params = Some j ->
        WriteFilesCallback.on_image_file cwd params s
        = (Raise (ValueError "no path specified"), s))
     /\ (forall j, p_gt_index params = Some j ->
           WriteFilesCallback.on_gt_file cwd params s
           = (Raise (ValueError "no path specified"), s)))
    /\ (f <> ""%string ->
        exists rel,
          posixpath.relpath cwd f (WriteFilesCallback.file_root s) = Return rel
          /\ (forall j, p_sequence_index params = Some j ->
                WriteFilesCallback.on_image_file cwd params s
                = (Return tt,
                   {| WriteFilesCallback.writer :=
                        WriteFilesCallback.writer s
                        ++ [Fill "meta/sequence_files" (VStr rel)
                              (WriteFilesCallback.IndexExpression2 i j)];
                      WriteFilesCallback.file_root :=
                        WriteFilesCallback.file_root s |}))
          /\ (forall j, p_gt_index params = Some j ->
                WriteFilesCallback.on_gt_file cwd params s
                = (Return tt,
                   {| WriteFilesCallback.writer :=
                        WriteFilesCallback.writer s
                        ++ [Fill "meta/gt_files" (VStr rel)
                              (WriteFilesCallback.IndexExpression2 i j)];
                      WriteFilesCallback.file_root :=
                        WriteFilesCallback.file_root s |}))).
Proof.
  intros cwd params s f i Hf Hi. split.
  - intros ->. split; intros j Hj;
      unfold WriteFilesCallback.on_image_file, WriteFilesCallback.on_gt_file;
      rewrite Hf, Hi, Hj; reflexivity.
  - intros Hne.
    destruct (relpath_returns cwd f (WriteFilesCallback.file_root s) Hne)
      as [rel Hrel].
    exists rel. split; [done|].
    split; intros j Hj;
      unfold WriteFilesCallback.on_image_file, WriteFilesCallback.on_gt_file;
      rewrite Hf, Hi, Hj; run_hook; rewrite Hrel; reflexivity.
Qed.

Lemma WriteFilesCallback_file_hooks_total_witness :
  WriteFilesCallback.on_image_file "/home/u" single_file_event
    (WriteFilesCallback.__init__ [])
  = (Return tt,
     {| WriteFilesCallback.writer :=
          [Fill "meta/sequence_files" (VStr "../../data/s1/t1.nii")
             (WriteFilesCallback.IndexExpression2 0 0)];
        WriteFilesCallback.file_root := None |}).
Proof.
  destruct (WriteFilesCallback_file_hooks_total "/home/u" single_file_event
              (WriteFilesCallback.__init__ []) "/data/s1/t1.nii" 0
              eq_refl eq_refl) as [_ H].
  destruct (H ltac:(discriminate)) as (rel & Hrel & Himage & _).
  rewrite (Himage 0 eq_refl). cbn in Hrel. injection Hrel as <-. reflexivity.
Defined.

Lemma fold_norm_append initial l :
  Forall good_component l -> dotdot_free l ->
  forall acc, fold_left (posixpath.norm_step initial) l acc = acc ++ l.
Proof.
  induction 1 as [|c l Hc Hl IH]; intros Hfree acc; cbn [fold_left].
  - by rewrite app_nil_r.
  - inversion Hfree as [|? ? Hdd Hfree']; subst.
    rewrite IH by done. unfold posixpath.norm_step.
    destruct Hc as [_ Hproper].
    rewrite proper_component_negb, Hproper, Hdd. cbn.
    by rewrite <- app_assoc.
Qed.

Lemma path_items_abspath cwd p :
  posixpath.isabs cwd = true ->
  dotdot_free (posixpath.components p) ->
  path_items (posixpath.abspath cwd p) = cwd_items cwd p ++ posixpath.components p.
Proof.
  intros Hcwd Hfree. unfold posixpath.abspath, cwd_items.
  rewrite path_items_normpath.
  destruct (posixpath.isabs p) eqn:Hp.
  - rewrite Hp, fold_norm_append by (done || apply components_good).
    by destruct (posixpath.components p).
  - cbn [posixpath.join fold_left].
    rewrite isabs_join_step, components_join_step, Hcwd by done.
    rewrite fold_left_app, fold_norm_append by (done || apply components_good).
    by destruct (_ ++ _).
Qed.

Lemma commonprefix_of_extension l rest :
  posixpath.commonprefix [l; l ++ rest] = Return l.
Proof.
  unfold posixpath.commonprefix.
  destruct (common_of_min_max l [l ++ rest]) as (r & -> & Hpre & Hgreatest).
  f_equal. apply prefix_length_eq.
  - apply Hpre. by left.
  - apply prefix_length, Hgreatest.
    intros y [->|[->|?%elem_of_nil]%elem_of_cons]%elem_of_cons; try done.
    by apply prefix_app_r.
Qed.

Lemma endswith_sep_no_slash b :
  no_slash b = true -> posixpath.endswith_sep b = false.
Proof.
  induction b as [|c b IH]; cbn; [done|].
  intros [Hc Hb]%andb_true_iff. apply negb_true_iff in Hc.
  destruct b; [done|]. by apply IH.
Qed.

Lemma endswith_sep_app a b :
  b <> ""%string ->
  posixpath.endswith_sep (a ++ b)%string = posixpath.endswith_sep b.
Proof.
  intros Hb. induction a as [|c a IH]; cbn [String.append]; [done|].
  cbn [posixpath.endswith_sep]. rewrite IH.
  destruct (a ++ b)%string eqn:E; [|done].
  destruct a; [by subst|discriminate].
Qed.

Lemma good_component_inv c :
  good_component c ->
  c <> ""%string /\ posixpath.isabs c = false /\ posixpath.endswith_sep c = false.
Proof.
  intros Hc. pose proof (good_nonempty c Hc) as Hne. destruct Hc as [Hns _].
  split; [by destruct c|]. split; [|by apply endswith_sep_no_slash].
  destruct c as [|a c]; [done|]. cbn in *.
  apply andb_true_iff in Hns as [Ha _]. by apply negb_true_iff in Ha.
Qed.

(** [join] of components is ['/'.join]. *)
Lemma join_good p :
  Forall good_component p ->
  forall acc,
    acc <> ""%string -> posixpath.endswith_sep acc = false ->
    posixpath.join acc p = posixpath.join_sep (acc :: p).
Proof.
  unfold posixpath.join.
  induction 1 as [|b p Hb Hp IH]; intros acc Hacc Hend; [done|].
  cbn [fold_left].
  destruct (good_component_inv b Hb) as (Hbne & Hbabs & Hbend).
  assert (Hstep : posixpath.join_step acc b = (acc ++ String "/" b)%string).
  { unfold posixpath.join_step. rewrite Hbabs, Hend.
    apply String.eqb_neq in Hacc. by rewrite Hacc. }
  rewrite Hstep, IH.
  - destruct p; cbn; by rewrite ?string_app_assoc.
  - by destruct acc.
  - rewrite (endswith_sep_app acc (String "/" b)) by done.
    destruct b; [done|exact Hbend].
Qed.

(** The relative path of a file below the root: what the file has beyond
    the components of the root. *)
Lemma relpath_below_root cwd f root rest :
  posixpath.isabs cwd = true ->
  f <> ""%string ->
  posixpath.isabs root = posixpath.isabs f ->
  posixpath.components f = posixpath.components root ++ rest ->
  dotdot_free (posixpath.components f) ->
  exists rel,
    posixpath.relpath cwd f (Some root) = Return rel
    /\ posixpath.isabs rel = false
    /\ posixpath.components rel = rest.
Proof.
  intros Hcwd Hf Habs Hcomps Hfree.
  assert (Hgood : Forall good_component rest).
  { pose proof (components_good f) as H. rewrite Hcomps in H.
    by apply Forall_app in H as [_ H]. }
  assert (Hfree_root : dotdot_free (posixpath.components root)).
  { unfold dotdot_free in *. rewrite Hcomps in Hfree.
    by apply Forall_app in Hfree as [H _]. }
  unfold posixpath.relpath. apply String.eqb_neq in Hf. rewrite Hf. cbv zeta.
  fold (path_items (posixpath.abspath cwd root)).
  fold (path_items (posixpath.abspath cwd f)).
  rewrite !path_items_abspath by done.
  unfold cwd_items. rewrite Habs, Hcomps, app_assoc.
  rewrite commonprefix_of_extension. cbn [obind].
  rewrite Nat.sub_diag, drop_app_length. cbn [replicate app].
  destruct rest as [|a rest]; [by eexists|].
  exists (posixpath.join_sep (a :: rest)).
  inversion Hgood as [|? ? Ha Hrest]; subst.
  destruct (good_component_inv a Ha) as (Hane & _ & Haend).
  split; [by rewrite join_good|].
  split; [by apply (isabs_render false)|by apply components_join].
Qed.

Lemma file_hooks_below_root cwd params s root f i :
  posixpath.isabs cwd = true ->
  WriteFilesCallback.file_root s = Some root ->
  p_file params = Some f ->
  p_subject_index params = Some i ->
  f <> ""%string ->
  is_ancestor root f ->
  dotdot_free (posixpath.components f) ->
  exists rel,
    posixpath.isabs rel = false
    /\ posixpath.components root ++ posixpath.components rel
       = posixpath.components f
    /\ (forall j, p_sequence_index params = Some j ->
          WriteFilesCallback.on_image_file cwd params s
          = (Return tt,
             {| WriteFilesCallback.writer :=
                  WriteFilesCallback.writer s
                  ++ [Fill "meta/sequence_files" (VStr rel)
                        (WriteFilesCallback.IndexExpression2 i j)];
                WriteFilesCallback.file_root := Some root |}))
    /\ (forall j, p_gt_index params = Some j ->
          WriteFilesCallback.on_gt_file cwd params s
          = (Return tt,
             {| WriteFilesCallback.writer :=
                  WriteFilesCallback.writer s
                  ++ [Fill "meta/gt_files" (VStr rel)
                        (WriteFilesCallback.IndexExpression2 i j)];
                WriteFilesCallback.file_root := Some root |})).
Proof.
  intros Hcwd Hroot Hf Hi Hne [Habs [rest Hrest]] Hfree.
  destruct (relpath_below_root cwd f root rest Hcwd Hne Habs Hrest Hfree)
    as (rel & Hrel & Hrelabs & Hrelcomps).
  exists rel. split; [done|]. split; [by rewrite Hrelcomps|].
  split; intros j Hj;
    unfold WriteFilesCallback.on_image_file, WriteFilesCallback.on_gt_file;
    rewrite Hf, Hi, Hj; run_hook; rewrite Hroot, Hrel;
    unfold WriteFilesCallback.emit; run_hook; by rewrite Hroot.
Qed.

(** X11: root and relative path give the file back. Let the callback hold
    a root which is an ancestor of [file], a non-empty path without [..]
    component ([os.getcwd()] being absolute, as it always is). Then
    [on_image_file] and [on_gt_file] return and fill, at the cell of their
    two indices, a relative path whose components, put after those of the
    root, are the components of [file]. *)
Theorem WriteFilesCallback_relative_path_round_trip :
  forall (cwd : string) (params : params) (s : WriteFilesCallback.self)
         (root f : string) (i : Z),
    posixpath.isabs cwd = true ->
    WriteFilesCallback.file_root s = Some root ->
    p_file params = Some f ->
    p_subject_index params = Some i ->
    f <> ""%string ->
    is_ancestor root f ->
    dotdot_free (posixpath.components f) ->
    exists rel,
      posixpath.isabs rel = false
      /\ posixpath.components root ++ posixpath.components rel
         = posixpath.components f
      /\ (forall j, p_sequence_index params = Some j ->
            WriteFilesCallback.on_image_file cwd params s
            = (Return tt,
               {| WriteFilesCallback.writer :=
                    WriteFilesCallback.writer s
                    ++ [Fill "meta/sequence_files" (VStr rel)
                          (WriteFilesCallback.IndexExpression2 i j)];
                  WriteFilesCallback.file_root := Some root |}))
      /\ (forall j, p_gt_index params = Some j ->
            WriteFilesCallback.on_gt_file cwd params s
            = (Return tt,
               {| WriteFilesCallback.writer :=
                    WriteFilesCallback.writer s
                    ++ [Fill "meta/gt_files" (VStr rel)
                          (WriteFilesCallback.IndexExpression2 i j)];
                  WriteFilesCallback.file_root := Some root |})).
Proof. intros. by eapply file_hooks_below_root. Qed.

Lemma WriteFilesCallback_on_start_Return_inv start s :
  fst (WriteFilesCallback.on_start start s) = Return tt ->
  exists sfs root,
    p_subject_files start = Some sfs
    /\ WriteFilesCallback._get_common_path sfs = Return root
    /\ WriteFilesCallback.file_root (snd (WriteFilesCallback.on_start start s))
       = Some root.
Proof.
  intros Hret.
  destruct (p_subject_files start) as [sfs|] eqn:Hsfs.
  2:{ unfold WriteFilesCallback.on_start in Hret. by rewrite Hsfs in Hret. }
  destruct (WriteFilesCallback._get_common_path sfs) as [root|e] eqn:Hroot.
  2:{ unfold WriteFilesCallback.on_start in Hret.
      rewrite Hsfs in Hret. revert Hret. run_hook. by rewrite Hroot. }
  exists sfs, root. split; [done|]. split; [done|].
  by apply (WriteFilesCallback_on_start_root start s sfs).
Qed.

(** X12: after an [on_start] which has returned, the stored root is the
    longest common ancestor of the files of the collection, and for every
    file of the collection (non-empty, without [..] component) the file
    hooks fill a relative path which, put after the root, gives the file
    back, component for component. *)
Theorem WriteFilesCallback_start_then_file_round_trip :
  forall (cwd : string) (start params : params) (s : WriteFilesCallback.self)
         (subject_files : list SubjectFile) (f : string) (i : Z),
    posixpath.isabs cwd = true ->
    p_subject_files start = Some subject_files ->
    fst (WriteFilesCallback.on_start start s) = Return tt ->
    f ∈ all_files subject_files ->
    f <> ""%string ->
    dotdot_free (posixpath.components f) ->
    p_file params = Some f ->
    p_subject_index params = Some i ->
    let s1 := snd (WriteFilesCallback.on_start start s) in
    exists root rel,
      WriteFilesCallback.file_root s1 = Some root
      /\ longest_common_ancestor root (all_files subject_files)
      /\ posixpath.isabs rel = false
      /\ posixpath.components root ++ posixpath.components rel
         = posixpath.components f
      /\ (forall j, p_sequence_index params = Some j ->
            WriteFilesCallback.on_image_file cwd params s1
            = (Return tt,
               {| WriteFilesCallback.writer :=
                    WriteFilesCallback.writer s1
                    ++ [Fill "meta/sequence_files" (VStr rel)
                          (WriteFilesCallback.IndexExpression2 i j)];
                  WriteFilesCallback.file_root := Some root |}))
      /\ (forall j, p_gt_index params = Some j ->
            WriteFilesCallback.on_gt_file cwd params s1
            = (Return tt,
               {| WriteFilesCallback.writer :=
                    WriteFilesCallback.writer s1
                    ++ [Fill "meta/gt_files" (VStr rel)
                          (WriteFilesCallback.IndexExpression2 i j)];
                  WriteFilesCallback.file_root := Some root |})).
Proof.
  intros cwd start params s sfs f i Hcwd Hsfs Hret Hin Hne Hfree Hf Hi s1.
  destruct (WriteFilesCallback_on_start_Return_inv start s Hret)
    as (sfs' & root & Hsfs' & Hroot & Hstored).
  rewrite Hsfs in Hsfs'. injection Hsfs' as <-.
  destruct (get_common_path_Return_lca sfs root Hroot) as [Hlca _].
  destruct (file_hooks_below_root cwd params s1 root f i)
    as (rel & Hrel); try done.
  { by apply Hlca. }
  exists root, rel. by repeat split; try apply Hlca; try apply Hrel.
Qed.

Lemma WriteFilesCallback_start_then_file_round_trip_witness :
  exists root rel,
    WriteFilesCallback.file_root
      (snd (WriteFilesCallback.on_start example_start
              (WriteFilesCallback.__init__ []))) = Some root
    /\ posixpath.components root ++ posixpath.components rel
       = ["a"; "b"; "gt.txt"]%string.
Proof.
  destruct (WriteFilesCallback_start_then_file_round_trip "/home/u"
              example_start (snd gt_file_event) (WriteFilesCallback.__init__ [])
              [example_subject_gt] "/a/b/gt.txt" 0)
    as (root & rel & Hroot & _ & _ & Hcomps & _); try reflexivity.
  - do 2 right. by left.
  - discriminate.
  - repeat constructor.
  - exists root, rel. split; [exact Hroot|exact Hcomps].
Defined.

Lemma WriteFilesCallback_relative_path_round_trip_witness :
  exists rel,
    posixpath.components "/a/b" ++ posixpath.components rel
    = ["a"; "b"; "gt.txt"]%string
    /\ WriteFilesCallback.on_gt_file "/home/u" (snd gt_file_event)
         {| WriteFilesCallback.writer := [];
            WriteFilesCallback.file_root := Some "/a/b"%string |}
       = (Return tt,
          {| WriteFilesCallback.writer :=
               [Fill "meta/gt_files" (VStr rel)
                  (WriteFilesCallback.IndexExpression2 0 0)];
             WriteFilesCallback.file_root := Some "/a/b"%string |}).
Proof.
  destruct (WriteFilesCallback_relative_path_round_trip "/home/u"
              (snd gt_file_event)
              {| WriteFilesCallback.writer := [];
                 WriteFilesCallback.file_root := Some "/a/b"%string |}
              "/a/b" "/a/b/gt.txt" 0)
    as (rel & _ & Hcomps & _ & Hgt); try reflexivity.
  - discriminate.
  - split; [reflexivity|]. by exists ["gt.txt"%string].
  - repeat constructor.
  - exists rel. split; [exact Hcomps|]. by apply Hgt.
Defined.

(** ** Keys of the writer callbacks *)

Ltac not_among :=
  let H := fresh in
  intros H;
  cbv [subject_keys image_information_keys names_keys files_keys app] in H;
  rewrite ?elem_of_cons, ?elem_of_nil in H;
  repeat (destruct H as [H|H]; [cbv in H; discriminate H|]);
  first [cbv in H; discriminate H|destruct H].

Ltac appended_nothing :=
  exists []; split; [by rewrite app_nil_r|constructor].

Ltac appended :=
  cbn; rewrite <- ?app_assoc; cbn [app];
  first
    [ appended_nothing
    | eexists; split; [reflexivity|];
      repeat constructor ].

Lemma WriteDataCallback_appends h params s :
  appends_under data_key (WriteDataCallback.writer s)
    (WriteDataCallback.writer (snd (invoke h WriteDataCallback.object params s))).
Proof.
  destruct h; try appended_nothing.
  cbn [invoke WriteDataCallback.object cb_on_subject_end].
  unfold WriteDataCallback.on_subject_end, WriteDataCallback.writer_write.
  destruct (p_subject_files params) as [sfs|]; run_hook; [|appended_nothing].
  destruct (p_subject_index params) as [i|]; run_hook; [|appended_nothing].
  destruct (p_images params) as [imgs|]; run_hook; [|appended_nothing].
  destruct (p_has_gt params) as [[|]|]; run_hook.
  - destruct (p_labels params) as [lbls|]; run_hook.
    + rewrite <- app_assoc. eexists. split; [reflexivity|].
      repeat constructor; eexists; [left|right]; reflexivity.
    + eexists. split; [reflexivity|].
      repeat constructor; eexists; left; reflexivity.
  - eexists. split; [reflexivity|].
    repeat constructor; eexists; left; reflexivity.
  - eexists. split; [reflexivity|].
    repeat constructor; eexists; left; reflexivity.
Qed.

Lemma WriteSubjectCallback_appends h params s :
  appends_under (fun k => k ∈ subject_keys) (WriteSubjectCallback.writer s)
    (WriteSubjectCallback.writer
       (snd (invoke h WriteSubjectCallback.object params s))).
Proof.
  destruct h; try appended_nothing;
    cbn [invoke WriteSubjectCallback.object cb_on_start cb_on_subject_start];
    unfold WriteSubjectCallback.on_start, WriteSubjectCallback.on_subject_start,
      WriteSubjectCallback.emit.
  - destruct (p_subject_files params) as [sfs|]; run_hook; appended.
  - destruct (p_subject params) as [subj|]; run_hook; [|appended].
    destruct (p_subject_index params) as [i|]; run_hook; appended.
Qed.

Lemma WriteImageInformationCallback_appends h params s :
  appends_under (fun k => k ∈ image_information_keys)
    (WriteImageInformationCallback.writer s)
    (WriteImageInformationCallback.writer
       (snd (invoke h WriteImageInformationCallback.object params s))).
Proof.
  destruct h; try appended_nothing;
    cbn [invoke WriteImageInformationCallback.object cb_on_start
           cb_on_image_file].
  - rewrite WriteImageInformationCallback_on_start_eq.
    destruct (p_subject_files params) as [sfs|]; appended.
  - unfold WriteImageInformationCallback.on_image_file.
    destruct (p_subject_index params) as [i|]; run_hook; [|appended_nothing].
    destruct (WriteImageInformationCallback.prev_eq _ i); [appended_nothing|].
    destruct (p_raw_image params) as [[img| | |]|]; cbn; try appended_nothing.
    unfold WriteImageInformationCallback.emit,
      WriteImageInformationCallback.set_prev_subject_index. run_hook.
    appended.
Qed.

Lemma WriteNamesCallback_appends h params s :
  appends_under (fun k => k ∈ names_keys) (WriteNamesCallback.writer s)
    (WriteNamesCallback.writer
       (snd (invoke h WriteNamesCallback.object params s))).
Proof.
  destruct h; try appended_nothing.
  cbn [invoke WriteNamesCallback.object cb_on_start].
  unfold WriteNamesCallback.on_start, WriteNamesCallback.emit.
  destruct (p_sequence_names params) as [names|]; run_hook; [|appended].
  destruct (p_has_gt params) as [[|]|]; run_hook; [|appended|appended].
  destruct (p_gt_names params) as [gts|]; run_hook; appended.
Qed.

Lemma WriteFilesCallback_appends cwd h params s :
  appends_under (fun k => k ∈ files_keys) (WriteFilesCallback.writer s)
    (WriteFilesCallback.writer
       (snd (invoke h (WriteFilesCallback.object cwd) params s))).
Proof.
  destruct h; try appended_nothing;
    cbn [invoke WriteFilesCallback.object cb_on_start cb_on_gt_file
           cb_on_image_file].
  - unfold WriteFilesCallback.on_start.
    destruct (p_subject_files params) as [sfs|]; run_hook; [|appended_nothing].
    destruct (WriteFilesCallback._get_common_path sfs) as [root|err];
      [|appended_nothing].
    unfold WriteFilesCallback.set_file_root, WriteFilesCallback.emit. run_hook.
    destruct (p_sequence_names params) as [names|]; [|appended].
    cbn. destruct (p_has_gt params) as [[|]|]; cbn; [|appended|appended].
    destruct (p_gt_names params) as [gts|]; appended.
  - unfold WriteFilesCallback.on_gt_file.
    destruct (p_file params) as [f|]; run_hook; [|appended_nothing].
    destruct (p_subject_index params) as [i|]; run_hook; [|appended_nothing].
    destruct (p_gt_index params) as [j|]; run_hook; [|appended_nothing].
    destruct (posixpath.relpath cwd f (WriteFilesCallback.file_root s))
      as [rel|err]; [|appended_nothing].
    unfold WriteFilesCallback.emit. run_hook. appended.
  - unfold WriteFilesCallback.on_image_file.
    destruct (p_file params) as [f|]; run_hook; [|appended_nothing].
    destruct (p_subject_index params) as [i|]; run_hook; [|appended_nothing].
    destruct (p_sequence_index params) as [j|]; run_hook; [|appended_nothing].
    destruct (posixpath.relpath cwd f (WriteFilesCallback.file_root s))
      as [rel|err]; [|appended_nothing].
    unfold WriteFilesCallback.emit. run_hook. appended.
Qed.

(** X13: every hook of every writer callback, whatever the bundle and
    whether it returns or raises, leaves the calls the writer already holds
    as they are and only puts calls after them, each under a key of its own
    class: [data/sequences/...] and [data/gts/...] for [WriteDataCallback],
    the class attributes for the four metadata callbacks. These key sets
    are pairwise disjoint, so no callback touches an entry of another. *)
Theorem writer_callbacks_keep_to_their_keys :
  forall (cwd : string) (h : hook) (params : params),
    (forall s,
        appends_under data_key (WriteDataCallback.writer s)
          (WriteDataCallback.writer
             (snd (invoke h WriteDataCallback.object params s))))
    /\ (forall s,
          appends_under (fun k => k ∈ subject_keys)
            (WriteSubjectCallback.writer s)
            (WriteSubjectCallback.writer
               (snd (invoke h WriteSubjectCallback.object params s))))
    /\ (forall s,
          appends_under (fun k => k ∈ image_information_keys)
            (WriteImageInformationCallback.writer s)
            (WriteImageInformationCallback.writer
               (snd (invoke h WriteImageInformationCallback.object params s))))
    /\ (forall s,
          appends_under (fun k => k ∈ names_keys)
            (WriteNamesCallback.writer s)
            (WriteNamesCallback.writer
               (snd (invoke h WriteNamesCallback.object params s))))
    /\ (forall s,
          appends_under (fun k => k ∈ files_keys)
            (WriteFilesCallback.writer s)
            (WriteFilesCallback.writer
               (snd (invoke h (WriteFilesCallback.object cwd) params s))))
    /\ NoDup (subject_keys ++ image_information_keys ++ names_keys
              ++ files_keys)
    /\ (forall key, data_key key ->
          key ∉ subject_keys ++ image_information_keys ++ names_keys
                ++ files_keys).
Proof.
  intros cwd h params. repeat apply conj.
  - apply WriteDataCallback_appends.
  - apply WriteSubjectCallback_appends.
  - apply WriteImageInformationCallback_appends.
  - apply WriteNamesCallback_appends.
  - apply WriteFilesCallback_appends.
  - cbv [subject_keys image_information_keys names_keys files_keys app].
    repeat (apply NoDup_cons_2; [not_among|]). apply NoDup_nil_2.
  - intros key [idx [->| ->]]; cbn; not_among.
Qed.

(** ** WriteFilesCallback.on_start: when it returns, and what stays when
    it does not *)

(** X14: [WriteFilesCallback.on_start] returns exactly when the bundle
    carries [subject_files] for which [_get_common_path] returns,
    [sequence_names], [has_gt] and, if [has_gt] is true, [gt_names]. A
    missing [subject_files] or a raising [_get_common_path] leaves the
    callback untouched. The other keys are looked up only after the root has
    been stored and written: a missing [sequence_names] leaves the root
    stored and its [write] issued, a missing [has_gt] or [gt_names] leaves
    moreover the [reserve] of [meta/sequence_files] issued. *)
Theorem WriteFilesCallback_on_start_returns_iff :
  forall (start : params) (s : WriteFilesCallback.self),
    (fst (WriteFilesCallback.on_start start s) = Return tt
     <-> exists subject_files root,
           p_subject_files start = Some subject_files
           /\ WriteFilesCallback._get_common_path subject_files = Return root
           /\ is_Some (p_sequence_names start)
           /\ (p_has_gt start = Some false
               \/ p_has_gt start = Some true /\ is_Some (p_gt_names start)))
    /\ (forall e,
          fst (WriteFilesCallback.on_start start s) = Raise e ->
          (e = KeyError "subject_files" /\ p_subject_files start = None
           \/ exists subject_files,
                p_subject_files start = Some subject_files
                /\ WriteFilesCallback._get_common_path subject_files = Raise e)
          /\ snd (WriteFilesCallback.on_start start s) = s
          \/ exists subject_files root own,
               p_subject_files start = Some subject_files
               /\ WriteFilesCallback._get_common_path subject_files = Return root
               /\ snd (WriteFilesCallback.on_start start s)
                  = {| WriteFilesCallback.writer :=
                         WriteFilesCallback.writer s
                         ++ Write "meta/file_root" (VStr root)
                              (Some (dtype_named "str")) :: own;
                       WriteFilesCallback.file_root := Some root |}
               /\ (e = KeyError "sequence_names"
                   /\ p_sequence_names start = None /\ own = []
                   \/ exists names,
                        p_sequence_names start = Some names
                        /\ own = [Reserve "meta/sequence_files"
                                    [length subject_files; length names]
                                    (dtype_named "str")]
                        /\ (e = KeyError "has_gt" /\ p_has_gt start = None
                            \/ e = KeyError "gt_names"
                               /\ p_has_gt start = Some true
                               /\ p_gt_names start = None))).
Proof.
  intros start s. unfold WriteFilesCallback.on_start.
  destruct (p_subject_files start) as [sfs|]; run_hook.
  2:{ split.
      - split; [done|]. by intros (? & ? & ? & _).
      - intros e [= <-]. left. split; [by left|done]. }
  destruct (WriteFilesCallback._get_common_path sfs) as [root|err] eqn:Hroot.
  2:{ split.
      - split; [done|]. intros (sfs' & root & [= <-] & Hret & _).
        rewrite Hroot in Hret. discriminate.
      - intros e [= <-]. left. split; [|done]. right. by exists sfs. }
  unfold WriteFilesCallback.set_file_root, WriteFilesCallback.emit. run_hook.
  destruct (p_sequence_names start) as [names|]; cbn.
  2:{ split.
      - split; [done|]. by intros (? & ? & _ & _ & [? ?] & _).
      - intros e [= <-]. right. exists sfs, root, []. repeat split; try done.
        by left. }
  destruct (p_has_gt start) as [[|]|]; cbn.
  - destruct (p_gt_names start) as [gts|]; cbn.
    + split; [|done]. split; [|done]. intros _. exists sfs, root.
      repeat split; try done. right. split; [done|by eexists].
    + split.
      * split; [done|]. intros (? & ? & _ & _ & _ & [?|[_ [? ?]]]); done.
      * intros e [= <-]. right. eexists sfs, root, [_]. split; [done|].
        split; [done|]. split; [by rewrite <- app_assoc|].
        right. exists names. repeat split; try done. by right.
  - split; [|done]. split; [|done]. intros _. exists sfs, root.
    repeat split; try done. by left.
  - split.
    + split; [done|]. intros (? & ? & _ & _ & _ & [?|[? _]]); done.
    + intros e [= <-]. right. eexists sfs, root, [_]. split; [done|].
      split; [done|]. split; [by rewrite <- app_assoc|].
      right. exists names. repeat split; try done. by left.
Qed.

(** ** WriteSubjectCallback: a whole traversal *)

Lemma WriteSubjectCallback_run_fills (events : list event) :
  forallb subject_event_ok events = true ->
  forall s,
    run WriteSubjectCallback.object events s
    = (Return tt,
       {| WriteSubjectCallback.writer :=
            WriteSubjectCallback.writer s ++ omap subject_fill events |}).
Proof.
  induction events as [|[h p] events IH]; intros Hok s.
  - cbn. rewrite app_nil_r. by destruct s.
  - cbn [forallb] in Hok. apply andb_true_iff in Hok as [He Hok].
    unfold run in *. cbn [for_ fst snd]. unfold bind.
    unfold subject_event_ok in He. cbn [fst snd] in He.
    assert (Hstep : invoke h WriteSubjectCallback.object p s
                    = (Return tt,
                       {| WriteSubjectCallback.writer :=
                            WriteSubjectCallback.writer s
                            ++ omap subject_fill [(h, p)] |})).
    { destruct h; try discriminate;
        try (cbn; rewrite app_nil_r; by destruct s).
      destruct (p_subject p) as [subj|] eqn:Hsubj; [|discriminate].
      destruct (p_subject_index p) as [i|] eqn:Hi; [|discriminate].
      cbn [invoke WriteSubjectCallback.object cb_on_subject_start].
      unfold WriteSubjectCallback.on_subject_start, WriteSubjectCallback.emit,
        subject_fill.
      cbn. rewrite Hsubj, Hi. reflexivity. }
    rewrite Hstep, (IH Hok). cbn [WriteSubjectCallback.writer].
    rewrite <- app_assoc. do 3 f_equal.
    change ((h, p) :: events) with ([(h, p)] ++ events).
    by rewrite omap_app.
Qed.

(** X15: a whole traversal seen by [WriteSubjectCallback]. After
    [on_start], whatever events follow, as long as none is a second
    [on_start] and every [on_subject_start] carries [subject] and
    [subject_index], the run returns and the writer has received exactly
    the reserve of [meta/subjects] with one slot per subject file, followed
    by one fill per [on_subject_start] event, in the order of the events,
    each putting the name the event carries at the index the event carries.
    The other hooks add nothing. *)
Theorem WriteSubjectCallback_traversal :
  forall (start : params) (subject_files : list SubjectFile)
         (events : list event) (w : Writer),
    p_subject_files start = Some subject_files ->
    forallb subject_event_ok events = true ->
    run WriteSubjectCallback.object ((OnStart, start) :: events)
      (WriteSubjectCallback.__init__ w)
    = (Return tt,
       {| WriteSubjectCallback.writer :=
            w ++ Reserve "meta/subjects" [length subject_files] builtin_str
              :: omap subject_fill events |}).
Proof.
  intros start sfs events w Hsfs Hok.
  unfold run. cbn [for_ fst snd invoke WriteSubjectCallback.object cb_on_start].
  unfold bind, WriteSubjectCallback.on_start. rewrite Hsfs. run_hook.
  pose proof (WriteSubjectCallback_run_fills events Hok) as Hrun.
  unfold run in Hrun. rewrite Hrun. cbn [WriteSubjectCallback.writer].
  by rewrite <- app_assoc.
Qed.

Lemma WriteSubjectCallback_traversal_witness :
  run WriteSubjectCallback.object ((OnStart, example_start) :: example_events)
    (WriteSubjectCallback.__init__ [])
  = (Return tt,
     {| WriteSubjectCallback.writer :=
          [Reserve "meta/subjects" [1%nat] builtin_str;
           Fill "meta/subjects" (VStr "Subject_1") (IndexExpression1 0)] |}).
Proof.
  exact (WriteSubjectCallback_traversal example_start [example_subject_gt]
           example_events [] eq_refl eq_refl).
Defined.
